(* ===== verification/_CoqProject ===== *)
-Q . S2P
Prelude.v
JsNumber.v
NumberRoundTrip.v
NumberCanon.v
JsValue.v
Json.v
JsonGrammar.v
Advisory.v
Images.v
Chart.v
Styles.v
Render.v
Lifecycle.v
Liveness.v
Refinement.v
DataSource.v
