(* ===== verification/Prelude.v ===== *)
(** * WeatherFront: a verification development of [src/app/index.tsx]

    ** The program

    The repository is one React Native screen, [WeatherPage]
    (src/app/index.tsx).  Its parts and how they interact:
    - two state cells, [weatherData] (initially [null]) and [loading]
      (initially [true]), lines 31-32;
    - a mount effect (lines 61-75) that runs the async function
      [fetchWeatherData] once: [await fetch(url)], [await
      response.json()], [setWeatherData(data)], on any throw
      [console.error], and in [finally] [setLoading(false)];
    - the render (lines 77-235): the loading indicator while [loading],
      the failure message when the payload is falsy, otherwise the
      presentation.  The presentation destructures the payload (lines
      104-114), looks the background image up in [conditionImages]
      (lines 117-125), computes the sunscreen advisory (lines 128-133),
      prints the fields into [Text] nodes, and appends the static
      [recommendedPlaces] (lines 34-59) and the bar chart of the static
      [chartData] (lines 136-172);
    - the style sheet (lines 238-355), a [StyleSheet.create] of named
      styles the elements of the render take as [style] props;
    - outside the file, the weather endpoint: [fetch] fulfils with a
      response whose body [response.json()] parses with [JSON.parse];
      the code reads neither [response.ok] nor the status.
    The payload is untyped at run time: the [WeatherData] interface
    (lines 15-29) is erased.  So every read of it is a JavaScript
    operation on an arbitrary JSON value, and the model carries the
    language's semantics for those operations.

    ** The files

    - [Prelude] (this file): completion records ([Normal]/[Throw]) with
      the [let?] notation in [js_scope] and the predicate [on_normal]
      on their normal results, last-wins association lists (JSON
      objects), the [weather] hint databases, the tactics [invc],
      [qbool], [case_ifs], [normal_chain] and [on_normal_chain], and
      shared lemmas.
    - [JsNumber]: numbers as decimal rationals [Fin m e] (= m * 10^e),
      the infinities and NaN; [Number::toString] ([num_to_string]) and
      [StringToNumber] ([string_to_number]) as ES2023 specifies them;
      [Number::lessThan] and [>=]; the setoid [num_eq] with its [Proper]
      instances; the characters of a printed number.
    - [NumberRoundTrip]: StringToNumber inverts Number::toString: digit
      lists and their values, the four layouts of the printer read back
      by the parser, trimming and the sign and radix dispatch.
    - [NumberCanon]: the digits the printer writes are canonical (no
      trailing zero, a nonzero leading digit), so Number::toString
      depends only on the value: a [Proper] instance for [num_eq].
    - [JsValue]: JSON values plus [undefined] and the built-ins a
      property read reaches; ToBoolean ([truthy]); [get_prop] through
      the ES2023 prototype chains; RequireObjectCoercible; ToString,
      ToNumber and ToPropertyKey, with an object that has an own
      [toString] member throwing; a nested induction principle.
    - [Json]: [JSON.parse] (ES2023 25.5.1 over the grammar of
      ECMA-404) on the characters of a text, with fuel, a result type
      that tells a syntax error from running out of fuel, the number
      grammar as a finite automaton, strings with their escapes and
      objects built by CreateDataProperty; [JSON.stringify] (25.5.2)
      as [json_text]; the equivalence [json_eq] of JSON values.
    - [JsonGrammar]: the grammar of ECMA-404 as inductive relations
      that carry the value a text denotes: whitespace, the number
      token, string characters with their escapes, values, members
      and the comma-separated sequences of arrays and objects, with
      the duplicate-key rule of [JSON.parse] ([define_member]); the
      number automaton of [Json] shown to accept only tokens
      of the number rule it reaches.
    - [Advisory]: [sunscreenRecommendation] (lines 128-133) and the
      specification's three-tier rule [advisory_spec].
    - [Images]: [conditionImages] and [backgroundImage] (lines 117-125)
      with the specification's exact-match rule [image_spec].
    - [Chart]: [chartData] and [renderBarChart] (lines 136-172).
    - [Styles]: the style sheet (lines 238-355) as data, the style props
      of the render, React Native's [StyleSheet.create] and
      [StyleSheet.flatten], the declared types of the style props, and
      Yoga's line breaking of a wrapping row, applied to the weather
      details (lines 193-212).
    - [Render]: the state cells, [recommendedPlaces], React's rendering
      of [Text] children, and [WeatherPage] (lines 77-235) returning a
      [screen] or a throw; the specification's snapshot type and the
      JSON body of its section 6.
    - [Lifecycle]: the effect and the async function as a machine on
      [page]s driven by environment events (promise settlements,
      unmount); [Scheduler] is the interface that says how React commits
      the state updates of one resumption, with the instances [batched]
      (React 18) and [unbatched] (the legacy renderer).
    - [Liveness]: the [eventually] combinator of omnisemantics and the
      environment's progress: a pending promise settles, a mounted
      component's effect runs.
    - [Refinement]: the specification's three-state machine ([aview],
      [astep], labelled by the outcome of the request), the environment
      the specification assumes ([env_trace]), the abstraction
      relation, the refinement of final states, and the refinement of
      the sequence of rendered screens.
    - [DataSource]: a response (status and body), [response.json()] as
      [JSON_parse] of the body, the [Lifecycle] events each outcome of
      the request produces, and [load], the page after the mount effect
      and the request; the snapshots the endpoint sends.

    ** The theorems, by group

    - Endpoint to screen ([DataSource]): when the endpoint sends
      [JSON.stringify] of a snapshot, whatever the status, the settled
      page presents that snapshot: every field and the advisory as the
      specification requires, and the specified image except for a
      condition that names a member of [Object.prototype]
      ([DataSource.endpoint_snapshot_presented]); a body that is not
      JSON gives the failure screen with the SyntaxError logged; a JSON
      error body without [weather], with any status, crashes the
      render because [response.ok] is never read.
    - JSON: the parser never runs out of fuel and its result does not
      depend on the fuel ([Json.parse_value_terminates]); it reads back
      every text [JSON.stringify] writes for a JSON value
      ([Json.json_stringify_roundtrip]); it throws on a text that
      cannot start a value; every object it builds has distinct keys
      ([Json.response_json_keys_distinct]); and every value
      [response.json()] fulfils with is the value that the grammar of
      ECMA-404 assigns to the body, so the fuelled parser refines the
      fuel-free grammar ([JsonGrammar.response_json_follows_grammar]).
    - Refinement: with well-formed payloads, every run of the component
      in the specification's environment ends in the abstract state of
      the request's outcome (failure state after a rejection, the
      presentation of the body's snapshot after a success) and renders
      the screen it prescribes ([Refinement.component_refines_spec]); under every
      scheduler the screens of a run, in order, are a path of the
      abstract machine ([Refinement.screens_follow_spec]).
    - Lifecycle: no render under batching sees [loading] with a stored
      payload; [fetch] is issued at most once; [loading] is false once
      the function returned on a mounted screen; at most four events change anything (termination);
      the outcomes of success and of both failure kinds.  With the
      legacy renderer the excluded state is observable, yet renders the
      loading indicator.
    - Liveness: whatever the environment does, as long as promises
      settle, the function returns and the loading indicator goes away
      ([Liveness.loading_eventually_ends]).
    - Numbers: parsing the printed text of any number gives the number
      back ([NumberRoundTrip.number_to_string_roundtrip]).  Numbers of
      the same value print the same text ([NumberCanon], a lemma the
      presentation of a re-encoded snapshot relies on).
    - Render: a payload of the documented shape renders every field
      verbatim; an object without [weather] crashes the render; objects
      missing the fields render a partial screen; on a truthy payload
      the render succeeds exactly when the destructuring, the two
      conversions and every printed child succeed
      ([Render.render_throws_iff]).
    - Advisory: the code computes the three-tier rule on every number,
      monotonically, invariantly under [num_eq], and it throws exactly
      on the values ToPrimitive cannot convert
      ([Advisory.sunscreen_normal]).
    - Images: exact, case-sensitive lookup with the default fallback
      off the names of [Object.prototype]; those names select a
      built-in instead; a numeric condition always gets the default.
    - Chart: every list of at most seven samples, [chartData] among
      them, fits the 350 x 200 canvas; bars are disjoint; each bar stands on the baseline
      with its sample's height under a centred label.
    - Styles: every style prop of the render names an entry of the
      sheet or is a well-typed inline object, and every style built from
      the sheet flattens to a well-typed style; for every width of the
      details container the four detail boxes form two rows of two, as
      the comment of line 284 says.

    ** Bounds and choices

    The JSON parser is the one definition with fuel: [JSON_parse]
    gives it one more than the length of the text, and every nested
    call consumes a character before it recurses, so this is enough:
    [Json.parse_value_terminates] proves that it never runs out and
    that more fuel gives the same result.  [lsd_digits] recurses on
    the binary size of the number, which bounds its decimal length;
    everything else is structural.  Termination of the lifecycle is a theorem (measure
    [Lifecycle.measure], at most 4), and liveness is proved by
    well-founded induction on the same measure.  The chart's bound of
    seven bars is the largest index [i] with [45 i + 50 <= 350].
    Layout lengths are exact rationals; Yoga computes in single
    precision, which cannot change the outcome for the details row
    (two boxes take 90% of the inner width, three 135%).

    ** Not modelled

    - Rounding to binary64: a number is its exact decimal value.  The
      thresholds 2 and 4 are doubles, so comparisons with them can
      differ only for literals within one unit in the last place of a
      threshold.
    - Code units of 256 and above in strings (Rocq strings are bytes);
      the whitespace of [StringToNumber] is its Latin-1 part.
    - HTTP itself (headers, redirects, streaming of the body): a
      response is its status and its body text.  A [\u] escape of a
      code unit above [0xFF] in a body has no Latin-1 counterpart and
      makes the model's parser fail where the engine would succeed.
    - Layout beyond the line breaking of the details row (sizes of
      texts and images, positions, scrolling) and the drawing of the
      react-native, react-native-paper and react-native-svg
      components: they only place the modelled texts and images.
      React Native reads a percentage with [parseFloat] on the text
      before [%]; the model reads it with StringToNumber, which agrees
      on the sheet's ["45%"].
    - React's development StrictMode, which runs the mount effect a
      second time and so issues a second request: no code under
      [src/] enables it, and the model follows one mount of the
      component.
    - The completeness of the parser with respect to the grammar
      (every grammatical text is accepted): the soundness direction
      is the one the screen depends on, since it says what the page
      receives. *)

From Stdlib Require Import QArith Lqa String Ascii List.
From stdpp Require Import base strings list decidable.

(** ** Completion records

    ECMAScript evaluates every expression to a completion: either a
    normal value or a throw.  All the JavaScript semantics of the
    development returns a [completion]; a [Throw] carries the kind and
    message of the [TypeError] the engine raises. *)

Inductive completion (A : Type) : Type :=
| Normal (a : A)
| Throw (msg : string).
Arguments Normal {A} a.
Arguments Throw {A} msg.

Declare Scope js_scope.
Delimit Scope js_scope with js.

Definition cbind {A B : Type} (c : completion A) (k : A -> completion B) : completion B :=
  match c with
  | Normal a => k a
  | Throw m => Throw m
  end.

Notation "'let?' x ':=' c 'in' k" := (cbind c (fun x => k))
  (at level 100, x name, c at next level, right associativity) : js_scope.

Definition is_normal {A : Type} (c : completion A) : bool :=
  match c with Normal _ => true | Throw _ => false end.

(** ** Association lists with last-wins lookup

    [JSON.parse] builds an object from its members in order: a later
    member with the same key overwrites an earlier one.  The fields of a
    parsed object are kept as the member list of the payload, and a
    property read finds the last member with the key. *)

Fixpoint assoc_last {A : Type} (k : string) (l : list (string * A)) : option A :=
  match l with
  | [] => None
  | (k', v) :: l' =>
      match assoc_last k l' with
      | Some w => Some w
      | None => if String.eqb k k' then Some v else None
      end
  end.

Create HintDb weather discriminated.
Create Rewrite HintDb weather_rw.

Lemma Qle_bool_false (x y : Q) : Qle_bool x y = false <-> (y < x)%Q.
Proof.
  rewrite <- Bool.not_true_iff_false, Qle_bool_iff. split; [apply Qnot_le_lt | apply Qlt_not_le].
Qed.

(** ** Tactics *)

Ltac invc H := inversion H; subst; clear H.

(** Turn the boolean tests of the model into propositions. *)
Ltac qbool :=
  repeat match goal with
  | H : Qle_bool _ _ = true |- _ => apply Qle_bool_iff in H
  | H : Qle_bool _ _ = false |- _ => apply Qle_bool_false in H
  | H : String.eqb _ _ = true |- _ => apply String.eqb_eq in H; subst
  end.

(** Case analysis on the [if]s and [match]es of a goal, keeping the
    equations. *)
Ltac case_ifs :=
  repeat match goal with
  | |- context [if ?b then _ else _] =>
      let E := fresh "E" in destruct b eqn:E
  end.

(** ** Generic lemmas *)

(** A computation followed by a continuation whose success does not
    depend on the value passed: it succeeds when both parts do. *)
Lemma is_normal_cbind_indep {A B : Type} (c : completion A) (k : A -> completion B) (b : bool) :
  (forall a, is_normal (k a) = b) -> is_normal (cbind c k) = (is_normal c && b)%bool.
Proof. intros Hk. destruct c as [a|m]; simpl; [apply Hk | reflexivity]. Qed.

(** What a computation returns when it does not throw. *)
Definition on_normal {A : Type} (P : A -> Prop) (c : completion A) : Prop :=
  match c with Normal a => P a | Throw _ => True end.

Lemma on_normal_cbind {A B : Type} (P : B -> Prop) (c : completion A) (k : A -> completion B) :
  (forall a, on_normal P (k a)) -> on_normal P (cbind c k).
Proof. intros Hk. destruct c as [a|m]; simpl; [apply Hk | exact I]. Qed.

(** The success of a chain of [let?]s, as a conjunction of the success
    of its steps. *)
Ltac normal_chain :=
  lazymatch goal with
  | |- is_normal (cbind _ _) = _ =>
      erewrite is_normal_cbind_indep; [reflexivity | intros ?; normal_chain]
  | |- is_normal (Normal _) = _ => cbn [is_normal]; reflexivity
  end.

(** A property of every normal result of a chain of [let?]s. *)
Ltac on_normal_chain := repeat (apply on_normal_cbind; intros ?); cbn [on_normal].

Section Generic.
Context {A : Type}.

Lemma assoc_last_In (k : string) (v : A) (l : list (string * A)) :
  assoc_last k l = Some v -> In (k, v) l.
Proof.
  induction l as [|[k' w] l IH]; simpl; [discriminate|].
  destruct (assoc_last k l); intros H.
  - right. by apply IH.
  - destruct (String.eqb_spec k k'); invc H; auto.
Qed.

Lemma assoc_last_None (k : string) (l : list (string * A)) :
  assoc_last k l = None <-> ~ In k (map fst l).
Proof.
  induction l as [|[k' v] l IH]; simpl; [tauto|].
  destruct (assoc_last k l) as [a|] eqn:E.
  - split; [discriminate|]. intros Hn. exfalso. apply Hn. right.
    apply assoc_last_In in E. apply (in_map fst) in E. exact E.
  - destruct (String.eqb_spec k k') as [->|Hne].
    + split; [discriminate|]. tauto.
    + pose proof (proj1 IH eq_refl).
      split; [intros _ [H'|H']; [congruence | tauto] | reflexivity].
Qed.

End Generic.

Lemma append_empty_r (s : string) : (s ++ "")%string = s.
Proof. induction s as [|c s IH]; [reflexivity | exact (f_equal (String c) IH)]. Qed.

#[export] Hint Rewrite append_empty_r : weather_rw.

(** ** Lists *)

Lemma Forall_mp {A : Type} (P Q : A -> Prop) (l : list A) :
  Forall (fun x => P x -> Q x) l -> Forall P l -> Forall Q l.
Proof. induction 1 as [|x l Hx _ IH]; inversion 1; subst; constructor; auto. Qed.
