(* ===== verification/JsNumber.v ===== *)
(** * JsNumber: JavaScript numbers, [Number::toString] and [StringToNumber]

    The component reads its numbers from a JSON payload and prints them
    into [Text] nodes; the advisory compares [risk_factor] with [>=],
    which converts strings with [StringToNumber].  This file holds the
    number model and the two conversions of the language that the
    component relies on, as ECMAScript 2023 specifies them
    (Number::toString, 6.1.6.1.20; StringToNumber, 7.1.4.1.1).

    A finite number is a decimal rational [m * 10^e]: the payload's
    literals and every string the conversions read are exact in this
    representation.  Rounding to binary64 is not modelled; -0 is
    identified with +0, which no comparison or conversion used by the
    component distinguishes. *)

From Stdlib Require Import QArith Lqa ZArith String Ascii List.
From stdpp Require Import base strings list decidable.
From S2P Require Import Prelude.

Local Open Scope Z_scope.

Inductive number : Type :=
| Fin (m : Z) (e : Z)      (** the finite value m * 10^e *)
| PosInf
| NegInf
| NaN.

#[export] Instance number_eq_dec : EqDecision number.
Proof. solve_decision. Defined.

(** The mathematical value of a finite number. *)
Definition dec_to_Q (m e : Z) : Q :=
  if 0 <=? e then inject_Z (m * 10 ^ e) else (m # Z.to_pos (10 ^ (- e)))%Q.

(** Numbers are equal as JavaScript values when they denote the same
    value: finite numbers with the same rational value are one double. *)
Definition num_eq (a b : number) : Prop :=
  match a, b with
  | Fin m e, Fin m' e' => (dec_to_Q m e == dec_to_Q m' e')%Q
  | _, _ => a = b
  end.

(** ** Decimal digits *)

Definition digit_char (d : Z) : ascii := ascii_of_nat (Z.to_nat (48 + d)).

(** Least significant digit first, for [0 <= n < 2^fuel]. *)
Fixpoint lsd_digits (fuel : nat) (n : Z) : list Z :=
  match fuel with
  | O => []
  | S f => if n <=? 0 then [] else n mod 10 :: lsd_digits f (n / 10)
  end.

Definition pos_digits_lsd (p : positive) : list Z := lsd_digits (Pos.size_nat p) (Zpos p).

(** Decimal text of a non-negative integer, as [Number::toString] prints
    an exponent. *)
Definition nat_digit_chars (n : Z) : list ascii :=
  match n with
  | Zpos p => map digit_char (rev (pos_digits_lsd p))
  | _ => ["0"%char]
  end.

(** Drop the trailing zeros of a digit list given least significant
    digit first, counting them. *)
Fixpoint strip_zeros (l : list Z) : list Z * Z :=
  match l with
  | 0 :: r => let '(s, c) := strip_zeros r in (s, c + 1)
  | _ => (l, 0)
  end.

(** ** Number::toString (radix 10), ES2023 6.1.6.1.20 *)

(** Steps 5 to 10 for a positive value with digits [s] (most significant
    first, no trailing zero) and decimal point position [n]. *)
Definition format_positive (s : list Z) (n : Z) : list ascii :=
  let k := Z.of_nat (length s) in
  let cs := map digit_char s in
  if (k <=? n) && (n <=? 21) then cs ++ repeat "0"%char (Z.to_nat (n - k))
  else if (0 <? n) && (n <=? 21) then take (Z.to_nat n) cs ++ ["."%char] ++ drop (Z.to_nat n) cs
  else if (-6 <? n) && (n <=? 0) then ["0"%char; "."%char] ++ repeat "0"%char (Z.to_nat (- n)) ++ cs
  else
    let exp := (if 0 <=? n - 1 then "+"%char else "-"%char) :: nat_digit_chars (Z.abs (n - 1)) in
    match cs with
    | [c] => c :: "e"%char :: exp
    | c :: rest => c :: "."%char :: rest ++ "e"%char :: exp
    | [] => []
    end.

Definition format_pos (p : positive) (e : Z) : list ascii :=
  let '(s, z) := strip_zeros (pos_digits_lsd p) in
  let s := rev s in
  format_positive s (Z.of_nat (length s) + (e + z)).

Definition num_to_string (x : number) : string :=
  match x with
  | NaN => "NaN"
  | PosInf => "Infinity"
  | NegInf => "-Infinity"
  | Fin 0 _ => "0"
  | Fin (Zpos p) e => string_of_list_ascii (format_pos p e)
  | Fin (Zneg p) e => String "-"%char (string_of_list_ascii (format_pos p e))
  end.

(** ** StringToNumber, ES2023 7.1.4.1.1 *)

(** StrWhiteSpaceChar restricted to the code units below 256: TAB, LF,
    VT, FF, CR, SPACE and NO-BREAK SPACE. *)
Definition is_ws (c : ascii) : bool :=
  match nat_of_ascii c with
  | 9 | 10 | 11 | 12 | 13 | 32 | 160 => true
  | _ => false
  end%nat.

Fixpoint drop_ws (l : list ascii) : list ascii :=
  match l with
  | c :: r => if is_ws c then drop_ws r else l
  | [] => []
  end.

Definition trim (l : list ascii) : list ascii := rev (drop_ws (rev (drop_ws l))).

(** The value of a digit in [base] (2, 8, 10 or 16), either case for
    the hexadecimal letters. *)
Definition digit_val (base : Z) (c : ascii) : option Z :=
  let n := Z.of_nat (nat_of_ascii c) in
  let v := if (48 <=? n) && (n <=? 57) then Some (n - 48)
           else if (97 <=? n) && (n <=? 102) then Some (n - 87)
           else if (65 <=? n) && (n <=? 70) then Some (n - 55)
           else None in
  match v with
  | Some d => if d <? base then Some d else None
  | None => None
  end.

Fixpoint span_digits (base : Z) (l : list ascii) : list Z * list ascii :=
  match l with
  | c :: r =>
      match digit_val base c with
      | Some d => let '(ds, rest) := span_digits base r in (d :: ds, rest)
      | None => ([], l)
      end
  | [] => ([], [])
  end.

Definition digits_value (base : Z) (ds : list Z) : Z :=
  fold_left (fun acc d => acc * base + d) ds 0.

(** A run of at least one digit that ends the string. *)
Definition all_digits (base : Z) (l : list ascii) : option Z :=
  match span_digits base l with
  | ((_ :: _) as ds, []) => Some (digits_value base ds)
  | _ => None
  end.

(** ExponentPart after its [e] or [E]: SignedInteger. *)
Definition parse_exponent (l : list ascii) : option Z :=
  match l with
  | "+"%char :: r => all_digits 10 r
  | "-"%char :: r => option_map Z.opp (all_digits 10 r)
  | _ => all_digits 10 l
  end.

Definition is_exp_mark (c : ascii) : bool := (c =? "e")%char || (c =? "E")%char.

(** StrUnsignedDecimalLiteral. *)
Definition parse_unsigned (l : list ascii) : option number :=
  if decide (l = list_ascii_of_string "Infinity") then Some PosInf else
  let '(int_ds, r1) := span_digits 10 l in
  let '(frac_ds, r2) :=
    match r1 with
    | "."%char :: r => span_digits 10 r
    | _ => ([], r1)
    end in
  if (length int_ds =? 0)%nat && (length frac_ds =? 0)%nat then None else
  let m := digits_value 10 (int_ds ++ frac_ds) in
  let scale := - Z.of_nat (length frac_ds) in
  match r2 with
  | [] => Some (Fin m scale)
  | c :: r3 =>
      if is_exp_mark c then option_map (fun x => Fin m (scale + x)) (parse_exponent r3)
      else None
  end.

Definition num_neg (x : number) : number :=
  match x with
  | Fin m e => Fin (- m) e
  | PosInf => NegInf
  | NegInf => PosInf
  | NaN => NaN
  end.

(** NonDecimalIntegerLiteral: [0b], [0o], [0x] in either case. *)
Definition radix_of (c : ascii) : option Z :=
  if (c =? "b")%char || (c =? "B")%char then Some 2
  else if (c =? "o")%char || (c =? "O")%char then Some 8
  else if (c =? "x")%char || (c =? "X")%char then Some 16
  else None.

Definition parse_numeric (l : list ascii) : option number :=
  match l with
  | [] => Some (Fin 0 0)
  | "0"%char :: c :: r =>
      match radix_of c with
      | Some b => option_map (fun v => Fin v 0) (all_digits b r)
      | None => parse_unsigned l
      end
  | "+"%char :: r => parse_unsigned r
  | "-"%char :: r => option_map num_neg (parse_unsigned r)
  | _ => parse_unsigned l
  end.

Definition string_to_number (s : string) : number :=
  match parse_numeric (trim (list_ascii_of_string s)) with
  | Some x => x
  | None => NaN
  end.

(** ** Number::lessThan, ES2023 6.1.6.1.12; [None] is undefined *)

Definition number_lt (x y : number) : option bool :=
  match x, y with
  | NaN, _ | _, NaN => None
  | PosInf, _ => Some false
  | _, PosInf => Some true
  | _, NegInf => Some false
  | NegInf, _ => Some true
  | Fin m e, Fin m' e' => Some (negb (Qle_bool (dec_to_Q m' e') (dec_to_Q m e)))
  end.

(** [x >= y] on numbers: IsLessThan(x, y) is false (not undefined). *)
Definition number_ge (x y : number) : bool :=
  match number_lt x y with
  | Some false => true
  | _ => false
  end.

(** ** Numbers up to their value *)

Lemma Qle_bool_compat (a b c d : Q) :
  (a == c)%Q -> (b == d)%Q -> Qle_bool a b = Qle_bool c d.
Proof.
  intros Hac Hbd. apply Bool.eq_iff_eq_true. rewrite !Qle_bool_iff.
  split; intros H; [rewrite <- Hac, <- Hbd | rewrite Hac, Hbd]; exact H.
Qed.

#[export] Instance num_eq_equiv : Equivalence num_eq.
Proof.
  split.
  - intros []; simpl; reflexivity.
  - intros [] []; simpl; intros H; try congruence; by symmetry.
  - intros [] [] []; simpl; intros H1 H2; try congruence; by transitivity (dec_to_Q m0 e0).
Qed.

#[export] Instance number_lt_proper : Proper (num_eq ==> num_eq ==> eq) number_lt.
Proof.
  intros [] [] H1 [] [] H2; simpl in *; try congruence.
  by rewrite (Qle_bool_compat _ _ _ _ H2 H1).
Qed.

#[export] Instance number_ge_proper : Proper (num_eq ==> num_eq ==> eq) number_ge.
Proof. intros x x' Hx y y' Hy. unfold number_ge. by rewrite Hx, Hy. Qed.

(** ** The characters of a printed finite number *)

Definition num_char (c : ascii) : bool :=
  existsb (Ascii.eqb c) (list_ascii_of_string "0123456789.-+e").

Definition is_digit (d : Z) : Prop := 0 <= d < 10.

Lemma digit_char_num_char (d : Z) : is_digit d -> num_char (digit_char d) = true.
Proof.
  unfold is_digit. intros Hd.
  assert (d = 0 \/ d = 1 \/ d = 2 \/ d = 3 \/ d = 4 \/ d = 5 \/ d = 6 \/ d = 7 \/ d = 8 \/ d = 9)
    as Hcases by lia.
  repeat destruct Hcases as [->|Hcases]; [reflexivity..|]. by subst.
Qed.

Lemma lsd_digits_digits (fuel : nat) (n : Z) : Forall is_digit (lsd_digits fuel n).
Proof.
  revert n. induction fuel as [|f IH]; intros n; simpl; [constructor|].
  destruct (n <=? 0); constructor; [|apply IH].
  unfold is_digit. pose proof (Z.mod_pos_bound n 10). lia.
Qed.

Lemma strip_zeros_digits (l : list Z) : Forall is_digit l -> Forall is_digit (fst (strip_zeros l)).
Proof.
  induction l as [|d l IH]; intros H; simpl; [constructor|].
  invc H. destruct d; simpl; try (constructor; assumption).
  destruct (strip_zeros l) as [s c] eqn:E. simpl in *. auto.
Qed.

Lemma Forall_num_char_map (s : list Z) :
  Forall is_digit s -> Forall (fun c => num_char c = true) (map digit_char s).
Proof. intros H. apply Forall_map. eapply Forall_impl; [apply digit_char_num_char | exact H]. Qed.

Lemma nat_digit_chars_num_char (n : Z) : Forall (fun c => num_char c = true) (nat_digit_chars n).
Proof.
  destruct n; simpl; try (constructor; [reflexivity | constructor]).
  apply Forall_num_char_map, Forall_rev, lsd_digits_digits.
Qed.

Ltac num_chars :=
  repeat first
    [ apply Forall_nil
    | apply Forall_app; split
    | apply List.Forall_cons; [reflexivity|]
    | apply Forall_take
    | apply Forall_drop
    | apply nat_digit_chars_num_char
    | assumption ].

Lemma format_positive_chars (s : list Z) (n : Z) :
  Forall is_digit s -> Forall (fun c => num_char c = true) (format_positive s n).
Proof.
  intros Hs. pose proof (Forall_num_char_map s Hs) as Hc.
  assert (Hz : forall k, Forall (fun c => num_char c = true) (repeat "0"%char k))
    by (intros k; apply Forall_forall; intros c Hin; apply repeat_spec in Hin; by subst).
  unfold format_positive. case_ifs; num_chars; try apply Hz.
  all: destruct (map digit_char s) as [|c [|c' rest]]; [constructor|..];
    apply Forall_cons_iff in Hc as [Hc1 Hc2]; apply List.Forall_cons; [assumption| |assumption|];
    num_chars.
Qed.

Lemma num_to_string_chars (m e : Z) :
  Forall (fun c => num_char c = true) (list_ascii_of_string (num_to_string (Fin m e))).
Proof.
  assert (Hf : forall p e, Forall (fun c => num_char c = true) (format_pos p e)).
  { intros p e'. unfold format_pos.
    pose proof (strip_zeros_digits (pos_digits_lsd p) (lsd_digits_digits _ _)) as Hd.
    destruct (strip_zeros (pos_digits_lsd p)) as [s z]. simpl in Hd.
    apply format_positive_chars, Forall_rev, Hd. }
  destruct m as [|p|p]; simpl; [repeat constructor|..];
    rewrite ?list_ascii_of_string_of_list_ascii; [apply Hf|].
  constructor; [reflexivity | apply Hf].
Qed.
