(* ===== verification/NumberRoundTrip.v ===== *)
(** * NumberRoundTrip: StringToNumber inverts Number::toString

    The component prints the payload's numbers into [Text] nodes with
    Number::toString and compares [risk_factor] with [>=], which reads a
    string with StringToNumber.  This file proves that the two
    conversions of [JsNumber] are inverse on every number: parsing the
    printed text of a number gives back the same value, whichever of
    the four layouts of Number::toString (plain integer, decimal point
    inside the digits, leading [0.000], exponent) prints it.

    The proof follows the printer: the digits of a positive integer,
    least significant first ([lsd_digits]), denote it; stripping the
    trailing zeros moves them to the exponent; each layout of
    [format_positive] is read back by [parse_unsigned] to a mantissa
    and an exponent with the same value. *)

From Stdlib Require Import QArith Qpower ZArith String Ascii List Lia.
From stdpp Require Import base strings list decidable.
From S2P Require Import Prelude JsNumber.

Local Open Scope Z_scope.

(** ** Digits and their values *)

Lemma is_digit_cases (d : Z) :
  is_digit d -> d = 0 \/ d = 1 \/ d = 2 \/ d = 3 \/ d = 4 \/ d = 5 \/ d = 6 \/ d = 7 \/ d = 8 \/ d = 9.
Proof. unfold is_digit. lia. Qed.

Ltac digit_cases H := apply is_digit_cases in H; repeat destruct H as [->|H]; [..|subst].

Lemma digit_val_char (d : Z) : is_digit d -> digit_val 10 (digit_char d) = Some d.
Proof. intros H. digit_cases H; reflexivity. Qed.

Lemma span_digits_map (ds : list Z) (r : list ascii) :
  Forall is_digit ds ->
  span_digits 10 (map digit_char ds ++ r) = (ds ++ fst (span_digits 10 r), snd (span_digits 10 r)).
Proof.
  induction 1 as [|d ds Hd _ IH]; simpl; [by destruct (span_digits 10 r)|].
  rewrite digit_val_char by exact Hd. by rewrite IH.
Qed.

Lemma digits_value_acc (l : list Z) (acc : Z) :
  fold_left (fun a d => a * 10 + d) l acc = acc * 10 ^ Z.of_nat (length l) + digits_value 10 l.
Proof.
  unfold digits_value. revert acc. induction l as [|d l IH]; intros acc; simpl; [lia|].
  rewrite (IH (acc * 10 + d)), (IH (0 * 10 + d)). rewrite Nat2Z.inj_succ, Z.pow_succ_r by lia. lia.
Qed.

Lemma digits_value_app (a b : list Z) :
  digits_value 10 (a ++ b) = digits_value 10 a * 10 ^ Z.of_nat (length b) + digits_value 10 b.
Proof. unfold digits_value at 1. by rewrite fold_left_app, digits_value_acc. Qed.

Lemma digits_value_zeros (k : nat) : digits_value 10 (repeat 0 k) = 0.
Proof.
  induction k as [|k IH]; [reflexivity|].
  change (repeat 0 (S k)) with ([0] ++ repeat 0 k). rewrite digits_value_app, IH. reflexivity.
Qed.

Lemma zeros_chars (k : nat) : repeat "0"%char k = map digit_char (repeat 0 k).
Proof. induction k as [|k IH]; simpl; [reflexivity | by rewrite IH]. Qed.

Lemma Forall_is_digit_zeros (k : nat) : Forall is_digit (repeat 0 k).
Proof. apply Forall_forall. intros d Hd. apply repeat_spec in Hd. subst. unfold is_digit. lia. Qed.

#[export] Hint Resolve Forall_is_digit_zeros : weather.
#[export] Hint Rewrite digits_value_app digits_value_zeros : weather_rw.

(** The digits of a positive integer denote it: [n < 2^fuel] bounds its
    decimal length by [fuel]. *)
Lemma lsd_digits_value (fuel : nat) (n : Z) :
  0 <= n < 2 ^ Z.of_nat fuel -> digits_value 10 (rev (lsd_digits fuel n)) = n.
Proof.
  revert n. induction fuel as [|f IH]; intros n Hn; simpl.
  - simpl in Hn. unfold digits_value. simpl. lia.
  - destruct (Z.leb_spec n 0); [unfold digits_value; simpl; lia|].
    rewrite Nat2Z.inj_succ, Z.pow_succ_r in Hn by lia.
    simpl. rewrite digits_value_app, IH.
    + change (digits_value 10 [n mod 10]) with (0 * 10 + n mod 10). simpl. pose proof (Z.div_mod n 10). lia.
    + split; [apply Z.div_pos; lia|]. apply Z.div_lt_upper_bound; lia.
Qed.

Lemma pos_size_nat_bound (p : positive) : Zpos p < 2 ^ Z.of_nat (Pos.size_nat p).
Proof.
  induction p as [p IH|p IH|]; simpl; [..|lia];
    rewrite Nat2Z.inj_succ, Z.pow_succ_r by lia; lia.
Qed.

Lemma pos_digits_value (p : positive) : digits_value 10 (rev (pos_digits_lsd p)) = Zpos p.
Proof. apply lsd_digits_value. pose proof (pos_size_nat_bound p). lia. Qed.

Lemma strip_zeros_value (l : list Z) :
  digits_value 10 (rev l) =
    digits_value 10 (rev (fst (strip_zeros l))) * 10 ^ snd (strip_zeros l) /\
  0 <= snd (strip_zeros l).
Proof.
  induction l as [|d l IH]; simpl; [split; [reflexivity | lia]|].
  destruct d as [|q|q]; simpl; [|rewrite Z.mul_1_r; split; [reflexivity | lia]..].
  destruct (strip_zeros l) as [s c]; simpl in *. destruct IH as [IH Hc].
  rewrite digits_value_app, IH. unfold digits_value at 2. simpl.
  rewrite Z.pow_add_r by lia. split; lia.
Qed.

Lemma span_digits_map_nil (ds : list Z) :
  Forall is_digit ds -> span_digits 10 (map digit_char ds) = (ds, []).
Proof.
  intros H. rewrite <- (app_nil_r (map digit_char ds)), span_digits_map by exact H.
  simpl. by rewrite app_nil_r.
Qed.

Lemma all_digits_nat (n : Z) : 0 <= n -> all_digits 10 (nat_digit_chars n) = Some n.
Proof.
  intros Hn. destruct n as [|p|p]; [reflexivity| |lia].
  unfold all_digits, nat_digit_chars.
  rewrite span_digits_map_nil by apply Forall_rev, lsd_digits_digits.
  pose proof (pos_digits_value p) as Hv.
  destruct (rev (pos_digits_lsd p)); [discriminate | by rewrite Hv].
Qed.

Lemma parse_exponent_chars (x : Z) :
  parse_exponent ((if 0 <=? x then "+"%char else "-"%char) :: nat_digit_chars (Z.abs x)) = Some x.
Proof.
  destruct (Z.leb_spec 0 x); simpl; rewrite all_digits_nat by lia; simpl; f_equal; lia.
Qed.

(** ** The four layouts of [format_positive] read back *)

Lemma num_char_not_infinity (c : ascii) (r : list ascii) :
  num_char c = true -> c :: r <> list_ascii_of_string "Infinity".
Proof. intros Hc Heq. simpl in Heq. injection Heq as -> _. discriminate Hc. Qed.

Ltac zbool_hyps :=
  repeat match goal with
  | H : (_ && _)%bool = true |- _ => apply andb_true_iff in H as [? ?]
  | H : (_ && _)%bool = false |- _ => apply andb_false_iff in H
  | H : (_ <=? _) = true |- _ => apply Z.leb_le in H
  | H : (_ <=? _) = false |- _ => apply Z.leb_gt in H
  | H : (_ <? _) = true |- _ => apply Z.ltb_lt in H
  | H : (_ <? _) = false |- _ => apply Z.ltb_ge in H
  | H : _ \/ _ |- _ => progress rewrite ?Z.leb_gt, ?Z.ltb_ge in H
  end.

(** What may follow the digits of a printed number: nothing, or an
    exponent part denoting [x]. *)
Definition exp_tail (r : list ascii) (x : Z) : Prop :=
  (r = [] /\ x = 0) \/ exists ex, r = "e"%char :: ex /\ parse_exponent ex = Some x.

Lemma nil_length_neq {A} (l : list A) : l <> [] -> (length l =? 0)%nat = false.
Proof. destruct l; [done | reflexivity]. Qed.

Lemma parse_head_digit (ids : list Z) (r : list ascii) :
  Forall is_digit ids -> ids <> [] -> map digit_char ids ++ r <> list_ascii_of_string "Infinity".
Proof.
  intros Hs Hne. destruct ids as [|d ids]; [done|]. inversion Hs.
  apply num_char_not_infinity, digit_char_num_char. done.
Qed.

(** A mantissa without a decimal point. *)
Lemma parse_unsigned_int (ids : list Z) (r : list ascii) (x : Z) :
  Forall is_digit ids -> ids <> [] -> exp_tail r x ->
  parse_unsigned (map digit_char ids ++ r) = Some (Fin (digits_value 10 ids) x).
Proof.
  intros Hs Hne Hr. unfold parse_unsigned. rewrite decide_False by (by apply parse_head_digit).
  rewrite span_digits_map by exact Hs.
  destruct Hr as [[-> ->] | (ex & -> & Hx)]; simpl; rewrite !app_nil_r, nil_length_neq by done;
    simpl; [|rewrite Hx]; simpl; do 2 f_equal; lia.
Qed.

(** A mantissa with a decimal point. *)
Lemma parse_unsigned_point (ids fds : list Z) (r : list ascii) (x : Z) :
  Forall is_digit ids -> Forall is_digit fds -> ids <> [] -> exp_tail r x ->
  parse_unsigned (map digit_char ids ++ "."%char :: map digit_char fds ++ r) =
    Some (Fin (digits_value 10 (ids ++ fds)) (x - Z.of_nat (length fds))).
Proof.
  intros Hs Hf Hne Hr. unfold parse_unsigned. rewrite decide_False by (by apply parse_head_digit).
  rewrite span_digits_map by exact Hs. simpl. rewrite span_digits_map by exact Hf.
  destruct Hr as [[-> ->] | (ex & -> & Hx)]; simpl; rewrite !app_nil_r, nil_length_neq by done;
    simpl; [|rewrite Hx]; simpl; do 2 f_equal; lia.
Qed.

Lemma exp_tail_printed (x : Z) :
  exp_tail ("e"%char :: (if 0 <=? x then "+"%char else "-"%char) :: nat_digit_chars (Z.abs x)) x.
Proof. right. eexists. split; [reflexivity | apply parse_exponent_chars]. Qed.

Lemma take_nonempty {A} (n : nat) (l : list A) : (0 < n)%nat -> l <> [] -> take n l <> [].
Proof. destruct n, l; simpl; intros; try lia; congruence. Qed.

Lemma app_nonempty_l {A} (l1 l2 : list A) : l1 <> [] -> l1 ++ l2 <> [].
Proof. destruct l1; simpl; congruence. Qed.

#[export] Hint Resolve exp_tail_printed take_nonempty app_nonempty_l : weather.
#[export] Hint Resolve Forall_app_2 Forall_take Forall_drop Forall_cons_2 Forall_nil_2 : weather.
#[export] Hint Extern 1 (is_digit _) => unfold is_digit; lia : weather.
#[export] Hint Extern 1 (_ < _)%nat => lia : weather.
#[export] Hint Extern 1 (_ :: _ <> []) => discriminate : weather.

(** Each layout of Number::toString reads back to a mantissa [m] and an
    exponent [e] with [m * 10^e] the value of the digits [s] with the
    decimal point at position [n]. *)
Lemma parse_format_positive (s : list Z) (n : Z) :
  Forall is_digit s -> s <> [] ->
  exists m e j, parse_unsigned (format_positive s n) = Some (Fin m e) /\
    m = digits_value 10 s * 10 ^ j /\ 0 <= j /\ e + j = n - Z.of_nat (length s).
Proof.
  intros Hs Hne. unfold format_positive.
  destruct (_ && _)%bool eqn:EA; zbool_hyps; [|destruct (_ && _)%bool eqn:EB; zbool_hyps;
    [|destruct (_ && _)%bool eqn:EC; zbool_hyps]].
  - rewrite zeros_chars, <- map_app, <- (app_nil_r (map _ _)).
    rewrite (parse_unsigned_int _ [] 0) by (auto with weather || (left; done)).
    eexists _, 0, _. split; [reflexivity|]. autorewrite with weather_rw.
    rewrite repeat_length, Z2Nat.id by lia. split; [ring | lia].
  - rewrite firstn_map, skipn_map, <- (app_nil_r (map _ (drop _ s))).
    change (["."%char] ++ ?x) with ("."%char :: x).
    rewrite (parse_unsigned_point _ _ [] 0) by (auto with weather || (left; done) || lia).
    rewrite firstn_skipn, length_drop. eexists _, _, 0. split; [reflexivity|]. lia.
  - change (["0"%char; "."%char] ++ ?x) with (map digit_char [0] ++ "."%char :: x).
    rewrite zeros_chars, <- map_app, <- (app_nil_r (map _ (_ ++ s))).
    rewrite (parse_unsigned_point _ _ [] 0) by (auto with weather || (left; done)).
    eexists _, _, 0. split; [reflexivity|]. autorewrite with weather_rw.
    change (digits_value 10 [0]) with 0. rewrite length_app, repeat_length, Z.pow_0_r. lia.
  - destruct s as [|d [|d' s]]; [done|..]; inversion Hs; simpl.
    + change (digit_char d :: ?r) with (map digit_char [d] ++ r).
      rewrite (parse_unsigned_int _ _ (n - 1)) by auto with weather.
      eexists _, _, 0. split; [reflexivity|]. simpl. lia.
    + change (digit_char d :: "."%char :: ?r) with (map digit_char [d] ++ "."%char :: r).
      change (digit_char d' :: map digit_char s ++ ?r) with (map digit_char (d' :: s) ++ r).
      rewrite (parse_unsigned_point _ _ _ (n - 1)) by auto with weather.
      eexists _, _, 0. split; [reflexivity|]. simpl. lia.
Qed.

(** ** Values *)

Lemma dec_to_Q_pow (m e : Z) : (dec_to_Q m e == inject_Z m * inject_Z 10 ^ e)%Q.
Proof.
  unfold dec_to_Q. destruct (Z.leb_spec 0 e).
  - by rewrite inject_Z_mult, Zpower_Qpower.
  - destruct e as [|q|q]; [lia..|]. rewrite Qmake_Qdiv, Z2Pos.id by (apply Z.pow_pos_nonneg; lia).
    change (Z.pos q) with (- Z.neg q). rewrite Zpower_Qpower by lia.
    rewrite Qpower_opp. unfold Qdiv. rewrite Qinv_involutive. reflexivity.
Qed.

Lemma dec_to_Q_shift (m e j : Z) : 0 <= j -> (dec_to_Q (m * 10 ^ j) e == dec_to_Q m (e + j))%Q.
Proof.
  intros Hj. rewrite !dec_to_Q_pow, inject_Z_mult, Zpower_Qpower by exact Hj.
  rewrite Qpower_plus by discriminate. ring.
Qed.

Lemma dec_to_Q_opp (m e : Z) : (dec_to_Q (- m) e == - dec_to_Q m e)%Q.
Proof. rewrite !dec_to_Q_pow, inject_Z_opp. ring. Qed.

Lemma dec_to_Q_zero (e e' : Z) : (dec_to_Q 0 e == dec_to_Q 0 e')%Q.
Proof. rewrite !dec_to_Q_pow. ring. Qed.

(** The positive layouts read back to the printed value. *)
Lemma format_pos_parse (p : positive) (e : Z) :
  exists y, parse_unsigned (format_pos p e) = Some y /\ num_eq y (Fin (Zpos p) e).
Proof.
  unfold format_pos.
  pose proof (strip_zeros_value (pos_digits_lsd p)) as [Hv Hz].
  pose proof (strip_zeros_digits _ (lsd_digits_digits (Pos.size_nat p) (Zpos p))) as Hd.
  rewrite pos_digits_value in Hv. unfold pos_digits_lsd in *.
  destruct (strip_zeros _) as [s z]; simpl in *.
  assert (Hne : rev s <> []) by (intros Hs; rewrite Hs in Hv; unfold digits_value in Hv; simpl in Hv; lia).
  destruct (parse_format_positive (rev s) (Z.of_nat (length (rev s)) + (e + z)))
    as (m & e' & j & Hp & -> & Hj & He); [by apply Forall_rev|done|].
  exists (Fin (digits_value 10 (rev s) * 10 ^ j) e'). split; [exact Hp|]. simpl.
  rewrite Hv, !dec_to_Q_shift by lia. replace (e' + j) with (e + z) by lia. reflexivity.
Qed.

(** ** The printed text goes through trimming and the sign and radix
    dispatch of StringToNumber unchanged *)

Lemma num_char_cases (c : ascii) :
  num_char c = true -> is_ws c = false /\ radix_of c = None.
Proof. destruct c as [[] [] [] [] [] [] [] []]; intros H; vm_compute in H |- *; by try discriminate. Qed.

Lemma drop_ws_num (l : list ascii) : Forall (fun c => num_char c = true) l -> drop_ws l = l.
Proof. destruct 1 as [|c r Hc _]; simpl; [done|]. by rewrite (proj1 (num_char_cases c Hc)). Qed.

Lemma trim_num (l : list ascii) : Forall (fun c => num_char c = true) l -> trim l = l.
Proof.
  intros H. unfold trim. rewrite (drop_ws_num l H), drop_ws_num by by apply Forall_rev.
  apply rev_involutive.
Qed.

Lemma parse_unsigned_sign (c : ascii) (r : list ascii) :
  c = "+"%char \/ c = "-"%char -> parse_unsigned (c :: r) = None.
Proof.
  intros Hc. unfold parse_unsigned. rewrite decide_False by (destruct Hc; subst; discriminate).
  destruct Hc as [->| ->]; reflexivity.
Qed.

Lemma parse_numeric_unsigned (l : list ascii) (y : number) :
  Forall (fun c => num_char c = true) l -> parse_unsigned l = Some y -> parse_numeric l = Some y.
Proof.
  intros Hl Hp. destruct l as [|c r]; [discriminate|].
  apply Forall_cons_iff in Hl as [Hc Hr].
  destruct (Ascii.eqb_spec c "+"), (Ascii.eqb_spec c "-");
    [rewrite parse_unsigned_sign in Hp by auto; discriminate..|].
  destruct (Ascii.eqb_spec c "0") as [->|H0].
  - destruct r as [|c' r]; [exact Hp|]. apply Forall_cons_iff in Hr as [Hc' _].
    simpl. by rewrite (proj2 (num_char_cases c' Hc')).
  - destruct c as [[] [] [] [] [] [] [] []]; try exact Hp; congruence.
Qed.

(** ** The round trip *)

Lemma string_to_number_printed (l : list ascii) (y : number) :
  Forall (fun c => num_char c = true) l -> parse_numeric l = Some y ->
  string_to_number (string_of_list_ascii l) = y.
Proof.
  intros Hl Hp. unfold string_to_number.
  by rewrite list_ascii_of_string_of_list_ascii, trim_num, Hp.
Qed.

Lemma parse_printed_number (x : number) :
  num_eq (string_to_number (num_to_string x)) x.
Proof.
  destruct x as [[|p|p] e| | |]; [apply dec_to_Q_zero| | |reflexivity..];
    pose proof (num_to_string_chars (Z.pos p) e) as Hc;
    pose proof (format_pos_parse p e) as (y & Hp & Hy);
    cbn [num_to_string] in Hc |- *; rewrite list_ascii_of_string_of_list_ascii in Hc.
  - rewrite (string_to_number_printed _ y Hc (parse_numeric_unsigned _ _ Hc Hp)). exact Hy.
  - change (String "-" (string_of_list_ascii (format_pos p e)))
      with (string_of_list_ascii ("-"%char :: format_pos p e)).
    rewrite (string_to_number_printed _ (num_neg y)).
    + destruct y; simpl in *; try done. rewrite dec_to_Q_opp, Hy, <- dec_to_Q_opp. reflexivity.
    + constructor; [reflexivity | exact Hc].
    + simpl. by rewrite Hp.
Qed.

(** C31: StringToNumber inverts Number::toString: the text JavaScript
    prints for any number, finite or not, reads back as the same
    number (the same value for a finite one). *)
Theorem number_to_string_roundtrip (x : number) :
  num_eq (string_to_number (num_to_string x)) x.
Proof. apply parse_printed_number. Qed.
