(* ===== verification/NumberCanon.v ===== *)
(** * NumberCanon: the text of a number depends only on its value

    A finite number [Fin m e] denotes [m * 10^e]; many pairs denote the
    same value ([Fin 21 0], [Fin 210 (-1)]).  Number::toString prints
    the value, not the pair: ES2023 6.1.6.1.20 step 5 picks the digits
    [s] of the value with [k] as small as possible.  [format_pos]
    computes them by stripping the trailing zeros of the decimal digits
    of [m].  This file proves that the result is canonical: the
    stripped digits are the unique digit list of the coefficient of
    the value not divisible by 10, and the coefficient and exponent are
    unique.  Hence [num_to_string] is a morphism for [num_eq], and the
    text a component shows for a number does not depend on how the
    payload wrote it ([1e1], [10], [10.0] all print as ["10"]). *)

From Stdlib Require Import QArith Qpower Lqa ZArith String Ascii List Lia Morphisms.
From stdpp Require Import base strings list decidable.
From S2P Require Import Prelude JsNumber NumberRoundTrip.

Local Open Scope Z_scope.

(** A digit list, least significant digit first, whose most significant
    digit is not 0. *)
Definition msd_ok (s : list Z) : Prop := s = [] \/ exists l d, s = l ++ [d] /\ d <> 0.

Lemma digits_value_nonneg (s : list Z) : Forall is_digit s -> 0 <= digits_value 10 s.
Proof.
  induction s as [|d s IH] using rev_ind; intros Hs; [reflexivity|].
  apply Forall_app in Hs as [Hs Hd]. inversion Hd as [|? ? Hd' _]. unfold is_digit in Hd'.
  rewrite digits_value_app. change (digits_value 10 [d]) with (0 * 10 + d). simpl. specialize (IH Hs). lia.
Qed.

Lemma digits_value_cons_rev (d : Z) (t : list Z) :
  digits_value 10 (rev (d :: t)) = digits_value 10 (rev t) * 10 + d.
Proof. simpl. rewrite digits_value_app. change (digits_value 10 [d]) with (0 * 10 + d). simpl. lia. Qed.

Lemma msd_ok_pos (s : list Z) :
  Forall is_digit s -> msd_ok s -> s <> [] -> 0 < digits_value 10 (rev s).
Proof.
  intros Hs [->|(l & d & -> & Hd)] Hne; [done|].
  rewrite rev_app_distr. change (rev [d]) with [d]. rewrite digits_value_app.
  apply Forall_app in Hs as [Hl Hd']. inversion Hd' as [|? ? Hd'' _]. unfold is_digit in Hd''.
  pose proof (digits_value_nonneg (rev l) (Forall_rev Hl)).
  change (digits_value 10 [d]) with (0 * 10 + d). simpl.
  assert (0 < 10 ^ Z.of_nat (length (rev l))) by (apply Z.pow_pos_nonneg; lia). nia.
Qed.

Lemma msd_ok_tail (d : Z) (t : list Z) : msd_ok (d :: t) -> msd_ok t.
Proof.
  intros [Hc|(l & x & Hl & Hx)]; [discriminate|].
  destruct t as [|y t]; [by left|]. right.
  destruct l as [|z l]; [destruct t; simpl in Hl; discriminate|].
  injection Hl as -> Ht. by exists l, x.
Qed.

(** Digit lists without a leading zero are determined by their value. *)
Lemma digits_unique (s s' : list Z) :
  Forall is_digit s -> Forall is_digit s' -> msd_ok s -> msd_ok s' ->
  digits_value 10 (rev s) = digits_value 10 (rev s') -> s = s'.
Proof.
  revert s'. induction s as [|d t IH]; intros s' Hs Hs' Hm Hm' Hv.
  - destruct s' as [|d' t']; [done|].
    pose proof (msd_ok_pos (d' :: t') Hs' Hm' ltac:(discriminate)).
    change (digits_value 10 (rev [])) with 0 in Hv. lia.
  - destruct s' as [|d' t'].
    + pose proof (msd_ok_pos (d :: t) Hs Hm ltac:(discriminate)).
      change (digits_value 10 (rev [])) with 0 in Hv. lia.
    + inversion Hs as [|? ? Hd Ht]. inversion Hs' as [|? ? Hd' Ht']. unfold is_digit in Hd, Hd'.
      rewrite !digits_value_cons_rev in Hv.
      pose proof (digits_value_nonneg (rev t) (Forall_rev Ht)).
      pose proof (digits_value_nonneg (rev t') (Forall_rev Ht')).
      assert (d = d') as -> by lia. f_equal.
      apply IH; [done | done | by eapply msd_ok_tail | by eapply msd_ok_tail | lia].
Qed.

(** ** The stripped digits of a positive integer *)

Lemma strip_zeros_spec (l : list Z) :
  l = repeat 0 (Z.to_nat (snd (strip_zeros l))) ++ fst (strip_zeros l) /\
  (forall d t, fst (strip_zeros l) = d :: t -> d <> 0).
Proof.
  induction l as [|d l IH]; simpl; [split; [reflexivity | discriminate]|].
  destruct d as [|q|q]; simpl; [|split; [reflexivity | intros ? ? [= <- _]; lia]..].
  pose proof (proj2 (strip_zeros_value l)) as Hc.
  destruct (strip_zeros l) as [s c]; simpl in *. destruct IH as [IH1 IH2].
  split; [|exact IH2]. rewrite Z2Nat.inj_add, Nat.add_comm by lia. simpl. by rewrite <- IH1.
Qed.

Lemma lsd_digits_zero (fuel : nat) : lsd_digits fuel 0 = [].
Proof. by destruct fuel. Qed.

(** The most significant digit of a positive integer is not 0. *)
Lemma lsd_digits_last (fuel : nat) (n : Z) :
  0 < n < 2 ^ Z.of_nat fuel -> exists l d, lsd_digits fuel n = l ++ [d] /\ d <> 0.
Proof.
  revert n. induction fuel as [|f IH]; intros n Hn; [simpl in Hn; lia|].
  rewrite Nat2Z.inj_succ, Z.pow_succ_r in Hn by lia. simpl.
  destruct (Z.leb_spec n 0); [lia|]. pose proof (Z.div_mod n 10). pose proof (Z.mod_pos_bound n 10).
  destruct (Z.eq_dec (n / 10) 0) as [Hz|Hz].
  - rewrite Hz, lsd_digits_zero. exists [], (n mod 10). split; [reflexivity | lia].
  - destruct (IH (n / 10)) as (l & d & Hl & Hd).
    + split; [pose proof (Z.div_pos n 10); lia | apply Z.div_lt_upper_bound; lia].
    + exists (n mod 10 :: l), d. by rewrite Hl.
Qed.

Lemma repeat_app_last (k : nat) (s l : list Z) (d : Z) :
  repeat 0 k ++ s = l ++ [d] -> d <> 0 -> exists l', s = l' ++ [d].
Proof.
  destruct s as [|x s _] using rev_ind; intros H Hd.
  - rewrite app_nil_r in H. assert (Hin : In d (repeat 0 k)) by (rewrite H; apply in_or_app; right; by left).
    apply repeat_spec in Hin. contradiction.
  - rewrite app_assoc in H. apply app_inj_tail in H as [_ ->]. by exists s.
Qed.

Lemma strip_canonical (p : positive) :
  Forall is_digit (fst (strip_zeros (pos_digits_lsd p))) /\
  msd_ok (fst (strip_zeros (pos_digits_lsd p))) /\
  exists d t, fst (strip_zeros (pos_digits_lsd p)) = d :: t /\ d <> 0.
Proof.
  pose proof (strip_zeros_spec (pos_digits_lsd p)) as [Hl Hhd].
  pose proof (strip_zeros_digits _ (lsd_digits_digits (Pos.size_nat p) (Zpos p))) as Hd.
  destruct (lsd_digits_last (Pos.size_nat p) (Zpos p)) as (l & d & Hlast & Hd0);
    [pose proof (pos_size_nat_bound p); lia|].
  unfold pos_digits_lsd in *. destruct (strip_zeros _) as [s z]; simpl in *.
  rewrite Hlast in Hl. symmetry in Hl. destruct (repeat_app_last _ _ _ _ Hl Hd0) as [l' ->].
  split; [done|]. split; [right; by exists l', d|].
  destruct (l' ++ [d]) as [|x t] eqn:E; [by destruct l'|]. exists x, t. split; [done|]. by apply (Hhd x t).
Qed.

Lemma digits_value_mod (d : Z) (t : list Z) :
  is_digit d -> (digits_value 10 (rev (d :: t))) mod 10 = d.
Proof.
  unfold is_digit. intros Hd. rewrite digits_value_cons_rev, Z.add_comm, Z_mod_plus_full.
  apply Z.mod_small. lia.
Qed.

(** ** The coefficient and the exponent of a value *)

Lemma dec_to_Q_unique_le (c c' a b : Z) :
  a <= b -> c mod 10 <> 0 -> (dec_to_Q c a == dec_to_Q c' b)%Q -> c = c' /\ a = b.
Proof.
  intros Hab Hc H. rewrite !dec_to_Q_pow in H.
  assert (H2 : inject_Z c == inject_Z (c' * 10 ^ (b - a))).
  { rewrite inject_Z_mult, Zpower_Qpower by lia. unfold Z.sub.
    rewrite Qpower_plus by discriminate. rewrite Qmult_assoc, <- H, <- Qmult_assoc, <- Qpower_plus by discriminate.
    rewrite Z.add_opp_diag_r. simpl. ring. }
  rewrite inject_Z_injective in H2.
  destruct (Z.eq_dec a b) as [<-|Hne].
  { rewrite Z.sub_diag, Z.pow_0_r, Z.mul_1_r in H2. split; [exact H2 | reflexivity]. }
  exfalso. apply Hc. replace (b - a) with (Z.succ (b - a - 1)) in H2 by lia.
  rewrite H2, Z.pow_succ_r, Z.mul_assoc, (Z.mul_comm c' 10), <- Z.mul_assoc, Z.mul_comm by lia.
  apply Z.mod_mul. discriminate.
Qed.

Lemma dec_to_Q_unique (c c' a b : Z) :
  c mod 10 <> 0 -> c' mod 10 <> 0 -> (dec_to_Q c a == dec_to_Q c' b)%Q -> c = c' /\ a = b.
Proof.
  intros Hc Hc' H. destruct (Z.le_ge_cases a b).
  - by apply dec_to_Q_unique_le.
  - symmetry in H. destruct (dec_to_Q_unique_le c' c b a ltac:(lia) Hc' H) as [-> ->]. done.
Qed.

(** The digits [format_pos] prints depend only on the value. *)
Lemma format_pos_value (p q : positive) (e e' : Z) :
  (dec_to_Q (Zpos p) e == dec_to_Q (Zpos q) e')%Q -> format_pos p e = format_pos q e'.
Proof.
  intros H. unfold format_pos.
  destruct (strip_canonical p) as (Hd & Hm & d & t & Hs & Hd0).
  destruct (strip_canonical q) as (Hd' & Hm' & d' & t' & Hs' & Hd0').
  pose proof (strip_zeros_value (pos_digits_lsd p)) as [Hv Hz]. rewrite pos_digits_value in Hv.
  pose proof (strip_zeros_value (pos_digits_lsd q)) as [Hv' Hz']. rewrite pos_digits_value in Hv'.
  destruct (strip_zeros (pos_digits_lsd p)) as [s z], (strip_zeros (pos_digits_lsd q)) as [s' z'].
  simpl in *. subst s s'.
  rewrite Hv, Hv', !dec_to_Q_shift in H by lia.
  inversion Hd as [|? ? Hdd _]. inversion Hd' as [|? ? Hdd' _].
  assert (Hmod : digits_value 10 (rev (d :: t)) mod 10 <> 0) by (rewrite digits_value_mod; done).
  assert (Hmod' : digits_value 10 (rev (d' :: t')) mod 10 <> 0) by (rewrite digits_value_mod; done).
  destruct (dec_to_Q_unique _ _ _ _ Hmod Hmod' H) as [Hc He].
  assert (Heq : d :: t = d' :: t') by (apply digits_unique; auto).
  rewrite Heq. f_equal. lia.
Qed.

(** ** Signs *)

Lemma dec_to_Q_pos (m e : Z) : 0 < m -> (0 < dec_to_Q m e)%Q.
Proof.
  intros Hm. rewrite dec_to_Q_pow. apply Qmult_lt_0_compat; [|apply Qpower_0_lt; reflexivity].
  change 0%Q with (inject_Z 0). by rewrite <- Zlt_Qlt.
Qed.

Lemma dec_to_Q_sign_cases (m e : Z) :
  (m = 0 /\ (dec_to_Q m e == 0)%Q) \/ (0 < m /\ (0 < dec_to_Q m e)%Q) \/ (m < 0 /\ (dec_to_Q m e < 0)%Q).
Proof.
  destruct (Z.lt_trichotomy m 0) as [Hm|[->|Hm]].
  - right; right. split; [done|]. pose proof (dec_to_Q_pos (- m) e ltac:(lia)) as H.
    rewrite dec_to_Q_opp in H. lra.
  - left. split; [done|]. rewrite dec_to_Q_pow. ring.
  - right; left. split; [done|]. by apply dec_to_Q_pos.
Qed.

(** The text of a number depends only on its value. *)
Lemma num_to_string_num_eq (x y : number) : num_eq x y -> num_to_string x = num_to_string y.
Proof.
  destruct x as [m e| | |], y as [m' e'| | |]; simpl; intros H; try congruence.
  destruct (dec_to_Q_sign_cases m e) as [[-> H1]|[[Hm H1]|[Hm H1]]],
           (dec_to_Q_sign_cases m' e') as [[-> H2]|[[Hm' H2]|[Hm' H2]]];
    try (exfalso; lra); [reflexivity|..];
    destruct m as [|p|p], m' as [|q|q]; try lia; simpl.
  - f_equal. by apply format_pos_value.
  - change (Zneg p) with (- Zpos p)%Z in H. change (Zneg q) with (- Zpos q)%Z in H.
    rewrite !dec_to_Q_opp in H. do 2 f_equal. apply format_pos_value. lra.
Qed.

#[export] Instance num_to_string_proper : Proper (num_eq ==> eq) num_to_string.
Proof. intros x y. apply num_to_string_num_eq. Qed.

