(* ===== verification/JsValue.v ===== *)
(** * JsValue: the JavaScript values the component handles

    [response.json()] yields whatever JSON the endpoint sends, and the
    component stores it with [setWeatherData(data)] unchecked: the
    TypeScript interface [WeatherData] (src/app/index.tsx, lines 15-29)
    is erased at run time.  Every later read of the payload is therefore
    a JavaScript operation on an arbitrary value: [!weatherData]
    (ToBoolean), [weatherData.weather] and the destructurings (Get and
    RequireObjectCoercible), [conditionImages[condition]] (ToPropertyKey
    and the prototype chain of an object literal), [risk_factor >= 4]
    (ToPrimitive and ToNumber).  This file models these operations as
    ECMAScript 2023 defines them, on the values a JSON payload can hold
    plus [Undefined] and the built-in objects a property read can
    reach. *)

From Stdlib Require Import QArith ZArith String Ascii List.
From stdpp Require Import base strings list decidable.
From S2P Require Import Prelude JsNumber.

#[local] Set Warnings "-register-all".

Inductive value : Type :=
| Undefined
| Null
| Bool (b : bool)
| Num (n : number)
| Str (s : string)
| Arr (elems : list value)
| Obj (fields : list (string * value))
  (** a JSON object, its members in the payload's order *)
| Intrinsic (name : string)
  (** a built-in object reached through a prototype, e.g.
      [Intrinsic "Object.prototype.toString"] *).

(** The values [JSON.parse] can produce: no [undefined], no built-in
    object, finite numbers only. *)
Fixpoint is_json (v : value) : bool :=
  match v with
  | Undefined | Intrinsic _ => false
  | Null | Bool _ | Str _ => true
  | Num (Fin _ _) => true
  | Num _ => false
  | Arr es => forallb is_json es
  | Obj fs => forallb (fun kv => is_json (snd kv)) fs
  end.

(** ** ToBoolean, ES2023 7.1.2 *)

Definition truthy (v : value) : bool :=
  match v with
  | Undefined | Null => false
  | Bool b => b
  | Num (Fin m _) => negb (m =? 0)%Z
  | Num NaN => false
  | Num _ => true
  | Str s => negb (String.eqb s "")
  | Arr _ | Obj _ | Intrinsic _ => true
  end.

(** ** Prototype chains

    The string-keyed properties of the ECMAScript 2023 built-in
    prototypes, with the Annex B additions.  A read of a property that
    no own property and no prototype has yields [undefined]. *)

Definition object_proto : list string :=
  ["constructor"; "hasOwnProperty"; "isPrototypeOf"; "propertyIsEnumerable";
   "toLocaleString"; "toString"; "valueOf"; "__proto__";
   "__defineGetter__"; "__defineSetter__"; "__lookupGetter__"; "__lookupSetter__"].

Definition array_proto : list string :=
  ["at"; "concat"; "constructor"; "copyWithin"; "entries"; "every"; "fill";
   "filter"; "find"; "findIndex"; "findLast"; "findLastIndex"; "flat";
   "flatMap"; "forEach"; "includes"; "indexOf"; "join"; "keys";
   "lastIndexOf"; "map"; "pop"; "push"; "reduce"; "reduceRight"; "reverse";
   "shift"; "slice"; "some"; "sort"; "splice"; "toLocaleString";
   "toReversed"; "toSorted"; "toSpliced"; "toString"; "unshift"; "values";
   "with"].

Definition string_proto : list string :=
  ["at"; "charAt"; "charCodeAt"; "codePointAt"; "concat"; "constructor";
   "endsWith"; "includes"; "indexOf"; "isWellFormed"; "lastIndexOf";
   "localeCompare"; "match"; "matchAll"; "normalize"; "padEnd"; "padStart";
   "repeat"; "replace"; "replaceAll"; "search"; "slice"; "split";
   "startsWith"; "substring"; "toLocaleLowerCase"; "toLocaleUpperCase";
   "toLowerCase"; "toString"; "toUpperCase"; "toWellFormed"; "trim";
   "trimEnd"; "trimStart"; "valueOf"; "substr"; "anchor"; "big"; "blink";
   "bold"; "fixed"; "fontcolor"; "fontsize"; "italics"; "link"; "small";
   "strike"; "sub"; "sup"; "trimLeft"; "trimRight"].

Definition number_proto : list string :=
  ["constructor"; "toExponential"; "toFixed"; "toLocaleString";
   "toPrecision"; "toString"; "valueOf"].

Definition boolean_proto : list string := ["constructor"; "toString"; "valueOf"].

Definition function_proto : list string :=
  ["apply"; "bind"; "call"; "constructor"; "toString"].

(** Read [k] along a chain of prototypes, nearest first. *)
Fixpoint proto_get (chain : list (string * list string)) (k : string) : value :=
  match chain with
  | [] => Undefined
  | (pname, members) :: rest =>
      if existsb (String.eqb k) members then Intrinsic (pname ++ "." ++ k)%string
      else proto_get rest k
  end.

Definition object_chain : list (string * list string) := [("Object.prototype", object_proto)].

(** The canonical numeric string of an array or string index. *)
Definition index_key (i : nat) : string := num_to_string (Fin (Z.of_nat i) 0).

Fixpoint index_of_key (k : string) (i : nat) (n : nat) : option nat :=
  match n with
  | O => None
  | S n' => if String.eqb (index_key i) k then Some i else index_of_key k (S i) n'
  end.

Definition nat_num (n : nat) : value := Num (Fin (Z.of_nat n) 0).

(** ** Get, with GetV's ToObject for primitives (ES2023 7.3.2, 7.3.3) *)

Definition get_prop (v : value) (k : string) : completion value :=
  match v with
  | Undefined => Throw ("TypeError: Cannot read properties of undefined (reading '" ++ k ++ "')")
  | Null => Throw ("TypeError: Cannot read properties of null (reading '" ++ k ++ "')")
  | Obj fs =>
      match assoc_last k fs with
      | Some x => Normal x
      | None => Normal (proto_get object_chain k)
      end
  | Arr es =>
      if String.eqb k "length" then Normal (nat_num (length es)) else
      match index_of_key k 0 (length es) with
      | Some i => Normal (nth i es Undefined)
      | None => Normal (proto_get (("Array.prototype", array_proto) :: object_chain) k)
      end
  | Str s =>
      if String.eqb k "length" then Normal (nat_num (String.length s)) else
      match index_of_key k 0 (String.length s) with
      | Some i => Normal (Str (String.substring i 1 s))
      | None => Normal (proto_get (("String.prototype", string_proto) :: object_chain) k)
      end
  | Num _ => Normal (proto_get (("Number.prototype", number_proto) :: object_chain) k)
  | Bool _ => Normal (proto_get (("Boolean.prototype", boolean_proto) :: object_chain) k)
  | Intrinsic _ => Normal (proto_get (("Function.prototype", function_proto) :: object_chain) k)
  end.

(** The first step of an object pattern [const { ... } = v] (ES2023
    8.6.2, RequireObjectCoercible); each property is then read with
    [get_prop], in the pattern's order. *)
Definition require_object_coercible (v : value) : completion value :=
  match v with
  | Undefined => Throw "TypeError: Cannot destructure 'undefined' as it is undefined."
  | Null => Throw "TypeError: Cannot destructure 'null' as it is null."
  | _ => Normal v
  end.

(** ** ToString and ToPrimitive (ES2023 7.1.17, 7.1.1)

    A JSON object's own members are data, never callable.
    OrdinaryToPrimitive therefore skips an own [toString] or [valueOf]
    member; [Object.prototype.valueOf] returns the object itself, and
    [Object.prototype.toString] gives ["[object Object]"].  The result:
    an object with an own [toString] member has no primitive value and
    the conversion throws, whatever the hint; any other object converts
    to ["[object Object]"].  An array converts with
    [Array.prototype.join]: ToString of each element, [null] and
    [undefined] as the empty string, separated by commas. *)

Definition no_primitive : string := "TypeError: Cannot convert object to primitive value".

(** [Array.prototype.join] with separator [","] over the converted
    elements, left to right: the first element that throws ends it. *)
Fixpoint join_commas (cs : list (completion string)) : completion string :=
  match cs with
  | [] => Normal ""
  | [c] => c
  | c :: rest => (let? a := c in let? b := join_commas rest in Normal (a ++ "," ++ b)%string)%js
  end.

Fixpoint to_string (v : value) : completion string :=
  match v with
  | Undefined => Normal "undefined"
  | Null => Normal "null"
  | Bool true => Normal "true"
  | Bool false => Normal "false"
  | Num n => Normal (num_to_string n)
  | Str s => Normal s
  | Arr es =>
      join_commas (map (fun e => match e with Undefined | Null => Normal "" | _ => to_string e end) es)
  | Obj fs =>
      match assoc_last "toString" fs with
      | Some _ => Throw no_primitive
      | None => Normal "[object Object]"
      end
  | Intrinsic name => Normal ("function " ++ name ++ "() { [native code] }")%string
  end.

(** ToNumber, ES2023 7.1.4, with ToPrimitive for objects. *)
Definition to_number (v : value) : completion number :=
  match v with
  | Undefined => Normal NaN
  | Null => Normal (Fin 0 0)
  | Bool b => Normal (Fin (if b then 1 else 0) 0)
  | Num n => Normal n
  | Str s => Normal (string_to_number s)
  | Arr _ | Obj _ | Intrinsic _ => (let? s := to_string v in Normal (string_to_number s))%js
  end.

(** [v >= c] for a numeric literal [c]: IsLessThan(v, c) with LeftFirst
    (ES2023 7.2.13 and 13.10.1). *)
Definition js_ge (v : value) (c : number) : completion bool :=
  (let? n := to_number v in Normal (number_ge n c))%js.

(** ToPropertyKey (ES2023 7.1.19) of a value that is not a Symbol. *)
Definition to_property_key (v : value) : completion string := to_string v.

(** ** Induction on values, through arrays and objects *)

Section ValueInd.
Variable P : value -> Prop.
Hypothesis P_undef : P Undefined.
Hypothesis P_null : P Null.
Hypothesis P_bool : forall b, P (Bool b).
Hypothesis P_num : forall n, P (Num n).
Hypothesis P_str : forall s, P (Str s).
Hypothesis P_arr : forall es, Forall P es -> P (Arr es).
Hypothesis P_obj : forall fs, Forall (fun kv => P (snd kv)) fs -> P (Obj fs).
Hypothesis P_intr : forall name, P (Intrinsic name).

Fixpoint value_ind' (v : value) : P v :=
  match v with
  | Undefined => P_undef
  | Null => P_null
  | Bool b => P_bool b
  | Num n => P_num n
  | Str s => P_str s
  | Arr es =>
      P_arr es ((fix go (l : list value) : Forall P l :=
                   match l with
                   | [] => List.Forall_nil _
                   | e :: l' => @List.Forall_cons _ P e l' (value_ind' e) (go l')
                   end) es)
  | Obj fs =>
      P_obj fs ((fix go (l : list (string * value)) : Forall (fun kv => P (snd kv)) l :=
                   match l with
                   | [] => List.Forall_nil _
                   | kv :: l' => @List.Forall_cons _ (fun kv => P (snd kv)) kv l' (value_ind' (snd kv)) (go l')
                   end) fs)
  | Intrinsic name => P_intr name
  end.
End ValueInd.

(** The values ToPrimitive can convert: an object converts unless it
    has an own [toString] member, an array when all its elements do. *)
Fixpoint convertible (v : value) : bool :=
  match v with
  | Obj fs => match assoc_last "toString" fs with Some _ => false | None => true end
  | Arr es => forallb convertible es
  | _ => true
  end.

Lemma join_commas_cons2 (c c' : completion string) (cs : list (completion string)) :
  join_commas (c :: c' :: cs) =
  (let? a := c in let? b := join_commas (c' :: cs) in Normal (a ++ "," ++ b)%string)%js.
Proof. reflexivity. Qed.

Lemma join_commas_normal (cs : list (completion string)) :
  is_normal (join_commas cs) = forallb is_normal cs.
Proof.
  induction cs as [|c cs IH]; [reflexivity|].
  destruct cs as [|c' cs]; [simpl; by destruct c|].
  rewrite join_commas_cons2. destruct c as [a|m]; cbn [cbind forallb is_normal andb]; [|reflexivity].
  change (forallb is_normal (c' :: cs)) with (is_normal c' && forallb is_normal cs)%bool in IH.
  rewrite <- IH. by destruct (join_commas (c' :: cs)).
Qed.

(** ToString throws exactly on the values that are not convertible. *)
Lemma to_string_normal (v : value) : is_normal (to_string v) = convertible v.
Proof.
  induction v using value_ind'; try reflexivity.
  - destruct b; reflexivity.
  - simpl. rewrite join_commas_normal.
    induction H as [|e es He _ IH]; simpl; [reflexivity|].
    rewrite IH. f_equal. destruct e; simpl in *; auto.
  - simpl. by destruct (assoc_last "toString" fs).
Qed.

Lemma to_number_normal (v : value) : is_normal (to_number v) = convertible v.
Proof.
  destruct v; try reflexivity; unfold to_number;
    rewrite <- to_string_normal; by destruct (to_string _).
Qed.

(** A read of a key that the object lacks and [Object.prototype] does
    not have is [undefined]. *)
Lemma get_prop_absent (fs : list (string * value)) (k : string) :
  assoc_last k fs = None -> ~ In k object_proto -> get_prop (Obj fs) k = Normal Undefined.
Proof.
  intros Hk Hp. unfold get_prop. rewrite Hk. unfold object_chain. cbn [proto_get].
  destruct (existsb (String.eqb k) object_proto) eqn:E; [|reflexivity].
  apply existsb_exists in E as (k' & Hin & Heq). apply String.eqb_eq in Heq. subst. contradiction.
Qed.

(** ** Reads of the payload that cannot throw *)

(** The values RequireObjectCoercible accepts, and whose properties can
    be read. *)
Definition coercible (v : value) : bool :=
  match v with Undefined | Null => false | _ => true end.

(** The value of [v.k] when the read does not throw. *)
Definition field (v : value) (k : string) : value :=
  match get_prop v k with Normal x => x | Throw _ => Undefined end.

Lemma get_prop_coercible (v : value) (k : string) :
  coercible v = true -> get_prop v k = Normal (field v k).
Proof.
  intros H. unfold field. destruct (get_prop v k) eqn:E; [reflexivity|].
  destruct v; try discriminate; simpl in E; repeat case_match; discriminate.
Qed.

Lemma require_object_coercible_ok (v : value) :
  coercible v = true -> require_object_coercible v = Normal v.
Proof. destruct v; simpl; congruence. Qed.

Lemma require_object_coercible_normal (v : value) :
  is_normal (require_object_coercible v) = coercible v.
Proof. by destruct v. Qed.
