(* ===== verification/Json.v ===== *)
(** * Json: [JSON.parse] and the JSON text of a value

    [response.json()] (src/app/index.tsx, line 65) reads the body of
    the response and parses it with [JSON.parse] (ES2023 25.5.1): the
    body must be one JSON text (ECMA-404) surrounded by white space;
    numbers are read for their mathematical value, strings with their
    escapes, objects with [CreateDataProperty] (a repeated key keeps
    its first position and takes the last value).  Anything else
    throws a [SyntaxError], which rejects the promise.

    The parser below works on the characters of the body with fuel: a
    call on a nested value or member consumes a character before it
    recurses, so fuel [1 + length] is enough, and [parse_value]
    distinguishes running out of fuel ([POOT]) from a syntax error
    ([PErr]) so that this is a theorem.  The number grammar is the
    finite automaton of ECMA-404 section 8, run for its longest match;
    the value of an accepted number is StringToNumber of its text,
    which the two grammars give the same mathematical value.

    [json_text] is the text [JSON.stringify] writes for a value
    (ES2023 25.5.2): it is the model of what the endpoint sends.  The
    file proves that [JSON.parse] reads it back, that the parser never
    runs out of fuel, and that the objects it builds have distinct
    keys.

    Where the model departs from the engine: the body is the decoded
    text, one Latin-1 code unit per character, so a [\u] escape above
    [0xFF] is rejected ([unsupported_unit]); numbers keep their exact
    decimal value (no rounding to binary64, no overflow to Infinity);
    an object keeps its members in insertion order, while the engine
    lists integer-like keys first, an order no property read of the
    component observes. *)

From Stdlib Require Import QArith ZArith String Ascii List Lia.
From stdpp Require Import base strings list decidable.
From S2P Require Import Prelude JsNumber NumberRoundTrip NumberCanon JsValue.

(** ** Results of the parser *)

Inductive presult (A : Type) : Type :=
| POk (a : A) (rest : list ascii)
| PErr (msg : string)
| POOT.
Arguments POk {A} a rest.
Arguments PErr {A} msg.
Arguments POOT {A}.

Definition pbind {A B : Type} (r : presult A) (k : A -> list ascii -> presult B) : presult B :=
  match r with
  | POk a rest => k a rest
  | PErr m => PErr m
  | POOT => POOT
  end.

Definition syntax_error : string := "SyntaxError: invalid JSON".

(** Escapes [\uXXXX] of a code unit above [0xFF] have no counterpart
    in the byte strings of the model. *)
Definition unsupported_unit : string := "code unit above 0xFF".

(** ** Characters *)

Definition quote : ascii := "034"%char.
Definition backslash : ascii := "092"%char.

(** JSON white space: TAB, LF, CR, SPACE. *)
Definition json_ws (c : ascii) : bool :=
  match nat_of_ascii c with 9 | 10 | 13 | 32 => true | _ => false end%nat.

Fixpoint skip_ws (l : list ascii) : list ascii :=
  match l with
  | c :: r => if json_ws c then skip_ws r else l
  | [] => []
  end.

Fixpoint strip_prefix (p l : list ascii) : option (list ascii) :=
  match p, l with
  | [], _ => Some l
  | c :: p', d :: l' => if Ascii.eqb c d then strip_prefix p' l' else None
  | _ :: _, [] => None
  end.

(** The rest of [l] after the character [c], if [l] starts with it. *)
Definition head_is (c : ascii) (l : list ascii) : option (list ascii) :=
  match l with
  | d :: r => if Ascii.eqb d c then Some r else None
  | [] => None
  end.

(** ** Strings, ECMA-404 section 9 *)

(** The character a one-character escape stands for. *)
Definition escape_char (c : ascii) : option ascii :=
  match nat_of_ascii c with
  | 34 => Some quote | 92 => Some backslash | 47 => Some "/"%char
  | 98 => Some "008"%char | 102 => Some "012"%char | 110 => Some "010"%char
  | 114 => Some "013"%char | 116 => Some "009"%char
  | _ => None
  end%nat.

Definition hex4_value (a b c d : ascii) : option Z :=
  match digit_val 16 a, digit_val 16 b, digit_val 16 c, digit_val 16 d with
  | Some w, Some x, Some y, Some z => Some (((w * 16 + x) * 16 + y) * 16 + z)%Z
  | _, _, _, _ => None
  end.

(** The characters of a string after its opening quote, up to its
    closing quote. *)
Fixpoint parse_chars (l : list ascii) : presult (list ascii) :=
  match l with
  | [] => PErr syntax_error
  | c :: r =>
      if Ascii.eqb c quote then POk [] r
      else if Ascii.eqb c backslash then
        match r with
        | e :: r' =>
            if Ascii.eqb e "u" then
              match r' with
              | a :: b :: c' :: d :: r'' =>
                  match hex4_value a b c' d with
                  | Some n =>
                      if (n <? 256)%Z
                      then pbind (parse_chars r'') (fun s rest => POk (ascii_of_nat (Z.to_nat n) :: s) rest)
                      else PErr unsupported_unit
                  | None => PErr syntax_error
                  end
              | _ => PErr syntax_error
              end
            else
              match escape_char e with
              | Some c' => pbind (parse_chars r') (fun s rest => POk (c' :: s) rest)
              | None => PErr syntax_error
              end
        | [] => PErr syntax_error
        end
      else if (nat_of_ascii c <? 32)%nat then PErr syntax_error
      else pbind (parse_chars r) (fun s rest => POk (c :: s) rest)
  end.

(** ** Numbers, ECMA-404 section 8 *)

Inductive nstate : Type :=
| NStart | NMinus | NZero | NInt | NDot | NFrac | NExp | NExpSign | NExpDigits.

#[export] Instance nstate_eq_dec : EqDecision nstate.
Proof. solve_decision. Defined.

Definition is_digit_char (c : ascii) : bool :=
  let n := nat_of_ascii c in (48 <=? n)%nat && (n <=? 57)%nat.

Definition is_exp_char (c : ascii) : bool := Ascii.eqb c "e" || Ascii.eqb c "E".

Definition nstep (st : nstate) (c : ascii) : option nstate :=
  match st with
  | NStart =>
      if Ascii.eqb c "-" then Some NMinus else if Ascii.eqb c "0" then Some NZero
      else if is_digit_char c then Some NInt else None
  | NMinus => if Ascii.eqb c "0" then Some NZero else if is_digit_char c then Some NInt else None
  | NZero => if Ascii.eqb c "." then Some NDot else if is_exp_char c then Some NExp else None
  | NInt =>
      if is_digit_char c then Some NInt else if Ascii.eqb c "." then Some NDot
      else if is_exp_char c then Some NExp else None
  | NDot => if is_digit_char c then Some NFrac else None
  | NFrac => if is_digit_char c then Some NFrac else if is_exp_char c then Some NExp else None
  | NExp =>
      if Ascii.eqb c "+" || Ascii.eqb c "-" then Some NExpSign
      else if is_digit_char c then Some NExpDigits else None
  | NExpSign | NExpDigits => if is_digit_char c then Some NExpDigits else None
  end.

(** The longest run of the automaton: its last state and the number of
    characters read. *)
Fixpoint nscan (st : nstate) (l : list ascii) : nstate * nat :=
  match l with
  | [] => (st, 0%nat)
  | c :: r =>
      match nstep st c with
      | Some st' => let '(st'', n) := nscan st' r in (st'', S n)
      | None => (st, 0%nat)
      end
  end.

Definition n_accepting (st : nstate) : bool :=
  match st with NZero | NInt | NFrac | NExpDigits => true | _ => false end.

Definition parse_number (l : list ascii) : presult value :=
  let '(st, n) := nscan NStart l in
  if n_accepting st then POk (Num (string_to_number (string_of_list_ascii (take n l)))) (drop n l)
  else PErr syntax_error.

(** ** Values, ECMA-404 sections 4 to 7 *)

(** [CreateDataProperty] on the object being built: a repeated key
    keeps its position and takes the new value. *)
Definition define_member (acc : list (string * value)) (kv : string * value) : list (string * value) :=
  if existsb (fun p => String.eqb (fst p) (fst kv)) acc
  then map (fun p => if String.eqb (fst p) (fst kv) then (fst p, snd kv) else p) acc
  else acc ++ [kv].

Fixpoint parse_value (fuel : nat) (l : list ascii) : presult value :=
  match fuel with
  | O => POOT
  | S f =>
      match skip_ws l with
      | [] => PErr syntax_error
      | c :: r =>
          if Ascii.eqb c "{" then
            match head_is "}" (skip_ws r) with
            | Some r' => POk (Obj []) r'
            | None => pbind (parse_member f (skip_ws r)) (fun kv rest => parse_members f rest [kv])
            end
          else if Ascii.eqb c "[" then
            match head_is "]" (skip_ws r) with
            | Some r' => POk (Arr []) r'
            | None => pbind (parse_value f (skip_ws r)) (fun v rest => parse_elements f rest [v])
            end
          else if Ascii.eqb c quote then
            pbind (parse_chars r) (fun s rest => POk (Str (string_of_list_ascii s)) rest)
          else match strip_prefix (list_ascii_of_string "true") (c :: r) with
          | Some rest => POk (Bool true) rest
          | None =>
          match strip_prefix (list_ascii_of_string "false") (c :: r) with
          | Some rest => POk (Bool false) rest
          | None =>
          match strip_prefix (list_ascii_of_string "null") (c :: r) with
          | Some rest => POk Null rest
          | None => parse_number (c :: r)
          end end end
      end
  end
(** A member [string : value], at its opening quote. *)
with parse_member (fuel : nat) (l : list ascii) : presult (string * value) :=
  match fuel with
  | O => POOT
  | S f =>
      match l with
      | c :: r =>
          if Ascii.eqb c quote then
            pbind (parse_chars r) (fun k rest =>
              match head_is ":" (skip_ws rest) with
              | Some rest' => pbind (parse_value f rest') (fun v rest'' => POk (string_of_list_ascii k, v) rest'')
              | None => PErr syntax_error
              end)
          else PErr syntax_error
      | [] => PErr syntax_error
      end
  end
(** The members after the first: [, member] until [}]. *)
with parse_members (fuel : nat) (l : list ascii) (acc : list (string * value)) : presult value :=
  match fuel with
  | O => POOT
  | S f =>
      match head_is "," (skip_ws l) with
      | Some r => pbind (parse_member f (skip_ws r)) (fun kv rest => parse_members f rest (define_member acc kv))
      | None =>
          match head_is "}" (skip_ws l) with
          | Some r => POk (Obj acc) r
          | None => PErr syntax_error
          end
      end
  end
(** The elements after the first: [, value] until [\]]. *)
with parse_elements (fuel : nat) (l : list ascii) (acc : list value) : presult value :=
  match fuel with
  | O => POOT
  | S f =>
      match head_is "," (skip_ws l) with
      | Some r => pbind (parse_value f r) (fun v rest => parse_elements f rest (acc ++ [v]))
      | None =>
          match head_is "]" (skip_ws l) with
          | Some r => POk (Arr acc) r
          | None => PErr syntax_error
          end
      end
  end.

(** [JSON.parse(text)] with [fuel]: one value, then only white space. *)
Definition JSON_parse_fuel (fuel : nat) (text : string) : completion value :=
  match parse_value fuel (list_ascii_of_string text) with
  | POk v rest => match skip_ws rest with [] => Normal v | _ => Throw syntax_error end
  | PErr m => Throw m
  | POOT => Throw syntax_error
  end.

(** [JSON.parse(text)]: fuel one above the length of the text, which
    [parse_value_terminates] shows is enough. *)
Definition JSON_parse (text : string) : completion value :=
  JSON_parse_fuel (S (length (list_ascii_of_string text))) text.

(** ** [response.json()] *)

(** The response [fetch] fulfils with: its status and its body. *)
Record response : Type := {
  status : Z;      (** never read by the code *)
  body : string
}.

(** [await response.json()], line 65: the body read as text and parsed. *)
Definition response_json (r : response) : completion value := JSON_parse (body r).

(** ** The text of a value: [JSON.stringify], ES2023 25.5.2 *)

(** A hexadecimal digit, lower case as UnicodeEscape writes it. *)
Definition hex_digit (n : nat) : ascii :=
  if (n <? 10)%nat then ascii_of_nat (48 + n) else ascii_of_nat (87 + n).

(** QuoteJSONString on one code unit: the escapes of Table 73, a
    UnicodeEscape below [0x20], the code unit itself otherwise. *)
Definition quote_char (c : ascii) : list ascii :=
  match nat_of_ascii c with
  | 8 => [backslash; "b"%char]
  | 9 => [backslash; "t"%char]
  | 10 => [backslash; "n"%char]
  | 12 => [backslash; "f"%char]
  | 13 => [backslash; "r"%char]
  | 34 => [backslash; quote]
  | 92 => [backslash; backslash]
  | n =>
      if (n <? 32)%nat
      then [backslash; "u"%char; "0"%char; "0"%char; hex_digit (n / 16); hex_digit (n mod 16)]
      else [c]
  end%nat.

Definition quote_json (s : string) : list ascii :=
  quote :: flat_map quote_char (list_ascii_of_string s) ++ [quote].

(** The texts of the elements or members, separated by commas. *)
Fixpoint join_with (sep : ascii) (ts : list (list ascii)) : list ascii :=
  match ts with
  | [] => []
  | [t] => t
  | t :: ts' => t ++ sep :: join_with sep ts'
  end.

Definition null_text : list ascii := list_ascii_of_string "null".

(** SerializeJSONProperty: [None] where [JSON.stringify] gives
    [undefined] (undefined and functions); in an array such an element
    is written [null], in an object such a member is left out. *)
Fixpoint json_text (v : value) : option (list ascii) :=
  match v with
  | Undefined | Intrinsic _ => None
  | Null => Some null_text
  | Bool b => Some (list_ascii_of_string (if b then "true" else "false"))
  | Num x => Some (match x with Fin _ _ => list_ascii_of_string (num_to_string x) | _ => null_text end)
  | Str s => Some (quote_json s)
  | Arr es =>
      Some ("["%char :: join_with ","%char
              (map (fun e => match json_text e with Some t => t | None => null_text end) es) ++ ["]"%char])
  | Obj fs =>
      Some ("{"%char :: join_with ","%char
              ((fix members (fs : list (string * value)) : list (list ascii) :=
                  match fs with
                  | [] => []
                  | (k, e) :: fs' =>
                      match json_text e with
                      | Some t => (quote_json k ++ ":"%char :: t) :: members fs'
                      | None => members fs'
                      end
                  end) fs) ++ ["}"%char])
  end.

(** [JSON.stringify(v)]: the text, or [undefined]. *)
Definition JSON_stringify (v : value) : option string := option_map string_of_list_ascii (json_text v).

(** The characters a JSON text can start with, after white space. *)
Definition value_start (c : ascii) : bool :=
  Ascii.eqb c "{" || Ascii.eqb c "[" || Ascii.eqb c quote || Ascii.eqb c "t" || Ascii.eqb c "f" ||
  Ascii.eqb c "n" || Ascii.eqb c "-" || is_digit_char c.

(** The values whose text reads back: JSON values whose objects have
    distinct keys, as the own properties of a JavaScript object do. *)
Fixpoint keys_distinct (v : value) : bool :=
  match v with
  | Arr es => forallb keys_distinct es
  | Obj fs => bool_decide (NoDup (map fst fs)) && forallb (fun kv => keys_distinct (snd kv)) fs
  | _ => true
  end.

Definition json_wf (v : value) : bool := is_json v && keys_distinct v.

(** The same JSON value: numbers compared by their value. *)
#[warnings="-register-all"]
Inductive json_eq : value -> value -> Prop :=
| json_eq_null : json_eq Null Null
| json_eq_bool (b : bool) : json_eq (Bool b) (Bool b)
| json_eq_num (x y : number) : num_eq x y -> json_eq (Num x) (Num y)
| json_eq_str (s : string) : json_eq (Str s) (Str s)
| json_eq_arr (es es' : list value) : Forall2 json_eq es es' -> json_eq (Arr es) (Arr es')
| json_eq_obj (fs fs' : list (string * value)) :
    Forall2 (fun kv kv' => fst kv = fst kv' /\ json_eq (snd kv) (snd kv')) fs fs' -> json_eq (Obj fs) (Obj fs').

(** ** Termination: fuel [1 + length] is enough *)

(** A parse of [l] that does not run out of fuel and, when it succeeds,
    consumes at least one character. *)
Definition shrinks {A : Type} (l : list ascii) (r : presult A) : Prop :=
  r <> POOT /\ forall a rest, r = POk a rest -> (length rest < length l)%nat.

Lemma shrinks_err {A : Type} (l : list ascii) (m : string) : shrinks l (@PErr A m).
Proof. split; [done | by intros]. Qed.

Lemma shrinks_ok {A : Type} (l rest : list ascii) (a : A) :
  (length rest < length l)%nat -> shrinks l (POk a rest).
Proof. intros H. split; [done | by intros ?? [= <- <-]]. Qed.

Lemma shrinks_weaken {A : Type} (l l' : list ascii) (r : presult A) :
  (length l <= length l')%nat -> shrinks l r -> shrinks l' r.
Proof. intros ? [H1 H2]. split; [done | intros a rest Hr; specialize (H2 a rest Hr); lia]. Qed.

Lemma shrinks_pbind {A B : Type} (l : list ascii) (r : presult A) (k : A -> list ascii -> presult B) :
  shrinks l r -> (forall a rest, r = POk a rest -> shrinks l (k a rest)) -> shrinks l (pbind r k).
Proof. intros [H1 H2] Hk. destruct r as [a rest|m|]; simpl; [by apply Hk | apply shrinks_err | done]. Qed.

Lemma skip_ws_length (l : list ascii) : (length (skip_ws l) <= length l)%nat.
Proof. induction l as [|c r IH]; simpl; [lia|]. destruct (json_ws c); simpl; lia. Qed.

Lemma head_is_length (c : ascii) (l r : list ascii) : head_is c l = Some r -> length l = S (length r).
Proof. destruct l as [|d l]; simpl; [done|]. by destruct (Ascii.eqb d c); intros [= ->]. Qed.

Lemma strip_prefix_length (p l r : list ascii) :
  strip_prefix p l = Some r -> length l = (length p + length r)%nat.
Proof.
  revert l. induction p as [|c p IH]; intros [|d l]; simpl; [by intros [= <-]..|done|].
  destruct (Ascii.eqb c d); [intros H; rewrite (IH l H); lia | done].
Qed.

Lemma parse_chars_shrinks (l : list ascii) : shrinks l (parse_chars l).
Proof.
  induction l as [l IH] using (induction_ltof1 _ (@length ascii)); unfold ltof in IH.
  destruct l as [|c r]; simpl; [apply shrinks_err|].
  destruct (Ascii.eqb c quote); [apply shrinks_ok; simpl; lia|].
  destruct (Ascii.eqb c backslash).
  - destruct r as [|e r']; [apply shrinks_err|].
    destruct (Ascii.eqb e "u").
    + destruct r' as [|a [|b [|c' [|d r'']]]]; try apply shrinks_err.
      destruct (hex4_value a b c' d) as [n|]; [|apply shrinks_err].
      destruct (n <? 256)%Z; [|apply shrinks_err].
      apply shrinks_pbind; [apply (shrinks_weaken r''); [simpl; lia | apply IH; simpl; lia]|].
      intros s rest Hs. apply shrinks_ok. destruct (IH r'' ltac:(simpl; lia)) as [_ H].
      specialize (H _ _ Hs). simpl in *. lia.
    + destruct (escape_char e) as [c'|]; [|apply shrinks_err].
      apply shrinks_pbind; [apply (shrinks_weaken r'); [simpl; lia | apply IH; simpl; lia]|].
      intros s rest Hs. apply shrinks_ok. destruct (IH r' ltac:(simpl; lia)) as [_ H].
      specialize (H _ _ Hs). simpl in *. lia.
  - destruct (nat_of_ascii c <? 32)%nat; [apply shrinks_err|].
    apply shrinks_pbind; [apply (shrinks_weaken r); [simpl; lia | apply IH; simpl; lia]|].
    intros s rest Hs. apply shrinks_ok. destruct (IH r ltac:(simpl; lia)) as [_ H].
    specialize (H _ _ Hs). simpl in *. lia.
Qed.

Lemma nscan_spec (st : nstate) (l : list ascii) :
  (snd (nscan st l) <= length l)%nat /\ (snd (nscan st l) = 0%nat -> fst (nscan st l) = st).
Proof.
  revert st. induction l as [|c r IH]; intros st; simpl; [split; [lia | done]|].
  destruct (nstep st c) as [st'|]; simpl; [|split; [lia | done]].
  specialize (IH st'). destruct (nscan st' r) as [st'' n]; simpl in *. split; [lia | discriminate].
Qed.

Lemma parse_number_shrinks (l : list ascii) : shrinks l (parse_number l).
Proof.
  unfold parse_number. pose proof (nscan_spec NStart l) as [Hle H0].
  destruct (nscan NStart l) as [st n]; simpl in *.
  destruct (n_accepting st) eqn:Ha; [|apply shrinks_err].
  apply shrinks_ok. rewrite length_drop.
  destruct n; [rewrite (H0 eq_refl) in Ha; discriminate | simpl; lia].
Qed.

(** The four parsers at fuel [f] on an input shorter than [f]. *)
Definition parsers_shrink (f : nat) : Prop :=
  (forall l, (length l < f)%nat -> shrinks l (parse_value f l)) /\
  (forall l, (length l < f)%nat -> shrinks l (parse_member f l)) /\
  (forall l acc, (length l < f)%nat -> shrinks l (parse_members f l acc)) /\
  (forall l acc, (length l < f)%nat -> shrinks l (parse_elements f l acc)).

(** The lengths that the parsers compare, gathered for [lia]. *)
Ltac json_lengths :=
  repeat match goal with
  | H : skip_ws ?l = _ |- _ => let H' := fresh in pose proof (skip_ws_length l) as H'; rewrite H in H'; simpl in H'; clear H
  | H : head_is _ _ = Some _ |- _ => apply head_is_length in H
  | H : strip_prefix _ _ = Some _ |- _ => apply strip_prefix_length in H; simpl in H
  | |- context [skip_ws ?l] =>
      lazymatch goal with
      | _ : (length (skip_ws l) <= length l)%nat |- _ => fail
      | _ => pose proof (skip_ws_length l)
      end
  | _ : context [skip_ws ?l] |- _ =>
      lazymatch goal with
      | _ : (length (skip_ws l) <= length l)%nat |- _ => fail
      | _ => pose proof (skip_ws_length l)
      end
  end.

(** Continue a [shrinks] goal through a call on a shorter input. *)
Ltac shrink_by H :=
  eapply shrinks_weaken; [|apply H]; json_lengths; simpl in *; lia.

Lemma parsers_terminate (f : nat) : parsers_shrink f.
Proof.
  induction f as [|f IH]; [split; [|split; [|split]]; intros; lia|].
  destruct IH as (IHv & IHm & IHms & IHes).
  split; [|split; [|split]].
  - intros l Hl. cbn [parse_value]. destruct (skip_ws l) as [|c r] eqn:Hs; [apply shrinks_err|].
    destruct (Ascii.eqb c "{").
    { destruct (head_is "}" (skip_ws r)) as [r'|] eqn:Hh; [apply shrinks_ok; json_lengths; simpl in *; lia|].
      apply shrinks_pbind; [shrink_by IHm|]. intros kv rest Hkv.
      destruct (IHm (skip_ws r) ltac:(json_lengths; simpl in *; lia)) as [_ Hm]. specialize (Hm _ _ Hkv).
      shrink_by IHms. }
    destruct (Ascii.eqb c "[").
    { destruct (head_is "]" (skip_ws r)) as [r'|] eqn:Hh; [apply shrinks_ok; json_lengths; simpl in *; lia|].
      apply shrinks_pbind; [shrink_by IHv|]. intros v rest Hv.
      destruct (IHv (skip_ws r) ltac:(json_lengths; simpl in *; lia)) as [_ Hm]. specialize (Hm _ _ Hv).
      shrink_by IHes. }
    destruct (Ascii.eqb c quote).
    { apply shrinks_pbind; [eapply shrinks_weaken; [|apply parse_chars_shrinks]; json_lengths; simpl in *; lia|].
      intros s rest Hc. destruct (parse_chars_shrinks r) as [_ Hm]. specialize (Hm _ _ Hc).
      apply shrinks_ok. json_lengths; simpl in *; lia. }
    destruct (strip_prefix (list_ascii_of_string "true") (c :: r)) as [rest|] eqn:Ht; [apply shrinks_ok; json_lengths; simpl in *; lia|].
    destruct (strip_prefix (list_ascii_of_string "false") (c :: r)) as [rest|] eqn:Hf; [apply shrinks_ok; json_lengths; simpl in *; lia|].
    destruct (strip_prefix (list_ascii_of_string "null") (c :: r)) as [rest|] eqn:Hn; [apply shrinks_ok; json_lengths; simpl in *; lia|].
    eapply shrinks_weaken; [|apply parse_number_shrinks]. json_lengths; simpl in *; lia.
  - intros [|c r] Hl; simpl; [apply shrinks_err|].
    destruct (Ascii.eqb c quote); [|apply shrinks_err].
    apply shrinks_pbind; [eapply shrinks_weaken; [|apply parse_chars_shrinks]; simpl; lia|].
    intros k rest Hc. destruct (parse_chars_shrinks r) as [_ Hm]. specialize (Hm _ _ Hc).
    destruct (head_is ":" (skip_ws rest)) as [rest'|] eqn:Hh; [|apply shrinks_err].
    apply shrinks_pbind; [shrink_by IHv|]. intros v rest'' Hv.
    destruct (IHv rest' ltac:(json_lengths; simpl in *; lia)) as [_ Hm']. specialize (Hm' _ _ Hv).
    apply shrinks_ok. json_lengths; simpl in *; lia.
  - intros l acc Hl. simpl. destruct (head_is "," (skip_ws l)) as [r|] eqn:Hh.
    + apply shrinks_pbind; [shrink_by IHm|]. intros kv rest Hkv.
      destruct (IHm (skip_ws r) ltac:(json_lengths; simpl in *; lia)) as [_ Hm]. specialize (Hm _ _ Hkv).
      shrink_by IHms.
    + destruct (head_is "}" (skip_ws l)) as [r|] eqn:Hh'; [|apply shrinks_err].
      apply shrinks_ok. json_lengths; simpl in *; lia.
  - intros l acc Hl. simpl. destruct (head_is "," (skip_ws l)) as [r|] eqn:Hh.
    + apply shrinks_pbind; [shrink_by IHv|]. intros v rest Hv.
      destruct (IHv r ltac:(json_lengths; simpl in *; lia)) as [_ Hm]. specialize (Hm _ _ Hv).
      shrink_by IHes.
    + destruct (head_is "]" (skip_ws l)) as [r|] eqn:Hh'; [|apply shrinks_err].
      apply shrinks_ok. json_lengths; simpl in *; lia.
Qed.

(** ** More fuel gives the same result *)

(** [r] is [r'] or ran out of fuel before it. *)
Definition approx {A : Type} (r r' : presult A) : Prop := r = POOT \/ r = r'.

Lemma approx_refl {A : Type} (r : presult A) : approx r r.
Proof. by right. Qed.

Lemma approx_pbind {A B : Type} (r r' : presult A) (k k' : A -> list ascii -> presult B) :
  approx r r' -> (forall a rest, approx (k a rest) (k' a rest)) -> approx (pbind r k) (pbind r' k').
Proof. intros [->| ->] Hk; [by left|]. destruct r' as [a rest| |]; simpl; [apply Hk | right..]; done. Qed.

Definition parsers_approx (f : nat) : Prop :=
  (forall l, approx (parse_value f l) (parse_value (S f) l)) /\
  (forall l, approx (parse_member f l) (parse_member (S f) l)) /\
  (forall l acc, approx (parse_members f l acc) (parse_members (S f) l acc)) /\
  (forall l acc, approx (parse_elements f l acc) (parse_elements (S f) l acc)).

(** The two sides unfold to the same matches; the calls inside are
    related by the induction hypothesis. *)
Ltac approx_step :=
  repeat match goal with
  | |- approx ?r ?r => apply approx_refl
  | |- approx (pbind _ _) (pbind _ _) => apply approx_pbind; [first [apply approx_refl | solve [eauto]] | intros ??]
  | |- approx (match ?x with _ => _ end) (match ?x with _ => _ end) => destruct x
  | |- approx _ _ => solve [eauto]
  end.

Lemma parsers_fuel_mono (f : nat) : parsers_approx f.
Proof.
  induction f as [|f IH]; [split; [|split; [|split]]; intros; by left|].
  destruct IH as (IHv & IHm & IHms & IHes).
  split; [|split; [|split]]; intros;
    match goal with
    | |- approx ?a ?b =>
        let a' := eval cbn [parse_value parse_member parse_members parse_elements] in a in change (approx a' b)
    end;
    remember (S f) as g eqn:Hg; cbn [parse_value parse_member parse_members parse_elements]; subst g;
    approx_step.
Qed.

Lemma approx_trans {A : Type} (r1 r2 r3 : presult A) : approx r1 r2 -> approx r2 r3 -> approx r1 r3.
Proof. intros [H1 | H1] H; subst r1; [by left | done]. Qed.

Lemma parse_value_fuel_le (f f' : nat) (l : list ascii) :
  (f <= f')%nat -> approx (parse_value f l) (parse_value f' l).
Proof.
  induction 1 as [|f' _ IH]; [apply approx_refl|].
  eapply approx_trans; [exact IH | apply (parsers_fuel_mono f')].
Qed.

Lemma parse_value_fuel_enough (l : list ascii) (f : nat) :
  (length l < f)%nat -> parse_value f l <> POOT /\ parse_value f l = parse_value (S (length l)) l.
Proof.
  intros Hf. destruct (proj1 (parsers_terminate f) l Hf) as [Hnt _]. split; [exact Hnt|].
  destruct (proj1 (parsers_terminate (S (length l))) l ltac:(lia)) as [Hnt' _].
  destruct (parse_value_fuel_le (S (length l)) f l ltac:(lia)) as [H|H]; congruence.
Qed.

(** C11: termination.  The parse of [response.json()] never runs out
    of fuel: on any body, a fuel above its length gives a result (a
    value with the rest of the body, or a syntax error), the same for
    every such fuel, and it is the result of [response.json()]; so the
    fuel [1 + length] of [JSON_parse] is enough and no body is rejected
    for want of fuel. *)
Theorem parse_value_terminates (r : response) (f : nat) :
  (length (list_ascii_of_string (body r)) < f)%nat ->
  parse_value f (list_ascii_of_string (body r)) <> POOT /\ response_json r = JSON_parse_fuel f (body r).
Proof.
  intros Hf. destruct (parse_value_fuel_enough _ f Hf) as [Hnt Heq]. split; [exact Hnt|].
  unfold response_json, JSON_parse, JSON_parse_fuel. by rewrite Heq.
Qed.

Lemma parse_value_terminates_witness :
  (length (list_ascii_of_string (body {| status := 200; body := "[1,{}]" |})) < 100)%nat /\
  parse_value 100 (list_ascii_of_string "[1,{}]") <> POOT /\
  response_json {| status := 200; body := "[1,{}]" |} = JSON_parse_fuel 100 "[1,{}]".
Proof.
  assert (H : (length (list_ascii_of_string (body {| status := 200; body := "[1,{}]" |})) < 100)%nat)
    by (simpl; lia).
  exact (conj H (parse_value_terminates {| status := 200; body := "[1,{}]" |} 100 H)).
Defined.

(** ** The automaton accepts every printed finite number *)

(** The states reached along a word, if the automaton never stops. *)
Fixpoint nrun (st : nstate) (w : list ascii) : option nstate :=
  match w with
  | [] => Some st
  | c :: w' => match nstep st c with Some st' => nrun st' w' | None => None end
  end.

(** The characters after which no number continues. *)
Definition value_end (c : ascii) : bool :=
  json_ws c || Ascii.eqb c "," || Ascii.eqb c "]" || Ascii.eqb c "}".

Definition ends_value (r : list ascii) : bool :=
  match r with [] => true | c :: _ => value_end c end.

Lemma value_end_stops (c : ascii) (st : nstate) : value_end c = true -> nstep st c = None.
Proof. destruct c as [[] [] [] [] [] [] [] []]; try discriminate; by destruct st. Qed.

Lemma nscan_run (st st' : nstate) (w r : list ascii) :
  nrun st w = Some st' -> ends_value r = true -> nscan st (w ++ r) = (st', length w).
Proof.
  revert st. induction w as [|c w IH]; intros st; simpl.
  - intros [= <-]. destruct r as [|c r]; [done|]. simpl. intros Hc. by rewrite (value_end_stops c st Hc).
  - destruct (nstep st c) as [st1|]; [|done]. intros Hw Hr. by rewrite (IH st1 Hw Hr).
Qed.

Lemma nrun_app (st : nstate) (a b : list ascii) :
  nrun st (a ++ b) = match nrun st a with Some s => nrun s b | None => None end.
Proof.
  revert st. induction a as [|c a IH]; intros st; simpl; [done|].
  destruct (nstep st c); [apply IH | done].
Qed.

(** A state that loops on digits. *)
Definition digit_loop (st : nstate) : bool :=
  match st with NInt | NFrac | NExpDigits => true | _ => false end.

(** Where a digit leads from each state that reads one. *)
Definition after_digit (st : nstate) (d : Z) : option nstate :=
  match st with
  | NStart | NMinus => Some (if (d =? 0)%Z then NZero else NInt)
  | NInt => Some NInt
  | NDot | NFrac => Some NFrac
  | NExp | NExpSign | NExpDigits => Some NExpDigits
  | NZero => None
  end.

Lemma nstep_digit (st : nstate) (d : Z) : is_digit d -> nstep st (digit_char d) = after_digit st d.
Proof. intros Hd. digit_cases Hd; by destruct st. Qed.

Lemma nrun_digits (st : nstate) (ds : list Z) :
  digit_loop st = true -> Forall is_digit ds -> nrun st (map digit_char ds) = Some st.
Proof.
  intros Hst Hds. induction Hds as [|d ds Hd _ IH]; [done|]. simpl.
  rewrite nstep_digit by exact Hd. by destruct st.
Qed.

Lemma is_digit_char_digit (d : Z) : is_digit d -> is_digit_char (digit_char d) = true.
Proof. intros Hd. by digit_cases Hd. Qed.

Lemma nrun_digits_app (st : nstate) (ds : list Z) (r : list ascii) :
  digit_loop st = true -> Forall is_digit ds -> nrun st (map digit_char ds ++ r) = nrun st r.
Proof. intros Hst Hds. by rewrite nrun_app, nrun_digits. Qed.

(** A nonempty run of digits after a point or an exponent sign. *)
Lemma nrun_digits_after (st : nstate) (d : Z) (ds : list Z) :
  (st = NDot \/ st = NExpSign \/ st = NExp) -> Forall is_digit (d :: ds) ->
  nrun st (map digit_char (d :: ds)) = Some (if decide (st = NDot) then NFrac else NExpDigits).
Proof.
  intros Hst Hds. inversion Hds as [|? ? Hd Hds']; subst. simpl. rewrite nstep_digit by exact Hd.
  destruct Hst as [->|[->| ->]]; simpl; by apply nrun_digits.
Qed.

(** A leading digit that is not 0, then more digits. *)
Lemma nrun_lead (st : nstate) (d : Z) (ds : list Z) :
  (st = NStart \/ st = NMinus) -> Forall is_digit (d :: ds) -> d <> 0%Z ->
  nrun st (map digit_char (d :: ds)) = Some NInt.
Proof.
  intros Hst Hds Hd0. inversion Hds as [|? ? Hd Hds']; subst. simpl. rewrite nstep_digit by exact Hd.
  destruct Hst as [->| ->]; simpl; replace (d =? 0)%Z with false by lia; by apply nrun_digits.
Qed.

Lemma nat_digit_chars_shape (z : Z) :
  exists x xs, nat_digit_chars z = map digit_char (x :: xs) /\ Forall is_digit (x :: xs).
Proof.
  destruct z as [|p|p]; [exists 0%Z, []; split; [done | auto with weather]| |exists 0%Z, []; split; [done | auto with weather]].
  simpl. pose proof (lsd_digits_digits (Pos.size_nat p) (Zpos p)) as Hd.
  unfold pos_digits_lsd. destruct (rev (lsd_digits (Pos.size_nat p) (Zpos p))) as [|x xs] eqn:E.
  - exfalso. apply (f_equal (@length Z)) in E. rewrite length_rev in E.
    destruct p; simpl in E; discriminate.
  - exists x, xs. split; [done|]. rewrite <- E. by apply Forall_rev.
Qed.

(** The exponent part [e+x] or [e-x] after the digits. *)
Lemma nrun_exponent (st : nstate) (x : Z) :
  (st = NInt \/ st = NFrac) ->
  nrun st ("e"%char :: (if (0 <=? x)%Z then "+"%char else "-"%char) :: nat_digit_chars (Z.abs x)) = Some NExpDigits.
Proof.
  intros Hst. destruct (nat_digit_chars_shape (Z.abs x)) as (y & ys & -> & Hy).
  assert (Hrun : nrun NExpSign (map digit_char (y :: ys)) = Some NExpDigits)
    by (rewrite nrun_digits_after; auto).
  destruct Hst as [-> | ->]; destruct (0 <=? x)%Z; exact Hrun.
Qed.

Lemma format_positive_run (st : nstate) (d : Z) (t : list Z) (n : Z) :
  (st = NStart \/ st = NMinus) -> Forall is_digit (d :: t) -> d <> 0%Z ->
  exists st', nrun st (format_positive (d :: t) n) = Some st' /\ n_accepting st' = true.
Proof.
  intros Hst Hs Hd0. pose proof (Forall_inv Hs) as Hd. pose proof (Forall_inv_tail Hs) as Ht.
  unfold format_positive.
  destruct (_ && _)%bool eqn:EA; zbool_hyps; [|destruct (_ && _)%bool eqn:EB; zbool_hyps;
    [|destruct (_ && _)%bool eqn:EC; zbool_hyps]].
  - exists NInt. rewrite zeros_chars, <- map_app. split; [|done].
    assert (Hall : Forall is_digit ((d :: t) ++ repeat 0%Z (Z.to_nat (n - Z.of_nat (length (d :: t))))))
      by auto with weather.
    apply nrun_lead; [done | exact Hall | done].
  - exists NFrac. split; [|done]. rewrite firstn_map, skipn_map, nrun_app.
    simpl length in *. destruct (Z.to_nat n) as [|m] eqn:Hm; [lia|].
    change (take (S m) (d :: t)) with (d :: take m t).
    rewrite nrun_lead by auto with weather. simpl.
    destruct (drop m t) as [|x xs] eqn:Ed.
    + exfalso. apply (f_equal (@length Z)) in Ed. rewrite length_drop in Ed. simpl in Ed. lia.
    + rewrite nrun_digits_after by (auto || (rewrite <- Ed; auto with weather)). done.
  - exists NFrac. split; [|done].
    change (["0"%char; "."%char] ++ ?x) with ("0"%char :: "."%char :: x).
    rewrite zeros_chars, <- map_app.
    destruct (repeat 0%Z (Z.to_nat (- n)) ++ d :: t) as [|x xs] eqn:Ez; [by destruct (repeat _ _)|].
    assert (Hx : Forall is_digit (x :: xs)) by (rewrite <- Ez; auto with weather).
    pose proof (nrun_digits_after NDot x xs (or_introl eq_refl) Hx) as Hrun.
    destruct Hst as [-> | ->]; exact Hrun.
  - exists NExpDigits. split; [|done].
    destruct t as [|d' t]; simpl.
    + pose proof (nrun_lead st d [] Hst Hs Hd0) as Hl. simpl in Hl.
      destruct (nstep st (digit_char d)); [|done]. apply nrun_exponent. left; congruence.
    + pose proof (nrun_lead st d [] Hst (Forall_cons _ _ _ Hd (Forall_nil _)) Hd0) as Hl. simpl in Hl.
      destruct (nstep st (digit_char d)) as [s1|]; [|done]. injection Hl as ->. simpl.
      rewrite (is_digit_char_digit d' (Forall_inv Ht)), nrun_digits_app by (reflexivity || exact (Forall_inv_tail Ht)).
      apply nrun_exponent. by right.
Qed.

Lemma format_pos_run (st : nstate) (p : positive) (e : Z) :
  (st = NStart \/ st = NMinus) ->
  exists st', nrun st (format_pos p e) = Some st' /\ n_accepting st' = true.
Proof.
  intros Hst. unfold format_pos. pose proof (strip_canonical p) as (Hd & [Hnil | (l & d & Hl & Hd0)] & _).
  - destruct (strip_canonical p) as (_ & _ & d & t & Ht & _). rewrite Hnil in Ht. discriminate.
  - destruct (strip_zeros (pos_digits_lsd p)) as [s z]. simpl in Hd, Hl. subst s.
    rewrite rev_unit. apply format_positive_run; [done | | done].
    rewrite <- rev_unit. by apply Forall_rev.
Qed.

(** The text of a finite number is one number token of the grammar. *)
Lemma number_text_run (m e : Z) :
  exists st', nrun NStart (list_ascii_of_string (num_to_string (Fin m e))) = Some st' /\ n_accepting st' = true.
Proof.
  destruct m as [|p|p]; simpl num_to_string; [by exists NZero| |];
    rewrite ?list_ascii_of_string_of_list_ascii.
  - by apply format_pos_run; left.
  - simpl. rewrite list_ascii_of_string_of_list_ascii. by apply format_pos_run; right.
Qed.

Lemma parse_number_text (m e : Z) (r : list ascii) :
  ends_value r = true ->
  parse_number (list_ascii_of_string (num_to_string (Fin m e)) ++ r) =
  POk (Num (string_to_number (num_to_string (Fin m e)))) r.
Proof.
  intros Hr. unfold parse_number. destruct (number_text_run m e) as (st & Hrun & Hacc).
  rewrite (nscan_run _ _ _ _ Hrun Hr), Hacc, take_app_length, drop_app_length.
  by rewrite string_of_list_ascii_of_string.
Qed.

(** A value that starts like a number is read as one. *)
Lemma parse_value_number_start (f : nat) (c : ascii) (w : list ascii) :
  nstep NStart c <> None -> parse_value (S f) (c :: w) = parse_number (c :: w).
Proof. destruct c as [[] [] [] [] [] [] [] []]; intros H; (reflexivity || by contradict H). Qed.

(** ** Strings read back *)

Lemma parse_quote_char (c : ascii) (r : list ascii) :
  parse_chars (quote_char c ++ r) = pbind (parse_chars r) (fun s rest => POk (c :: s) rest).
Proof. destruct c as [[] [] [] [] [] [] [] []]; reflexivity. Qed.

Lemma parse_quoted (cs r : list ascii) :
  parse_chars (flat_map quote_char cs ++ quote :: r) = POk cs r.
Proof. induction cs as [|c cs IH]; [done|]. simpl. by rewrite <- app_assoc, parse_quote_char, IH. Qed.

(** ** Values read back *)

(** The text of a value, [null] where [JSON.stringify] writes nothing. *)
Definition text_of (v : value) : list ascii :=
  match json_text v with Some t => t | None => null_text end.

Definition member_text (kv : string * value) : list ascii :=
  quote_json (fst kv) ++ ":"%char :: text_of (snd kv).

Lemma json_text_some (v : value) : is_json v = true -> json_text v = Some (text_of v).
Proof. unfold text_of. by destruct v. Qed.

Lemma json_text_obj (fs : list (string * value)) :
  Forall (fun kv => is_json (snd kv) = true) fs ->
  json_text (Obj fs) = Some ("{"%char :: join_with ","%char (map member_text fs) ++ ["}"%char]).
Proof.
  intros Hfs. simpl.
  match goal with |- context [join_with _ (?F fs)] => assert (HF : F fs = map member_text fs) end.
  { induction Hfs as [|[k e] fs He _ IH]; [done|]. simpl in *. by rewrite (json_text_some e He), IH. }
  by rewrite HF.
Qed.

Lemma join_with_cons (sep : ascii) (t : list ascii) (ts : list (list ascii)) :
  join_with sep (t :: ts) = t ++ flat_map (fun t' => sep :: t') ts.
Proof.
  revert t. induction ts as [|t' ts IH]; intros t; [simpl; by rewrite app_nil_r|].
  change (join_with sep (t :: t' :: ts)) with (t ++ sep :: join_with sep (t' :: ts)).
  by rewrite IH.
Qed.

Lemma value_end_false (c : ascii) :
  value_end c = false ->
  json_ws c = false /\ Ascii.eqb c "," = false /\ Ascii.eqb c "]" = false /\ Ascii.eqb c "}" = false.
Proof. unfold value_end. intros H. repeat (apply orb_false_iff in H as [H ?]). done. Qed.

Lemma number_text_start (m e : Z) :
  exists c w, list_ascii_of_string (num_to_string (Fin m e)) = c :: w /\ nstep NStart c <> None.
Proof.
  destruct (number_text_run m e) as (st & Hrun & Hacc).
  destruct (list_ascii_of_string (num_to_string (Fin m e))) as [|c w];
    [simpl in Hrun; injection Hrun as <-; discriminate|].
  exists c, w. split; [done|]. cbn [nrun] in Hrun. by destruct (nstep NStart c).
Qed.

(** Every text starts with a character that does not end a value. *)
Lemma text_of_head (v : value) : exists c w, text_of v = c :: w /\ value_end c = false.
Proof.
  destruct v as [| |[]|[m e| | |]|s|es|fs|name]; unfold text_of; cbn [json_text];
    try (eexists _, _; split; [reflexivity | reflexivity]).
  destruct (number_text_start m e) as (c & w & -> & Hc). exists c, w. split; [done|].
  destruct (value_end c) eqn:Hv; [|done]. by rewrite (value_end_stops c NStart Hv) in Hc.
Qed.

(** One step of each parser on the text it expects. *)
Lemma parse_value_arr (f : nat) (c : ascii) (w : list ascii) :
  value_end c = false ->
  parse_value (S f) ("["%char :: c :: w) = pbind (parse_value f (c :: w)) (fun v rest => parse_elements f rest [v]).
Proof.
  intros Hc. destruct (value_end_false c Hc) as (Hws & _ & Hb & _).
  assert (Hs : skip_ws (c :: w) = c :: w) by (cbn [skip_ws]; by rewrite Hws).
  assert (Hh : head_is "]" (c :: w) = None) by (cbn [head_is]; by rewrite Hb).
  change (parse_value (S f) ("["%char :: c :: w)) with
    (match head_is "]" (skip_ws (c :: w)) with
     | Some r' => POk (Arr []) r'
     | None => pbind (parse_value f (skip_ws (c :: w))) (fun v rest => parse_elements f rest [v])
     end).
  by rewrite Hs, Hh.
Qed.

Lemma parse_value_obj (f : nat) (w : list ascii) :
  parse_value (S f) ("{"%char :: quote :: w) = pbind (parse_member f (quote :: w)) (fun kv rest => parse_members f rest [kv]).
Proof. reflexivity. Qed.

Lemma parse_elements_comma (f : nat) (w : list ascii) (acc : list value) :
  parse_elements (S f) (","%char :: w) acc = pbind (parse_value f w) (fun v rest => parse_elements f rest (acc ++ [v])).
Proof. reflexivity. Qed.

Lemma parse_members_comma (f : nat) (w : list ascii) (acc : list (string * value)) :
  parse_members (S f) (","%char :: quote :: w) acc =
  pbind (parse_member f (quote :: w)) (fun kv rest => parse_members f rest (define_member acc kv)).
Proof. reflexivity. Qed.

Lemma parse_member_text (f : nat) (cs w : list ascii) :
  parse_member (S f) (quote :: flat_map quote_char cs ++ quote :: ":"%char :: w) =
  pbind (parse_value f w) (fun v rest => POk (string_of_list_ascii cs, v) rest).
Proof. cbn [parse_member]. simpl Ascii.eqb. cbv iota. by rewrite parse_quoted. Qed.

Lemma parse_value_string (f : nat) (s : string) (r : list ascii) :
  parse_value (S f) (quote_json s ++ r) = POk (Str s) r.
Proof.
  unfold quote_json. rewrite <- app_comm_cons, <- app_assoc.
  change (parse_value (S f) (quote :: ?x)) with (pbind (parse_chars x) (fun s rest => POk (Str (string_of_list_ascii s)) rest)).
  cbn [app]. rewrite parse_quoted. cbn [pbind]. by rewrite string_of_list_ascii_of_string.
Qed.

(** [CreateDataProperty] of a key not yet in the object appends it. *)
Lemma define_member_fresh (acc : list (string * value)) (kv : string * value) :
  fst kv ∉ map fst acc -> define_member acc kv = acc ++ [kv].
Proof.
  intros Hk. unfold define_member.
  assert (He : existsb (fun p => String.eqb (fst p) (fst kv)) acc = false).
  { apply not_true_iff_false. rewrite existsb_exists. intros ([k v] & Hin & Heq).
    apply String.eqb_eq in Heq. simpl in Heq. subst k. apply Hk. apply list_elem_of_In, in_map_iff.
    by exists (fst kv, v). }
  by rewrite ?He.
Qed.

Lemma json_wf_arr (es : list value) : json_wf (Arr es) = true -> Forall (fun e => json_wf e = true) es.
Proof.
  unfold json_wf. simpl. rewrite andb_true_iff, !forallb_forall. intros [H1 H2].
  apply Forall_forall. intros e He. by rewrite H1, H2.
Qed.

Lemma json_wf_obj (fs : list (string * value)) :
  json_wf (Obj fs) = true -> NoDup (map fst fs) /\ Forall (fun kv => json_wf (snd kv) = true) fs.
Proof.
  unfold json_wf. simpl. rewrite !andb_true_iff, !forallb_forall, bool_decide_eq_true.
  intros [H1 [H2 H3]]. split; [done|]. apply Forall_forall. intros kv Hkv. by rewrite H1, H3.
Qed.

(** The text of [v], followed by [r], parses to the same value with [r]
    left, at any fuel above the length of the text. *)
Definition reads_back (v : value) : Prop :=
  forall f r, (length (text_of v) < f)%nat -> ends_value r = true ->
  exists v', parse_value f (text_of v ++ r) = POk v' r /\ json_eq v v'.

Lemma ends_value_sep (ts : list (list ascii)) (close : ascii) (r : list ascii) :
  value_end close = true -> ends_value (flat_map (fun t => ","%char :: t) ts ++ close :: r) = true.
Proof. by destruct ts. Qed.

Lemma parse_elements_text (es : list value) :
  Forall reads_back es -> forall f acc r,
  (length (flat_map (fun t => ","%char :: t) (map text_of es)) < f)%nat ->
  exists vs, parse_elements f (flat_map (fun t => ","%char :: t) (map text_of es) ++ "]"%char :: r) acc
             = POk (Arr (acc ++ vs)) r /\ Forall2 json_eq es vs.
Proof.
  induction 1 as [|e es He _ IH]; intros [|f] acc r Hf; try (simpl in Hf; lia).
  - exists []. rewrite app_nil_r. by split.
  - simpl in Hf |- *. rewrite length_app in Hf. rewrite <- app_assoc.
    destruct (He f (flat_map (fun t => ","%char :: t) (map text_of es) ++ "]"%char :: r)) as (v' & Hv & Heq);
      [lia | by apply ends_value_sep|].
    rewrite Hv. cbn [pbind]. destruct (IH f (acc ++ [v']) r) as (vs & Hvs & Hall); [lia|].
    exists (v' :: vs). rewrite Hvs, <- app_assoc. split; [done | by constructor].
Qed.

Lemma parse_members_text (fs : list (string * value)) :
  Forall (fun kv => reads_back (snd kv)) fs -> forall f acc r,
  NoDup (map fst acc ++ map fst fs) ->
  (length (flat_map (fun t => ","%char :: t) (map member_text fs)) < f)%nat ->
  exists kvs, parse_members f (flat_map (fun t => ","%char :: t) (map member_text fs) ++ "}"%char :: r) acc
              = POk (Obj (acc ++ kvs)) r /\
              Forall2 (fun kv kv' => fst kv = fst kv' /\ json_eq (snd kv) (snd kv')) fs kvs.
Proof.
  induction 1 as [|[k e] fs He _ IH]; intros [|f] acc r Hnd Hf; try (simpl in Hf; lia).
  - exists []. rewrite app_nil_r. by split.
  - set (rest := flat_map (fun t => ","%char :: t) (map member_text fs) ++ "}"%char :: r).
    assert (Htext : flat_map (fun t => ","%char :: t) (map member_text ((k, e) :: fs)) ++ "}"%char :: r =
                    ","%char :: quote :: flat_map quote_char (list_ascii_of_string k) ++ quote :: ":"%char :: text_of e ++ rest)
      by (unfold rest, member_text, quote_json; simpl; by rewrite <- !app_assoc).
    assert (Hlen : length (flat_map (fun t => ","%char :: t) (map member_text ((k, e) :: fs))) =
                   (4 + length (flat_map quote_char (list_ascii_of_string k)) + length (text_of e) +
                    length (flat_map (fun t => ","%char :: t) (map member_text fs)))%nat)
      by (unfold member_text, quote_json; simpl; rewrite !length_app; simpl; lia).
    rewrite Htext, parse_members_comma. destruct f as [|f]; [lia|]. rewrite parse_member_text.
    simpl in He.
    destruct (He f rest) as (v' & Hv & Heq); [lia | by apply ends_value_sep|].
    rewrite Hv. cbn [pbind]. rewrite string_of_list_ascii_of_string.
    rewrite define_member_fresh
      by (simpl; intros Hin; apply stdpp.list_relations.list.NoDup_app in Hnd as (_ & Hdis & _);
          apply (Hdis k Hin), list_elem_of_here).
    destruct (IH (S f) (acc ++ [(k, v')]) r) as (kvs & Hkvs & Hall);
      [by rewrite map_app, <- app_assoc | lia|]. unfold rest.
    exists ((k, v') :: kvs). rewrite Hkvs, <- app_assoc. split; [done | by constructor].
Qed.

Lemma text_of_arr (es : list value) :
  text_of (Arr es) = "["%char :: join_with ","%char (map text_of es) ++ ["]"%char].
Proof. reflexivity. Qed.

Lemma text_of_obj (fs : list (string * value)) :
  Forall (fun kv => is_json (snd kv) = true) fs ->
  text_of (Obj fs) = "{"%char :: join_with ","%char (map member_text fs) ++ ["}"%char].
Proof. intros H. unfold text_of at 1. by rewrite json_text_obj. Qed.

Lemma wf_is_json (v : value) : json_wf v = true -> is_json v = true.
Proof. unfold json_wf. by rewrite andb_true_iff; intros []. Qed.

Lemma reads_back_arr (es : list value) : Forall reads_back es -> reads_back (Arr es).
Proof.
  intros Hes [|f] r Hf Hr; [simpl in Hf; lia|]. rewrite text_of_arr in Hf |- *.
  destruct es as [|e es]; [exists (Arr []); split; [done | by do 2 constructor]|].
  inversion Hes as [|? ? He Hes']; subst.
  cbn [map] in Hf |- *. rewrite join_with_cons in Hf |- *.
  cbn [length] in Hf. rewrite !length_app in Hf. cbn [length] in Hf.
  destruct (text_of_head e) as (c & w & Hcw & Hc).
  set (rest := flat_map (fun t => ","%char :: t) (map text_of es) ++ "]"%char :: r).
  assert (Htext : ("["%char :: (text_of e ++ flat_map (fun t => ","%char :: t) (map text_of es)) ++ ["]"%char]) ++ r
                  = "["%char :: c :: w ++ rest) by (unfold rest; rewrite Hcw; simpl; by rewrite <- !app_assoc).
  rewrite Htext, parse_value_arr by exact Hc.
  destruct (He f rest) as (v' & Hv & Heq); [lia | by apply ends_value_sep|].
  rewrite Hcw in Hv. simpl in Hv. rewrite Hv. cbn [pbind].
  destruct (parse_elements_text es Hes' f [v'] r) as (vs & Hvs & Hall); [lia|].
  exists (Arr (v' :: vs)). split; [exact Hvs | by do 2 constructor].
Qed.

Lemma reads_back_obj (fs : list (string * value)) :
  NoDup (map fst fs) -> Forall (fun kv => is_json (snd kv) = true) fs ->
  Forall (fun kv => reads_back (snd kv)) fs -> reads_back (Obj fs).
Proof.
  intros Hnd Hjs Hfs [|f] r Hf Hr; [simpl in Hf; lia|]. rewrite text_of_obj in Hf |- * by exact Hjs.
  destruct fs as [|[k e] fs]; [exists (Obj []); split; [done | by do 2 constructor]|].
  inversion Hfs as [|? ? He Hfs']; subst. simpl in He.
  set (rest := flat_map (fun t => ","%char :: t) (map member_text fs) ++ "}"%char :: r).
  assert (Htext : ("{"%char :: join_with ","%char (map member_text ((k, e) :: fs)) ++ ["}"%char]) ++ r =
                  "{"%char :: quote :: flat_map quote_char (list_ascii_of_string k) ++ quote :: ":"%char :: text_of e ++ rest)
    by (unfold rest, member_text, quote_json; cbn [map]; rewrite join_with_cons; simpl; by rewrite <- !app_assoc).
  assert (Hlen : length ("{"%char :: join_with ","%char (map member_text ((k, e) :: fs)) ++ ["}"%char]) =
                 (5 + length (flat_map quote_char (list_ascii_of_string k)) + length (text_of e) +
                  length (flat_map (fun t => ","%char :: t) (map member_text fs)))%nat)
    by (unfold member_text, quote_json; cbn [map]; rewrite join_with_cons; simpl;
        repeat (rewrite ?length_app; simpl); lia).
  rewrite Htext, parse_value_obj. destruct f as [|f]; [lia|]. rewrite parse_member_text.
  destruct (He f rest) as (v' & Hv & Heq); [lia | by apply ends_value_sep|].
  rewrite Hv. cbn [pbind]. rewrite string_of_list_ascii_of_string.
  destruct (parse_members_text fs Hfs' (S f) [(k, v')] r) as (kvs & Hkvs & Hall); [done | lia|].
  exists (Obj ((k, v') :: kvs)). split; [exact Hkvs | by do 2 constructor].
Qed.

Lemma json_reads_back (v : value) : json_wf v = true -> reads_back v.
Proof.
  induction v as [| |b|x|s|es IH|fs IH|name] using value_ind'; intros Hwf; try discriminate Hwf.
  - intros [|f] r Hf _; [simpl in Hf; lia|]. exists Null. split; [done | apply json_eq_null].
  - intros [|f] r Hf _; [simpl in Hf; lia|]. exists (Bool b). split; [by destruct b | apply json_eq_bool].
  - destruct x as [m e| | |]; try discriminate Hwf. intros [|f] r Hf Hr; [simpl in Hf; lia|].
    unfold text_of. cbn [json_text]. cbv iota.
    destruct (number_text_start m e) as (c & w & Hcw & Hc).
    rewrite Hcw, <- app_comm_cons, parse_value_number_start, app_comm_cons, <- Hcw, parse_number_text by done.
    eexists. split; [reflexivity|]. constructor. symmetry. apply parse_printed_number.
  - intros [|f] r Hf _; [simpl in Hf; lia|]. exists (Str s). split; [apply parse_value_string | apply json_eq_str].
  - apply reads_back_arr, (Forall_mp _ _ _ IH), json_wf_arr, Hwf.
  - destruct (json_wf_obj fs Hwf) as [Hnd Hall]. apply reads_back_obj; [done | |].
    + eapply Forall_impl; [|exact Hall]. intros kv. apply wf_is_json.
    + exact (Forall_mp _ _ _ IH Hall).
Qed.

(** ** [JSON.parse] of [JSON.stringify] *)

Lemma parse_stringified (v : value) (text : string) :
  json_wf v = true -> JSON_stringify v = Some text -> exists v', JSON_parse text = Normal v' /\ json_eq v v'.
Proof.
  intros Hwf Hs. unfold JSON_stringify in Hs. rewrite (json_text_some v (wf_is_json v Hwf)) in Hs.
  injection Hs as <-. unfold JSON_parse, JSON_parse_fuel. rewrite list_ascii_of_string_of_list_ascii.
  destruct (json_reads_back v Hwf (S (length (text_of v))) [] ltac:(lia) eq_refl) as (v' & Hv & Heq).
  rewrite app_nil_r in Hv. rewrite Hv. by exists v'.
Qed.

Lemma JSON_parse_bad_start (c : ascii) (s : string) :
  json_ws c = false -> value_start c = false -> JSON_parse (String c s) = Throw syntax_error.
Proof. destruct c as [[] [] [] [] [] [] [] []]; intros H1 H2; try discriminate; reflexivity. Qed.

(** C10: roundtrip.  [response.json()] reads back what [JSON.stringify]
    writes: for a JSON value (finite numbers, no [undefined] or
    function, distinct keys in each object), a response whose body is
    the text of [v], whatever its status, parses to a value with the
    same structure, the same keys in the same order, the same strings
    and numbers of the same mathematical value. *)
Theorem json_stringify_roundtrip (v : value) (st : Z) (text : string) :
  json_wf v = true -> JSON_stringify v = Some text ->
  exists v', response_json {| status := st; body := text |} = Normal v' /\ json_eq v v'.
Proof. apply parse_stringified. Qed.

Definition sample_payload : value :=
  Obj [("weather", Obj [("temperature", Num (Fin 215 (-1))); ("condition", Str "Rain")]);
       ("location", Obj [("city", Str "Pokhara")]); ("alerts", Arr [Null; Bool false; Num (Fin (-3) 25)])].

(** Its text, computed: the object written without spaces, [21.5] for
    the temperature and [-3e+25] in the array. *)
Definition sample_text : string :=
  Eval vm_compute in match JSON_stringify sample_payload with Some t => t | None => EmptyString end.

Lemma json_stringify_roundtrip_witness :
  json_wf sample_payload = true /\ JSON_stringify sample_payload = Some sample_text /\
  exists v', response_json {| status := 200; body := sample_text |} = Normal v' /\ json_eq sample_payload v'.
Proof.
  assert (H1 : json_wf sample_payload = true) by reflexivity.
  assert (H2 : JSON_stringify sample_payload = Some sample_text) by (vm_compute; reflexivity).
  exact (conj H1 (conj H2 (json_stringify_roundtrip _ 200 _ H1 H2))).
Defined.

(** C14: error.  A body whose first character cannot start a JSON
    text (an HTML error page starts with [<], a plain-text message with
    a letter) makes [JSON.parse] throw a SyntaxError, and so makes
    [response.json()] reject, whatever the status. *)
Theorem json_parse_rejects_non_json (st : Z) (c : ascii) (s : string) :
  json_ws c = false -> value_start c = false ->
  response_json {| status := st; body := String c s |} = Throw syntax_error.
Proof. apply JSON_parse_bad_start. Qed.

Lemma json_parse_rejects_non_json_witness :
  json_ws "<" = false /\ value_start "<" = false /\
  response_json {| status := 502; body := String "<" "html><body>502 Bad Gateway</body></html>" |} = Throw syntax_error.
Proof.
  assert (H1 : json_ws "<" = false) by reflexivity.
  assert (H2 : value_start "<" = false) by reflexivity.
  exact (conj H1 (conj H2 (json_parse_rejects_non_json 502 _ _ H1 H2))).
Defined.

(** ** Parsed objects have distinct keys *)

Lemma pbind_ok {A B : Type} (r : presult A) (k : A -> list ascii -> presult B) (b : B) (rest : list ascii) :
  pbind r k = POk b rest -> exists a rest', r = POk a rest' /\ k a rest' = POk b rest.
Proof. destruct r as [a rest'| |]; simpl; [eauto | discriminate..]. Qed.

(** [CreateDataProperty] keeps the keys distinct and the members' values
    among the old ones and the new one. *)
Lemma define_member_keys (acc : list (string * value)) (kv : string * value) :
  NoDup (map fst acc) -> NoDup (map fst (define_member acc kv)).
Proof.
  intros Hnd. unfold define_member. destruct (existsb _ acc) eqn:He.
  - rewrite map_map. erewrite map_ext; [exact Hnd|]. intros [k v]. simpl. by destruct (String.eqb k (fst kv)).
  - rewrite map_app. apply stdpp.list_relations.list.NoDup_app. split; [done|]. split; [|apply NoDup_singleton].
    intros k Hk Hin. apply list_elem_of_singleton in Hin. subst k.
    apply list_elem_of_In, in_map_iff in Hk as ([k v] & Hk & Hin). simpl in Hk. subst k.
    apply not_true_iff_false in He. apply He, existsb_exists. exists (fst kv, v). split; [done|].
    apply String.eqb_refl.
Qed.

Lemma define_member_values (P : value -> Prop) (acc : list (string * value)) (kv : string * value) :
  Forall (fun p => P (snd p)) acc -> P (snd kv) -> Forall (fun p => P (snd p)) (define_member acc kv).
Proof.
  intros Hacc Hkv. unfold define_member. destruct (existsb _ acc).
  - apply Forall_map. eapply Forall_impl; [|exact Hacc]. intros [k v] Hv. simpl. by destruct (String.eqb k (fst kv)).
  - apply Forall_app. split; [done | by constructor].
Qed.

Lemma parse_number_num (l : list ascii) (v : value) (rest : list ascii) :
  parse_number l = POk v rest -> exists x, v = Num x.
Proof.
  unfold parse_number. destruct (nscan NStart l) as [st n]. destruct (n_accepting st); [|discriminate].
  intros [= <- _]. eauto.
Qed.

Lemma keys_distinct_obj (acc : list (string * value)) :
  NoDup (map fst acc) -> Forall (fun p => keys_distinct (snd p) = true) acc -> keys_distinct (Obj acc) = true.
Proof.
  intros Hnd Hall. simpl. apply andb_true_iff. split; [by apply bool_decide_eq_true|].
  apply forallb_forall. intros p Hp. by apply (proj1 (Forall_forall _ _) Hall).
Qed.

Lemma keys_distinct_arr (acc : list value) :
  Forall (fun e => keys_distinct e = true) acc -> keys_distinct (Arr acc) = true.
Proof. intros Hall. simpl. apply forallb_forall. intros e He. by apply (proj1 (Forall_forall _ _) Hall). Qed.

(** The four parsers at fuel [f] build objects with distinct keys. *)
Definition parsers_distinct (f : nat) : Prop :=
  (forall l v rest, parse_value f l = POk v rest -> keys_distinct v = true) /\
  (forall l kv rest, parse_member f l = POk kv rest -> keys_distinct (snd kv) = true) /\
  (forall l acc v rest, NoDup (map fst acc) -> Forall (fun p => keys_distinct (snd p) = true) acc ->
     parse_members f l acc = POk v rest -> keys_distinct v = true) /\
  (forall l acc v rest, Forall (fun e => keys_distinct e = true) acc ->
     parse_elements f l acc = POk v rest -> keys_distinct v = true).

(** Take a successful parse apart: the matches it went through and the
    successful calls inside it. *)
Ltac ok_cases H :=
  repeat match type of H with
  | pbind _ _ = POk _ _ => let a := fresh "a" in let r := fresh "r" in let H1 := fresh "Hcall" in
                           apply pbind_ok in H as (a & r & H1 & H)
  | context [match ?x with _ => _ end] => destruct x eqn:?
  | POk _ _ = POk _ _ => injection H as <- <-
  | PErr _ = POk _ _ => discriminate H
  end.

Lemma parsers_keep_keys_distinct (f : nat) : parsers_distinct f.
Proof.
  induction f as [|f IH]; [split; [|split; [|split]]; intros *; [discriminate..| |]; intros _; [intros _|]; discriminate|].
  destruct IH as (IHv & IHm & IHms & IHes).
  split; [|split; [|split]].
  - intros l v rest H. cbn [parse_value] in H. ok_cases H; try reflexivity.
    + eapply IHms; [| |exact H]; [simpl; apply NoDup_singleton | constructor; [by eapply IHm | constructor]].
    + eapply IHes; [|exact H]. constructor; [by eapply IHv | constructor].
    + destruct (parse_number_num _ _ _ H) as [x ->]. reflexivity.
  - intros l kv rest H. cbn [parse_member] in H. ok_cases H. by eapply IHv.
  - intros l acc v rest Hnd Hall H. cbn [parse_members] in H. ok_cases H; [|by apply keys_distinct_obj].
    eapply IHms; [| |exact H]; [by apply define_member_keys | apply (define_member_values (fun e => keys_distinct e = true)); [done | by eapply IHm]].
  - intros l acc v rest Hall H. cbn [parse_elements] in H. ok_cases H; [|by apply keys_distinct_arr].
    eapply IHes; [|exact H]. apply Forall_app; split; [done | constructor; [by eapply IHv | constructor]].
Qed.

(** C15: invariant.  Every value [response.json()] fulfils with has
    distinct keys in each of its objects, at every depth: a repeated
    key in the body overwrites the earlier member in place
    ([CreateDataProperty]), so a property read of the payload never
    depends on which of two members it finds. *)
Theorem response_json_keys_distinct (r : response) (v : value) :
  response_json r = Normal v -> keys_distinct v = true.
Proof.
  unfold response_json, JSON_parse, JSON_parse_fuel.
  destruct (parse_value _ _) as [v' rest| |] eqn:Hp; [|discriminate..].
  destruct (skip_ws rest); [|discriminate]. intros [= <-].
  exact (proj1 (parsers_keep_keys_distinct _) _ _ _ Hp).
Qed.

(** A body that repeats the key [a]: the text [{a:1,a:2}] with the keys
    quoted. *)
Definition repeated_key_body : string :=
  string_of_list_ascii ["{"; quote; "a"; quote; ":"; "1"; ","; quote; "a"; quote; ":"; "2"; "}"]%char.

Lemma response_json_keys_distinct_witness :
  response_json {| status := 200; body := repeated_key_body |} = Normal (Obj [("a", Num (Fin 2 0))]) /\
  keys_distinct (Obj [("a", Num (Fin 2 0))]) = true.
Proof.
  assert (H : response_json {| status := 200; body := repeated_key_body |} = Normal (Obj [("a", Num (Fin 2 0))]))
    by (vm_compute; reflexivity).
  exact (conj H (response_json_keys_distinct _ _ H)).
Defined.
