(* ===== verification/JsonGrammar.v ===== *)
(** * JsonGrammar: the grammar of ECMA-404 and the soundness of the parser

    [Json] defines [JSON.parse] as a program with fuel.  This file states
    what the program is meant to accept, without fuel and without the
    automaton: the grammar of ECMA-404 (white space, literals, numbers,
    strings with their escapes, arrays and objects) as inductive
    relations between a text and the value [JSON.parse] gives it.  A
    repeated key is the one place where the value is not read off the
    text alone: the members are gathered with [CreateDataProperty]
    ([Json.define_member]), as ES2023 25.5.1 evaluates the text.

    The theorem of the file is the refinement of the grammar by the
    parser: whenever [response.json()] fulfils, the body is a JSON text
    of the grammar followed by white space, and the value is the one
    the grammar assigns to it.  On the way, the number automaton of
    [Json] is shown to accept only numbers of the grammar. *)

From Stdlib Require Import QArith ZArith String Ascii List Lia.
From stdpp Require Import base strings list decidable.
From S2P Require Import Prelude JsNumber NumberRoundTrip JsValue Json.

(** ** Lexical grammar *)

(** ECMA-404 section 2: tab, line feed, carriage return, space. *)
Definition ws_char (c : ascii) : Prop := In (nat_of_ascii c) [9; 10; 13; 32]%nat.

Definition all_ws (ws : list ascii) : Prop := Forall ws_char ws.

Definition digit (c : ascii) : Prop := (48 <= nat_of_ascii c <= 57)%nat.

(** ECMA-404 section 8: [-]? int frac? exp?. *)
Inductive int_part : list ascii -> Prop :=
| int_zero : int_part ["0"%char]
| int_nonzero (d : ascii) (ds : list ascii) :
    digit d -> d <> "0"%char -> Forall digit ds -> int_part (d :: ds).

Inductive frac_part : list ascii -> Prop :=
| frac_none : frac_part []
| frac_some (ds : list ascii) : ds <> [] -> Forall digit ds -> frac_part ("."%char :: ds).

Inductive exp_sign : list ascii -> Prop :=
| sign_none : exp_sign []
| sign_plus : exp_sign ["+"%char]
| sign_minus : exp_sign ["-"%char].

Inductive exp_part : list ascii -> Prop :=
| exp_none : exp_part []
| exp_some (e : ascii) (sg ds : list ascii) :
    (e = "e"%char \/ e = "E"%char) -> exp_sign sg -> ds <> [] -> Forall digit ds ->
    exp_part (e :: sg ++ ds).

Definition number_token (w : list ascii) : Prop :=
  exists sg i fr ex, w = sg ++ i ++ fr ++ ex /\ (sg = [] \/ sg = ["-"%char]) /\
                     int_part i /\ frac_part fr /\ exp_part ex.

(** ECMA-404 section 9: the characters of a string between its quotes
    and the code units they stand for. *)
Definition escape_table : list (ascii * ascii) :=
  [(quote, quote); (backslash, backslash); ("/"%char, "/"%char); ("b"%char, "008"%char);
   ("f"%char, "012"%char); ("n"%char, "010"%char); ("r"%char, "013"%char); ("t"%char, "009"%char)].

Inductive string_chars : list ascii -> list ascii -> Prop :=
| sc_nil : string_chars [] []
| sc_plain (c : ascii) (b cs : list ascii) :
    c <> quote -> c <> backslash -> (32 <= nat_of_ascii c)%nat ->
    string_chars b cs -> string_chars (c :: b) (c :: cs)
| sc_escape (e c : ascii) (b cs : list ascii) :
    In (e, c) escape_table -> string_chars b cs -> string_chars (backslash :: e :: b) (c :: cs)
| sc_unicode (h1 h2 h3 h4 : ascii) (n : Z) (b cs : list ascii) :
    hex4_value h1 h2 h3 h4 = Some n -> (n < 256)%Z -> string_chars b cs ->
    string_chars (backslash :: "u"%char :: h1 :: h2 :: h3 :: h4 :: b) (ascii_of_nat (Z.to_nat n) :: cs).

(** ** Syntactic grammar, ECMA-404 sections 4 to 7

    [gvalue w v]: [w] is a value, after white space, denoting [v].
    [gmembers w acc fs]: [w] is the rest of an object after its first
    member, up to its [}], and the members [acc] gathered so far become
    [fs]; [gelements] likewise for arrays. *)
Inductive gvalue : list ascii -> value -> Prop :=
| gv_space (c : ascii) (w : list ascii) (v : value) : ws_char c -> gvalue w v -> gvalue (c :: w) v
| gv_null : gvalue (list_ascii_of_string "null") Null
| gv_true : gvalue (list_ascii_of_string "true") (Bool true)
| gv_false : gvalue (list_ascii_of_string "false") (Bool false)
| gv_number (w : list ascii) : number_token w -> gvalue w (Num (string_to_number (string_of_list_ascii w)))
| gv_string (b cs : list ascii) :
    string_chars b cs -> gvalue (quote :: b ++ [quote]) (Str (string_of_list_ascii cs))
| gv_array_empty (ws : list ascii) : all_ws ws -> gvalue ("["%char :: ws ++ ["]"%char]) (Arr [])
| gv_array (w : list ascii) (v : value) (w' : list ascii) (vs : list value) :
    gvalue w v -> gelements w' [v] vs -> gvalue ("["%char :: w ++ w') (Arr vs)
| gv_object_empty (ws : list ascii) : all_ws ws -> gvalue ("{"%char :: ws ++ ["}"%char]) (Obj [])
| gv_object (w : list ascii) (kv : string * value) (w' : list ascii) (fs : list (string * value)) :
    gmember w kv -> gmembers w' [kv] fs -> gvalue ("{"%char :: w ++ w') (Obj fs)
with gmember : list ascii -> string * value -> Prop :=
| gm_member (ws b cs ws' w : list ascii) (v : value) :
    all_ws ws -> string_chars b cs -> all_ws ws' -> gvalue w v ->
    gmember (ws ++ quote :: b ++ quote :: ws' ++ ":"%char :: w) (string_of_list_ascii cs, v)
with gmembers : list ascii -> list (string * value) -> list (string * value) -> Prop :=
| gms_close (ws : list ascii) (acc : list (string * value)) :
    all_ws ws -> gmembers (ws ++ ["}"%char]) acc acc
| gms_next (ws w : list ascii) (kv : string * value) (w' : list ascii) (acc fs : list (string * value)) :
    all_ws ws -> gmember w kv -> gmembers w' (define_member acc kv) fs ->
    gmembers (ws ++ ","%char :: w ++ w') acc fs
with gelements : list ascii -> list value -> list value -> Prop :=
| ges_close (ws : list ascii) (acc : list value) : all_ws ws -> gelements (ws ++ ["]"%char]) acc acc
| ges_next (ws w : list ascii) (v : value) (w' : list ascii) (acc vs : list value) :
    all_ws ws -> gvalue w v -> gelements w' (acc ++ [v]) vs -> gelements (ws ++ ","%char :: w ++ w') acc vs.

(** A JSON text: a value and white space, ECMA-404 section 4. *)
Definition json_text_of (l : list ascii) (v : value) : Prop :=
  exists w ws, l = w ++ ws /\ gvalue w v /\ all_ws ws.

(** ** The lexical steps of the parser follow the grammar *)

Lemma json_ws_char (c : ascii) : json_ws c = true -> ws_char c.
Proof. destruct c as [[] [] [] [] [] [] [] []]; intros H; try discriminate H; cbv; tauto. Qed.

Lemma skip_ws_split (l : list ascii) : exists ws, l = ws ++ skip_ws l /\ all_ws ws.
Proof.
  induction l as [|c l (ws & Hl & Hws)]; [exists []; split; [done | constructor]|]. simpl.
  destruct (json_ws c) eqn:Hc; [|exists []; split; [done | constructor]].
  exists (c :: ws). split; [by rewrite Hl at 1 | constructor; [by apply json_ws_char | done]].
Qed.

Lemma all_ws_app (ws ws' : list ascii) : all_ws ws -> all_ws ws' -> all_ws (ws ++ ws').
Proof. apply Forall_app_2. Qed.

Lemma gvalue_ws (ws w : list ascii) (v : value) : all_ws ws -> gvalue w v -> gvalue (ws ++ w) v.
Proof. induction 1; simpl; [done|]. intros Hw. constructor; auto. Qed.

Lemma gmember_ws (ws w : list ascii) (kv : string * value) : all_ws ws -> gmember w kv -> gmember (ws ++ w) kv.
Proof.
  intros Hws Hm. inversion Hm as [ws0 b cs ws' w0 v H0 Hb H1 Hv]; subst.
  rewrite app_assoc. constructor; [by apply all_ws_app | done..].
Qed.

Lemma head_is_eq (c : ascii) (l r : list ascii) : head_is c l = Some r -> l = c :: r.
Proof.
  destruct l as [|d l]; simpl; [done|]. destruct (Ascii.eqb_spec d c); [|done]. by intros [= <-]; subst.
Qed.

Lemma strip_prefix_eq (p l r : list ascii) : strip_prefix p l = Some r -> l = p ++ r.
Proof.
  revert l. induction p as [|c p IH]; intros [|d l]; simpl; [by intros [= ->]..|done|].
  destruct (Ascii.eqb_spec c d); [subst; intros H; by rewrite (IH l H) | done].
Qed.

Lemma escape_char_table (e c : ascii) : escape_char e = Some c -> In (e, c) escape_table.
Proof. destruct e as [[] [] [] [] [] [] [] []]; intros H; try discriminate H; injection H as <-; cbv; tauto. Qed.

Lemma plain_char (c : ascii) :
  Ascii.eqb c quote = false -> Ascii.eqb c backslash = false -> (nat_of_ascii c <? 32)%nat = false ->
  c <> quote /\ c <> backslash /\ (32 <= nat_of_ascii c)%nat.
Proof.
  intros H1 H2 H3. apply Nat.ltb_ge in H3.
  split; [intros ->; by rewrite Ascii.eqb_refl in H1|]. split; [intros ->; by rewrite Ascii.eqb_refl in H2 | done].
Qed.

(** [parse_chars] reads the characters of a string of the grammar up to
    its closing quote. *)
Lemma parse_chars_sound (l cs rest : list ascii) :
  parse_chars l = POk cs rest -> exists b, l = b ++ quote :: rest /\ string_chars b cs.
Proof.
  revert cs rest. induction l as [l IH] using (induction_ltof1 _ (@length ascii)); unfold ltof in IH.
  intros cs rest. destruct l as [|c r]; simpl; [discriminate|].
  destruct (Ascii.eqb c quote) eqn:Hq.
  { apply Ascii.eqb_eq in Hq. subst c. intros [= <- <-]. exists []. split; [done | constructor]. }
  destruct (Ascii.eqb c backslash) eqn:Hb.
  - apply Ascii.eqb_eq in Hb. subst c. destruct r as [|e r']; [discriminate|].
    destruct (Ascii.eqb e "u") eqn:Hu.
    + apply Ascii.eqb_eq in Hu. subst e.
      destruct r' as [|h1 [|h2 [|h3 [|h4 r'']]]]; try discriminate.
      destruct (hex4_value h1 h2 h3 h4) as [n|] eqn:Hh; [|discriminate].
      destruct (n <? 256)%Z eqn:Hn; [|discriminate]. apply Z.ltb_lt in Hn.
      intros H. apply pbind_ok in H as (s & rest' & Hs & [= <- <-]).
      destruct (IH r'' ltac:(simpl; lia) s _ Hs) as (b & -> & Hbs).
      exists (backslash :: "u"%char :: h1 :: h2 :: h3 :: h4 :: b). split; [done | by constructor].
    + destruct (escape_char e) as [c'|] eqn:He; [|discriminate].
      intros H. apply pbind_ok in H as (s & rest' & Hs & [= <- <-]).
      destruct (IH r' ltac:(simpl; lia) s _ Hs) as (b & -> & Hbs).
      exists (backslash :: e :: b). split; [done | constructor; [by apply escape_char_table | done]].
  - destruct (nat_of_ascii c <? 32)%nat eqn:Hc; [discriminate|].
    destruct (plain_char c Hq Hb Hc) as (H1 & H2 & H3).
    intros H. apply pbind_ok in H as (s & rest' & Hs & [= <- <-]).
    destruct (IH r ltac:(simpl; lia) s _ Hs) as (b & -> & Hbs).
    exists (c :: b). split; [done | by constructor].
Qed.

(** ** The number automaton accepts the numbers of the grammar *)

(** What may follow the characters read so far, in each state. *)
Definition from_state (st : nstate) (w : list ascii) : Prop :=
  match st with
  | NStart => number_token w
  | NMinus => exists i fr ex, w = i ++ fr ++ ex /\ int_part i /\ frac_part fr /\ exp_part ex
  | NZero => exists fr ex, w = fr ++ ex /\ frac_part fr /\ exp_part ex
  | NInt => exists ds fr ex, w = ds ++ fr ++ ex /\ Forall digit ds /\ frac_part fr /\ exp_part ex
  | NDot => exists ds ex, w = ds ++ ex /\ ds <> [] /\ Forall digit ds /\ exp_part ex
  | NFrac => exists ds ex, w = ds ++ ex /\ Forall digit ds /\ exp_part ex
  | NExp => exists sg ds, w = sg ++ ds /\ exp_sign sg /\ ds <> [] /\ Forall digit ds
  | NExpSign => w <> [] /\ Forall digit w
  | NExpDigits => Forall digit w
  end.

Lemma is_digit_char_digit' (c : ascii) : is_digit_char c = true -> digit c.
Proof. unfold is_digit_char, digit. rewrite andb_true_iff, !Nat.leb_le. lia. Qed.

Lemma accepting_from (st : nstate) : n_accepting st = true -> from_state st [].
Proof.
  destruct st; try discriminate; intros _; simpl.
  - exists [], []. repeat split; constructor.
  - exists [], [], []. repeat split; constructor.
  - exists [], []. repeat split; constructor.
  - constructor.
Qed.

(** The transitions of the automaton, as a relation. *)
Inductive ntrans : nstate -> ascii -> nstate -> Prop :=
| nt_minus : ntrans NStart "-"%char NMinus
| nt_zero : ntrans NStart "0"%char NZero
| nt_lead (c : ascii) : digit c -> c <> "0"%char -> ntrans NStart c NInt
| nt_minus_zero : ntrans NMinus "0"%char NZero
| nt_minus_lead (c : ascii) : digit c -> c <> "0"%char -> ntrans NMinus c NInt
| nt_zero_dot : ntrans NZero "."%char NDot
| nt_zero_exp (c : ascii) : c = "e"%char \/ c = "E"%char -> ntrans NZero c NExp
| nt_int (c : ascii) : digit c -> ntrans NInt c NInt
| nt_int_dot : ntrans NInt "."%char NDot
| nt_int_exp (c : ascii) : c = "e"%char \/ c = "E"%char -> ntrans NInt c NExp
| nt_dot (c : ascii) : digit c -> ntrans NDot c NFrac
| nt_frac (c : ascii) : digit c -> ntrans NFrac c NFrac
| nt_frac_exp (c : ascii) : c = "e"%char \/ c = "E"%char -> ntrans NFrac c NExp
| nt_exp_sign (c : ascii) : c = "+"%char \/ c = "-"%char -> ntrans NExp c NExpSign
| nt_exp_digit (c : ascii) : digit c -> ntrans NExp c NExpDigits
| nt_sign_digit (c : ascii) : digit c -> ntrans NExpSign c NExpDigits
| nt_exp_digits (c : ascii) : digit c -> ntrans NExpDigits c NExpDigits.

Lemma nstep_trans (st st' : nstate) (c : ascii) : nstep st c = Some st' -> ntrans st c st'.
Proof.
  destruct st; simpl;
    repeat match goal with
    | |- context [if ?b then _ else _] => destruct b eqn:?E
    | E : Ascii.eqb _ _ = true |- _ => apply Ascii.eqb_eq in E; subst
    | E : Ascii.eqb _ _ = false |- _ => apply Ascii.eqb_neq in E
    | E : is_digit_char _ = true |- _ => apply is_digit_char_digit' in E
    | E : (_ || _)%bool = true |- _ => apply orb_true_iff in E
    | E : is_exp_char _ = true |- _ => unfold is_exp_char in E
    | E : _ \/ _ |- _ => destruct E as [E|E]
    end; intros H; try discriminate H; injection H as <-; constructor; auto.
Qed.

(** Reading one more character keeps the word in the language. *)
Lemma nstep_from (st st' : nstate) (c : ascii) (w : list ascii) :
  nstep st c = Some st' -> from_state st' w -> from_state st (c :: w).
Proof.
  intros Ht. apply nstep_trans in Ht. destruct Ht; simpl; intros Hw;
    repeat match goal with H : exists _, _ |- _ => destruct H | H : _ /\ _ |- _ => destruct H end; subst;
    [ exists ["-"%char], x, x0, x1 | exists [], ["0"%char], x, x0 | exists [], (c :: x), x0, x1
    | exists ["0"%char], x, x0 | exists (c :: x), x0, x1 | exists ("."%char :: x), x0
    | exists [], (c :: x ++ x0) | exists (c :: x), x0, x1 | exists [], ("."%char :: x), x0
    | exists [], [], (c :: x ++ x0) | exists (c :: x), x0 | exists (c :: x), x0
    | exists [], (c :: x ++ x0) | exists [c], w | exists [], (c :: w) | | ];
    repeat split; try reflexivity; try discriminate;
    eauto 7 using int_zero, int_nonzero, frac_none, frac_some, exp_some, sign_plus, sign_minus, sign_none, Forall_cons.
  destruct H as [-> | ->]; constructor.
Qed.

Lemma nrun_from (st st' : nstate) (w : list ascii) :
  nrun st w = Some st' -> n_accepting st' = true -> from_state st w.
Proof.
  revert st. induction w as [|c w IH]; intros st; simpl.
  - intros [= ->]. apply accepting_from.
  - destruct (nstep st c) as [st1|] eqn:Hs; [|discriminate]. intros Hr Ha.
    exact (nstep_from st st1 c w Hs (IH st1 Hr Ha)).
Qed.

Lemma nscan_take (st : nstate) (l : list ascii) :
  nrun st (take (snd (nscan st l)) l) = Some (fst (nscan st l)).
Proof.
  revert st. induction l as [|c l IH]; intros st; simpl; [done|].
  destruct (nstep st c) as [st1|] eqn:Hs; simpl; [|done].
  specialize (IH st1). destruct (nscan st1 l) as [st2 n]. simpl in *. by rewrite Hs.
Qed.

(** A number the parser reads is a number token of the grammar. *)
Lemma parse_number_sound (l : list ascii) (v : value) (rest : list ascii) :
  parse_number l = POk v rest ->
  exists w, l = w ++ rest /\ number_token w /\ v = Num (string_to_number (string_of_list_ascii w)).
Proof.
  unfold parse_number. pose proof (nscan_take NStart l) as Hr.
  destruct (nscan NStart l) as [st n]. simpl in Hr.
  destruct (n_accepting st) eqn:Ha; [|discriminate]. intros [= <- <-].
  exists (take n l). split; [by rewrite take_drop|]. split; [|done].
  exact (nrun_from NStart st _ Hr Ha).
Qed.

(** ** The parser refines the grammar *)

(** The four parsers at fuel [f]: what they read is a phrase of the
    grammar with the value they return. *)
Definition parsers_sound (f : nat) : Prop :=
  (forall l v rest, parse_value f l = POk v rest -> exists w, l = w ++ rest /\ gvalue w v) /\
  (forall l kv rest, parse_member f l = POk kv rest -> exists w, l = w ++ rest /\ gmember w kv) /\
  (forall l acc v rest, parse_members f l acc = POk v rest ->
     exists w fs, l = w ++ rest /\ v = Obj fs /\ gmembers w acc fs) /\
  (forall l acc v rest, parse_elements f l acc = POk v rest ->
     exists w vs, l = w ++ rest /\ v = Arr vs /\ gelements w acc vs).

(** Equations between texts, up to the association of [++]. *)
Ltac list_eq := simpl; rewrite <- ?app_assoc; simpl; rewrite <- ?app_assoc; reflexivity.

(** [l] without its leading white space. *)
Ltac split_ws l ws Hws l' :=
  let Hl := fresh "Hl" in
  destruct (skip_ws_split l) as (ws & Hl & Hws);
  remember (skip_ws l) as l' eqn:?; subst l.

Lemma parsers_refine_grammar (f : nat) : parsers_sound f.
Proof.
  induction f as [|f IH]; [split; [|split; [|split]]; intros *; discriminate|].
  destruct IH as (IHv & IHm & IHms & IHes).
  split; [|split; [|split]].
  - intros l v rest H. cbn [parse_value] in H. split_ws l ws Hws l0.
    destruct l0 as [|c r]; [discriminate|].
    enough (Hc : exists w, c :: r = w ++ rest /\ gvalue w v).
    { destruct Hc as (w & -> & Hw). exists (ws ++ w). rewrite app_assoc. split; [done | by apply gvalue_ws]. }
    destruct (Ascii.eqb_spec c "{") as [->|_].
    { split_ws r ws2 Hws2 l0. destruct (head_is "}" l0) as [r'|] eqn:Hh.
      - apply head_is_eq in Hh. subst l0. injection H as <- <-.
        exists ("{"%char :: ws2 ++ ["}"%char]). split; [by list_eq | by apply gv_object_empty].
      - apply pbind_ok in H as (kv & r1 & Hm & H).
        destruct (IHm _ _ _ Hm) as (wm & -> & Hwm). destruct (IHms _ _ _ _ H) as (wms & fs & -> & -> & Hwms).
        exists ("{"%char :: (ws2 ++ wm) ++ wms). split; [by list_eq|].
        eapply gv_object; [by apply gmember_ws | exact Hwms]. }
    destruct (Ascii.eqb_spec c "[") as [->|_].
    { split_ws r ws2 Hws2 l0. destruct (head_is "]" l0) as [r'|] eqn:Hh.
      - apply head_is_eq in Hh. subst l0. injection H as <- <-.
        exists ("["%char :: ws2 ++ ["]"%char]). split; [by list_eq | by apply gv_array_empty].
      - apply pbind_ok in H as (v1 & r1 & Hv & H).
        destruct (IHv _ _ _ Hv) as (wv & -> & Hwv). destruct (IHes _ _ _ _ H) as (wes & vs & -> & -> & Hwes).
        exists ("["%char :: (ws2 ++ wv) ++ wes). split; [by list_eq|].
        eapply gv_array; [by apply gvalue_ws | exact Hwes]. }
    destruct (Ascii.eqb_spec c quote) as [->|_].
    { apply pbind_ok in H as (cs & r1 & Hc & H). injection H as <- <-.
      destruct (parse_chars_sound _ _ _ Hc) as (b & -> & Hb).
      exists (quote :: b ++ [quote]). split; [by list_eq | by apply gv_string]. }
    destruct (strip_prefix (list_ascii_of_string "true") (c :: r)) as [r1|] eqn:Ht.
    { injection H as <- <-. apply strip_prefix_eq in Ht. rewrite Ht. eexists. split; [reflexivity | apply gv_true]. }
    destruct (strip_prefix (list_ascii_of_string "false") (c :: r)) as [r1|] eqn:Hf.
    { injection H as <- <-. apply strip_prefix_eq in Hf. rewrite Hf. eexists. split; [reflexivity | apply gv_false]. }
    destruct (strip_prefix (list_ascii_of_string "null") (c :: r)) as [r1|] eqn:Hn.
    { injection H as <- <-. apply strip_prefix_eq in Hn. rewrite Hn. eexists. split; [reflexivity | apply gv_null]. }
    destruct (parse_number_sound _ _ _ H) as (w & Hw & Htok & ->). exists w. split; [done | by apply gv_number].
  - intros [|c r] kv rest H; cbn [parse_member] in H; [discriminate|].
    destruct (Ascii.eqb_spec c quote) as [->|_]; [|discriminate].
    apply pbind_ok in H as (k & r1 & Hc & H). destruct (parse_chars_sound _ _ _ Hc) as (b & -> & Hb).
    split_ws r1 ws' Hws' l0. destruct (head_is ":" l0) as [r2|] eqn:Hh; [|discriminate].
    apply head_is_eq in Hh. subst l0.
    apply pbind_ok in H as (v & r3 & Hv & H). injection H as <- <-.
    destruct (IHv _ _ _ Hv) as (wv & -> & Hwv).
    exists ([] ++ quote :: b ++ quote :: ws' ++ ":"%char :: wv). split; [by list_eq|].
    constructor; [constructor | done..].
  - intros l acc v rest H. cbn [parse_members] in H. split_ws l ws Hws l0.
    destruct (head_is "," l0) as [r|] eqn:Hh.
    + apply head_is_eq in Hh. subst l0. apply pbind_ok in H as (kv & r1 & Hm & H).
      split_ws r ws2 Hws2 l0. destruct (IHm _ _ _ Hm) as (wm & -> & Hwm).
      destruct (IHms _ _ _ _ H) as (wms & fs & -> & -> & Hwms).
      exists (ws ++ ","%char :: (ws2 ++ wm) ++ wms), fs. split; [by list_eq|]. split; [done|].
      eapply gms_next; [done | by apply gmember_ws | exact Hwms].
    + destruct (head_is "}" l0) as [r|] eqn:Hh'; [|discriminate]. apply head_is_eq in Hh'. subst l0.
      injection H as <- <-. exists (ws ++ ["}"%char]), acc. split; [by list_eq|]. by split; [|constructor].
  - intros l acc v rest H. cbn [parse_elements] in H. split_ws l ws Hws l0.
    destruct (head_is "," l0) as [r|] eqn:Hh.
    + apply head_is_eq in Hh. subst l0. apply pbind_ok in H as (v1 & r1 & Hv & H).
      destruct (IHv _ _ _ Hv) as (wv & -> & Hwv).
      destruct (IHes _ _ _ _ H) as (wes & vs & -> & -> & Hwes).
      exists (ws ++ ","%char :: wv ++ wes), vs. split; [by list_eq|]. split; [done|].
      by eapply ges_next.
    + destruct (head_is "]" l0) as [r|] eqn:Hh'; [|discriminate]. apply head_is_eq in Hh'. subst l0.
      injection H as <- <-. exists (ws ++ ["]"%char]), acc. split; [by list_eq|]. by split; [|constructor].
Qed.

(** C16: refinement.  [response.json()] refines the grammar of
    ECMA-404: whenever it fulfils with a value, the body is a JSON text
    (a value of the grammar, then white space) and the value is the one
    the grammar assigns to that text.  No body outside the grammar, a
    trailing comma, a leading zero, an unescaped control character or a
    single quote, is ever accepted. *)
Theorem response_json_follows_grammar (r : response) (v : value) :
  response_json r = Normal v -> json_text_of (list_ascii_of_string (body r)) v.
Proof.
  unfold response_json, JSON_parse, JSON_parse_fuel.
  destruct (parse_value _ _) as [v' rest| |] eqn:Hp; [|discriminate..].
  destruct (skip_ws_split rest) as (ws & Hrest & Hws).
  destruct (skip_ws rest); [|discriminate]. intros [= <-].
  destruct (proj1 (parsers_refine_grammar _) _ _ _ Hp) as (w & Hl & Hw).
  exists w, ws. rewrite app_nil_r in Hrest. subst rest. by split.
Qed.

Lemma response_json_follows_grammar_witness :
  response_json {| status := 200; body := " [1.5e2, true, {}] " |} = Normal (Arr [Num (Fin 15 1); Bool true; Obj []]) /\
  json_text_of (list_ascii_of_string " [1.5e2, true, {}] ") (Arr [Num (Fin 15 1); Bool true; Obj []]).
Proof.
  assert (H : response_json {| status := 200; body := " [1.5e2, true, {}] " |} =
              Normal (Arr [Num (Fin 15 1); Bool true; Obj []])) by (vm_compute; reflexivity).
  exact (conj H (response_json_follows_grammar _ _ H)).
Defined.
