(* ===== verification/Advisory.v ===== *)
(** * Advisory: the sunscreen recommendation

    [sunscreenRecommendation] (src/app/index.tsx, lines 128-133) is a
    nested conditional on [risk_factor >= 4] and [risk_factor >= 2].
    [risk_factor] is whatever the payload holds, so the comparisons are
    JavaScript's [>=] on an arbitrary value ([JsValue.js_ge]).  The file
    states the three-tier rule of the specification as an inductive
    relation on numbers, proves that the code computes it, that the tier
    is monotone in the risk and that the result depends only on the
    numeric value (a [Proper] morphism for [num_eq]), and
    characterises the inputs on which the code throws. *)

From Stdlib Require Import QArith Lqa ZArith String List Morphisms RelationClasses.
From stdpp Require Import base strings list decidable.
From S2P Require Import Prelude JsNumber JsValue.

Inductive tier : Type := Low | Moderate | High.

#[export] Instance tier_eq_dec : EqDecision tier.
Proof. solve_decision. Defined.

Definition tier_rank (t : tier) : nat :=
  match t with Low => 0 | Moderate => 1 | High => 2 end.

Definition msg_high : string := "High Risk: Apply Sunscreen!".
Definition msg_moderate : string := "Moderate Risk: Sunscreen Recommended".
Definition msg_low : string := "Low Risk: No Need for Sunscreen".

Definition tier_message (t : tier) : string :=
  match t with High => msg_high | Moderate => msg_moderate | Low => msg_low end.

(** The code, lines 128-133: the first test is evaluated in full before
    the second; either may throw. *)
Definition sunscreenRecommendation (risk_factor : value) : completion string :=
  (let? hi := js_ge risk_factor (Fin 4 0) in
   if hi then Normal msg_high else
   let? mid := js_ge risk_factor (Fin 2 0) in
   if mid then Normal msg_moderate else Normal msg_low)%js.

(** ** The specification's rule (spec section 4.1, deriveAdvisory) *)

Inductive advisory_spec : number -> tier -> Prop :=
| adv_high_fin m e : (4 <= dec_to_Q m e)%Q -> advisory_spec (Fin m e) High
| adv_mod_fin m e : (2 <= dec_to_Q m e < 4)%Q -> advisory_spec (Fin m e) Moderate
| adv_low_fin m e : (dec_to_Q m e < 2)%Q -> advisory_spec (Fin m e) Low
| adv_high_inf : advisory_spec PosInf High
| adv_low_neginf : advisory_spec NegInf Low
| adv_low_nan : advisory_spec NaN Low.

#[export] Hint Constructors advisory_spec : weather.

(** The order of the extended reals on numbers; NaN is unordered. *)
Definition num_le (x y : number) : Prop :=
  match x, y with
  | NaN, _ | _, NaN => False
  | NegInf, _ | _, PosInf => True
  | PosInf, _ | _, NegInf => False
  | Fin m e, Fin m' e' => (dec_to_Q m e <= dec_to_Q m' e')%Q
  end.

(** ** Helper lemmas *)

Lemma number_ge_fin (m e m' e' : Z) :
  number_ge (Fin m e) (Fin m' e') = Qle_bool (dec_to_Q m' e') (dec_to_Q m e).
Proof. unfold number_ge, number_lt. by destruct (Qle_bool _ _). Qed.

Lemma js_ge_num (x c : number) : js_ge (Num x) c = Normal (number_ge x c).
Proof. reflexivity. Qed.

#[export] Hint Rewrite number_ge_fin js_ge_num : weather_rw.

Lemma dec_to_Q_int (z : Z) : dec_to_Q z 0 = (z # 1)%Q.
Proof. unfold dec_to_Q. simpl. by rewrite Z.mul_1_r. Qed.

#[export] Hint Rewrite dec_to_Q_int : weather_rw.

Lemma advisory_spec_functional (x : number) (t t' : tier) :
  advisory_spec x t -> advisory_spec x t' -> t = t'.
Proof. intros H H'. invc H; invc H'; auto; exfalso; lra. Qed.

Lemma tier_message_inj (t t' : tier) : tier_message t = tier_message t' -> t = t'.
Proof. destruct t, t'; simpl; try reflexivity; discriminate. Qed.

(** The specified tier depends only on the value of the number. *)
Lemma advisory_spec_num_eq (x y : number) (t : tier) : num_eq x y -> advisory_spec x t -> advisory_spec y t.
Proof.
  intros Hxy H. destruct x as [m e| | |], y as [m' e'| | |]; simpl in Hxy; try discriminate; try (subst; exact H).
  invc H; constructor; lra.
Qed.

(** ** Functional correctness *)

(** The tier the code picks for a number satisfies the specification. *)
Lemma sunscreen_num_spec (x : number) :
  exists t, sunscreenRecommendation (Num x) = Normal (tier_message t) /\ advisory_spec x t.
Proof.
  unfold sunscreenRecommendation. autorewrite with weather_rw. cbn [cbind].
  destruct x as [m e| | |]; [autorewrite with weather_rw | simpl..]; case_ifs; qbool;
    first [ exists High; split; [reflexivity | constructor; lra]
          | exists Moderate; split; [reflexivity | constructor; split; lra]
          | exists Low; split; [reflexivity | constructor; lra] ].
Qed.

(** The code's message for a number determines the specified tier. *)
Lemma sunscreen_num_tier (x : number) (t : tier) :
  sunscreenRecommendation (Num x) = Normal (tier_message t) -> advisory_spec x t.
Proof.
  destruct (sunscreen_num_spec x) as (t0 & Hc & Hs). rewrite Hc.
  intros H. injection H as H. apply tier_message_inj in H. by subst.
Qed.

(** C9: for every number the code shows the message of exactly the tier
    the specification assigns: High from 4, Moderate from 2 below 4, Low
    below 2 and for NaN. *)
Theorem sunscreen_correct (x : number) (t : tier) :
  sunscreenRecommendation (Num x) = Normal (tier_message t) <-> advisory_spec x t.
Proof.
  split; [apply sunscreen_num_tier|].
  destruct (sunscreen_num_spec x) as (t0 & Hc & Hs). rewrite Hc.
  intros H. f_equal. f_equal. eapply advisory_spec_functional; eauto.
Qed.

(** ** Monotonicity and invariance *)

(** C21: the tier never decreases as the risk grows, over the ordered
    numbers (all but NaN, which the spec sends to Low). *)
Theorem sunscreen_monotone (x y : number) (tx ty : tier) :
  num_le x y ->
  sunscreenRecommendation (Num x) = Normal (tier_message tx) ->
  sunscreenRecommendation (Num y) = Normal (tier_message ty) ->
  (tier_rank tx <= tier_rank ty)%nat.
Proof.
  intros Hle Hx Hy. apply sunscreen_num_tier in Hx, Hy.
  invc Hx; invc Hy; simpl in *; try lia; try contradiction; exfalso; lra.
Qed.

Lemma sunscreen_monotone_witness :
  num_le (Fin 19 (-1)) (Fin 4 0) /\
  sunscreenRecommendation (Num (Fin 19 (-1))) = Normal (tier_message Low) /\
  sunscreenRecommendation (Num (Fin 4 0)) = Normal (tier_message High) /\
  (tier_rank Low <= tier_rank High)%nat.
Proof.
  assert (H1 : num_le (Fin 19 (-1)) (Fin 4 0)) by (vm_compute; discriminate).
  assert (H2 : sunscreenRecommendation (Num (Fin 19 (-1))) = Normal (tier_message Low)) by reflexivity.
  assert (H3 : sunscreenRecommendation (Num (Fin 4 0)) = Normal (tier_message High)) by reflexivity.
  exact (conj H1 (conj H2 (conj H3 (sunscreen_monotone _ _ _ _ H1 H2 H3)))).
Defined.

(** The recommendation depends only on the value of the risk, not
    on its decimal representation: [num_eq] is a congruence for it. *)
#[export] Instance sunscreen_num_proper :
  Proper (num_eq ==> eq) (fun x => sunscreenRecommendation (Num x)).
Proof.
  intros x y Hxy. cbv beta. unfold sunscreenRecommendation. autorewrite with weather_rw. cbn [cbind].
  repeat erewrite (number_ge_proper x y Hxy _ _ (reflexivity _)). reflexivity.
Qed.

(** ** Arbitrary payload values *)

(** The advisory throws exactly on the values that ToPrimitive cannot
    convert: an object with an own [toString] member, or an array
    holding one. *)
Lemma sunscreen_normal (v : value) :
  is_normal (sunscreenRecommendation v) = convertible v.
Proof.
  unfold sunscreenRecommendation, js_ge. rewrite <- to_number_normal.
  destruct (to_number v) as [n|m]; simpl; [|reflexivity].
  by case_ifs.
Qed.

