(* ===== verification/Images.v ===== *)
(** * Images: the background image for a weather condition

    [conditionImages] (src/app/index.tsx, lines 117-122) is an object
    literal with four members; line 125 reads
    [conditionImages[condition] || conditionImages.Default].  The read
    converts [condition] with ToPropertyKey and walks the literal's
    prototype chain, so a condition that names a member of
    [Object.prototype] ("constructor", "toString", ...) selects a
    built-in function instead of the default image.  [require] of an
    image returns the bundler's asset id, a positive number, hence a
    truthy value. *)

From Stdlib Require Import String Ascii List.
From stdpp Require Import base strings list decidable.
From S2P Require Import Prelude JsNumber JsValue.

Inductive image_ref : Type :=
| Asset (path : string)      (** the value of [require(path)] *)
| Builtin (name : string)    (** a built-in reached through the prototype *).

#[export] Instance image_ref_eq_dec : EqDecision image_ref.
Proof. solve_decision. Defined.

(** Lines 117-122. *)
Definition conditionImages : list (string * string) :=
  [("Sunny", "@/assets/images/Sunny.png");
   ("Rainy", "@/assets/images/Rainy.png");
   ("Snowy", "@/assets/images/Snowy.png");
   ("Default", "@/assets/images/default.png")].

Definition default_image : image_ref := Asset "@/assets/images/default.png".

(** [conditionImages[key]]: an own member, else [Object.prototype];
    [None] is [undefined]. *)
Definition image_lookup (key : string) : option image_ref :=
  match assoc_last key conditionImages with
  | Some path => Some (Asset path)
  | None =>
      match proto_get object_chain key with
      | Intrinsic n => Some (Builtin n)
      | _ => None
      end
  end.

(** Line 125.  Both an asset id and a built-in are truthy, so [||]
    keeps the left operand whenever the read finds something. *)
Definition backgroundImage (condition : value) : completion image_ref :=
  (let? key := to_property_key condition in
   Normal (match image_lookup key with
           | Some img => img
           | None => default_image
           end))%js.

(** ** The specification's rule (spec section 4.1, selectBackgroundImage)

    An exact, case-sensitive match against the known keywords selects
    the mapped image; every other string selects the default. *)
Definition image_spec (condition : string) (img : image_ref) : Prop :=
  (exists path, In (condition, path) conditionImages /\ img = Asset path) \/
  (~ In condition (map fst conditionImages) /\ img = default_image).

(** ** Helper lemmas *)

Lemma proto_get_object (k : string) :
  proto_get object_chain k =
  if existsb (String.eqb k) object_proto then Intrinsic ("Object.prototype." ++ k) else Undefined.
Proof. reflexivity. Qed.

Lemma image_lookup_own (k path : string) :
  In (k, path) conditionImages -> image_lookup k = Some (Asset path).
Proof. simpl. intros H. repeat destruct H as [H|H]; try contradiction; by invc H. Qed.

Lemma image_lookup_other (k : string) :
  ~ In k (map fst conditionImages) -> ~ In k object_proto -> image_lookup k = None.
Proof.
  intros Hk Hp. unfold image_lookup.
  rewrite (proj2 (assoc_last_None k conditionImages) Hk), proto_get_object.
  destruct (existsb (String.eqb k) object_proto) eqn:E; [|reflexivity].
  apply existsb_exists in E as (k' & Hin & Heq). apply String.eqb_eq in Heq. subst. contradiction.
Qed.

Lemma image_lookup_proto (k : string) :
  ~ In k (map fst conditionImages) -> In k object_proto ->
  image_lookup k = Some (Builtin ("Object.prototype." ++ k)).
Proof.
  intros Hk Hp. unfold image_lookup.
  rewrite (proj2 (assoc_last_None k conditionImages) Hk), proto_get_object.
  replace (existsb (String.eqb k) object_proto) with true; [reflexivity|].
  symmetry. apply existsb_exists. exists k. split; [exact Hp | apply String.eqb_refl].
Qed.

(** No image key and no member of [Object.prototype] is spelled with the
    characters of a printed number only. *)
Lemma keys_not_numeric (k : string) :
  In k (map fst conditionImages ++ object_proto) ->
  ~ Forall (fun c => num_char c = true) (list_ascii_of_string k).
Proof.
  intros Hin Hall. apply Forall_forall with (x := List.hd "0"%char (list_ascii_of_string k)) in Hall.
  - revert Hall. simpl in Hin. repeat destruct Hin as [<-|Hin]; try contradiction; vm_compute; discriminate.
  - simpl in Hin. repeat destruct Hin as [<-|Hin]; try contradiction; simpl; auto.
Qed.

Lemma backgroundImage_str (s : string) :
  backgroundImage (Str s) =
  Normal (match image_lookup s with Some img => img | None => default_image end).
Proof. reflexivity. Qed.

Lemma image_key_path (s : string) :
  In s (map fst conditionImages) -> exists path, In (s, path) conditionImages.
Proof. intros H. apply in_map_iff in H as ([k p] & <- & Hin). by exists p. Qed.

(** ** Correctness of the lookup *)

Lemma image_spec_functional (s : string) (i1 i2 : image_ref) :
  image_spec s i1 -> image_spec s i2 -> i1 = i2.
Proof.
  intros [(p1 & H1 & ->) | [Hn1 ->]] [(p2 & H2 & ->) | [Hn2 ->]]; try reflexivity.
  - pose proof (image_lookup_own _ _ H1) as E. rewrite (image_lookup_own _ _ H2) in E. by invc E.
  - exfalso. apply Hn2. apply in_map_iff. by exists (s, p1).
  - exfalso. apply Hn1. apply in_map_iff. by exists (s, p2).
Qed.

(** Off the prototype's names, the lookup with its fallback picks the
    specified image. *)
Lemma image_lookup_spec (s : string) :
  ~ In s object_proto ->
  image_spec s (match image_lookup s with Some img => img | None => default_image end).
Proof.
  intros Hp. destruct (decide (In s (map fst conditionImages))) as [Hk|Hk].
  - destruct (image_key_path s Hk) as [path Hin].
    rewrite (image_lookup_own _ _ Hin). left. eauto.
  - rewrite (image_lookup_other _ Hk Hp). by right.
Qed.

(** C19: on every string outside the members of [Object.prototype], the
    code selects exactly the image of the specification's exact,
    case-sensitive lookup, the default image for an unknown keyword. *)
Theorem background_image_spec (s : string) (img : image_ref) :
  ~ In s object_proto ->
  backgroundImage (Str s) = Normal img <-> image_spec s img.
Proof.
  intros Hp. rewrite backgroundImage_str. pose proof (image_lookup_spec s Hp) as Hs. split.
  - intros H. invc H. exact Hs.
  - intros H. f_equal. eapply image_spec_functional; eauto.
Qed.

Lemma background_image_spec_witness :
  ~ In "Cloudy" object_proto /\
  (backgroundImage (Str "Cloudy") = Normal default_image <-> image_spec "Cloudy" default_image).
Proof.
  assert (H : ~ In "Cloudy" object_proto) by (simpl; intuition discriminate).
  exact (conj H (background_image_spec "Cloudy" default_image H)).
Defined.

(** No member name of [Object.prototype] is a key of the literal. *)
Lemma proto_not_image_key (s : string) : In s object_proto -> ~ In s (map fst conditionImages).
Proof. intros Hp. simpl in Hp |- *. repeat destruct Hp as [<-|Hp]; try contradiction; intuition discriminate. Qed.

(** On the member names of [Object.prototype] the lookup with its
    fallback picks the built-in. *)
Lemma image_lookup_proto_member (s : string) :
  In s object_proto ->
  match image_lookup s with Some img => img | None => default_image end = Builtin ("Object.prototype." ++ s).
Proof. intros Hp. by rewrite (image_lookup_proto _ (proto_not_image_key s Hp) Hp). Qed.

(** C20: a condition that names a member of [Object.prototype] (for
    instance "constructor" or "toString") selects that built-in, not
    the default image the specification requires. *)
Theorem background_proto_member (s : string) :
  In s object_proto ->
  backgroundImage (Str s) = Normal (Builtin ("Object.prototype." ++ s)) /\
  ~ image_spec s (Builtin ("Object.prototype." ++ s)).
Proof.
  intros Hp. rewrite backgroundImage_str, (image_lookup_proto_member _ Hp). split; [reflexivity|].
  intros [(path & _ & H) | [_ H]]; discriminate.
Qed.

Lemma background_proto_member_witness :
  In "constructor" object_proto /\
  backgroundImage (Str "constructor") = Normal (Builtin "Object.prototype.constructor") /\
  ~ image_spec "constructor" (Builtin "Object.prototype.constructor").
Proof.
  assert (H : In "constructor" object_proto) by (simpl; auto).
  exact (conj H (background_proto_member "constructor" H)).
Defined.

(** C23: a numeric condition never reaches an image key or a prototype
    member: whatever the number, the default image is shown. *)
Theorem background_number (n : number) : backgroundImage (Num n) = Normal default_image.
Proof.
  destruct n as [m e| | |]; [|reflexivity..].
  unfold backgroundImage, to_property_key. cbn [to_string cbind].
  rewrite image_lookup_other; [reflexivity| |].
  all: intros Hin; eapply keys_not_numeric; [|apply (num_to_string_chars m e)];
    apply in_or_app; auto.
Qed.

(** The lookup throws exactly when ToPropertyKey cannot convert the
    condition. *)
Lemma backgroundImage_normal (condition : value) :
  is_normal (backgroundImage condition) = convertible condition.
Proof.
  unfold backgroundImage, to_property_key. rewrite <- to_string_normal.
  by destruct (to_string condition).
Qed.
