(* ===== verification/Chart.v ===== *)
(** * Chart: the rain-chance bar chart

    [chartData] (src/app/index.tsx, lines 136-144) is a fixed list of
    seven samples; [renderBarChart] (lines 146-172) maps each sample and
    its index to an SVG [Rect] and a centred [SvgText] inside a 350 x 200
    [Svg].  The file models the geometry as integers (every coordinate
    in the source is an integer literal or an integer expression) and
    proves that the chart fits its canvas, that the bars are pairwise
    disjoint and that each label is centred on its bar. *)

From Stdlib Require Import ZArith String List Lia.
From stdpp Require Import base list.
From S2P Require Import Prelude.

Local Open Scope Z_scope.

Record chart_item : Type := {
  day : string;
  level : string;
  height : Z;
  color : string
}.

(** Lines 136-144. *)
Definition chartData : list chart_item :=
  [ {| day := "Sun"; level := "Low"; height := 40; color := "#D3D3D3" |};
    {| day := "Mon"; level := "Medium"; height := 90; color := "#D3D3D3" |};
    {| day := "Tue"; level := "Low"; height := 60; color := "#D3D3D3" |};
    {| day := "Wed"; level := "Medium"; height := 90; color := "#D3D3D3" |};
    {| day := "Thu"; level := "Medium"; height := 90; color := "#D3D3D3" |};
    {| day := "Fri"; level := "High"; height := 120; color := "#007BFF" |};
    {| day := "Sat"; level := "Heavy"; height := 130; color := "#FF1493" |} ]%string.

Record rect : Type := {
  rect_x : Z; rect_y : Z; rect_width : Z; rect_height : Z; rect_fill : string; rect_rx : Z
}.

Record label : Type := {
  label_x : Z; label_y : Z; label_size : Z; label_fill : string; label_anchor : string;
  label_text : string
}.

Record svg : Type := { svg_height : Z; svg_width : Z; svg_bars : list (rect * label) }.

(** The fragment for sample [index] (lines 150-167). *)
Definition bar_of (index : nat) (item : chart_item) : rect * label :=
  ({| rect_x := Z.of_nat index * 45 + 20;
      rect_y := 200 - height item;
      rect_width := 30;
      rect_height := height item;
      rect_fill := color item;
      rect_rx := 5 |},
   {| label_x := Z.of_nat index * 45 + 35;
      label_y := 190;
      label_size := 12;
      label_fill := "black";
      label_anchor := "middle";
      label_text := day item |}).

(** Lines 146-172: [chartData.map((item, index) => ...)] inside the
    canvas. *)
Definition renderBarChart (data : list chart_item) : svg :=
  {| svg_height := 200; svg_width := 350; svg_bars := imap bar_of data |}.

(** A rectangle lies inside the canvas. *)
Definition in_canvas (c : svg) (r : rect) : Prop :=
  0 <= rect_x r /\ rect_x r + rect_width r <= svg_width c /\
  0 <= rect_y r /\ rect_y r + rect_height r <= svg_height c.

(** ** Helper lemmas *)

Lemma renderBarChart_lookup (data : list chart_item) (i : nat) :
  svg_bars (renderBarChart data) !! i = bar_of i <$> data !! i.
Proof. simpl. apply list_lookup_imap. Qed.

Lemma bar_lookup (data : list chart_item) (i : nat) (b : rect * label) :
  svg_bars (renderBarChart data) !! i = Some b ->
  exists item, data !! i = Some item /\ b = bar_of i item /\ (i < length data)%nat.
Proof.
  rewrite renderBarChart_lookup. intros H.
  destruct (data !! i) as [item|] eqn:E; simplify_eq/=.
  exists item. split; [done|]. split; [done|]. by eapply lookup_lt_Some.
Qed.

(** The [i]-th sample of [chartData], for the examples below. *)
Definition sample (i : nat) : chart_item :=
  nth i chartData {| day := ""; level := ""; height := 0; color := "" |}%string.

(** ** Geometry *)

(** C28: with at most seven samples whose heights lie in [0, 200], every
    bar lies inside the 350 x 200 canvas. *)
Theorem chart_fits_canvas (data : list chart_item) (i : nat) (b : rect * label) :
  (length data <= 7)%nat ->
  Forall (fun it => 0 <= height it <= 200) data ->
  svg_bars (renderBarChart data) !! i = Some b ->
  in_canvas (renderBarChart data) (fst b).
Proof.
  intros Hlen Hh Hb. apply bar_lookup in Hb as (item & Hi & -> & Hlt).
  rewrite Forall_lookup in Hh. specialize (Hh _ _ Hi).
  unfold in_canvas; simpl. lia.
Qed.

Lemma chart_fits_canvas_witness :
  (length chartData <= 7)%nat /\
  Forall (fun it => 0 <= height it <= 200) chartData /\
  svg_bars (renderBarChart chartData) !! 6%nat = Some (bar_of 6 (sample 6)) /\
  in_canvas (renderBarChart chartData) (fst (bar_of 6 (sample 6))).
Proof.
  assert (H1 : (length chartData <= 7)%nat) by (simpl; lia).
  assert (H2 : Forall (fun it => 0 <= height it <= 200) chartData) by (repeat constructor; simpl; lia).
  assert (H3 : svg_bars (renderBarChart chartData) !! 6%nat = Some (bar_of 6 (sample 6))) by reflexivity.
  exact (conj H1 (conj H2 (conj H3 (chart_fits_canvas _ _ _ H1 H2 H3)))).
Defined.

(** C29: bars never overlap: a later bar starts 15 units after the right
    edge of an earlier one, whatever the data. *)
Theorem chart_bars_disjoint (data : list chart_item) (i j : nat) (bi bj : rect * label) :
  (i < j)%nat ->
  svg_bars (renderBarChart data) !! i = Some bi ->
  svg_bars (renderBarChart data) !! j = Some bj ->
  rect_x (fst bi) + rect_width (fst bi) + 15 <= rect_x (fst bj).
Proof.
  intros Hij Hi Hj.
  apply bar_lookup in Hi as (? & _ & -> & _). apply bar_lookup in Hj as (? & _ & -> & _).
  simpl. lia.
Qed.

Lemma chart_bars_disjoint_witness :
  (0 < 1)%nat /\
  svg_bars (renderBarChart chartData) !! 0%nat = Some (bar_of 0 (sample 0)) /\
  svg_bars (renderBarChart chartData) !! 1%nat = Some (bar_of 1 (sample 1)) /\
  rect_x (fst (bar_of 0 (sample 0))) + 30 + 15 <= rect_x (fst (bar_of 1 (sample 1))).
Proof.
  assert (H0 : (0 < 1)%nat) by lia.
  assert (H1 : svg_bars (renderBarChart chartData) !! 0%nat = Some (bar_of 0 (sample 0))) by reflexivity.
  assert (H2 : svg_bars (renderBarChart chartData) !! 1%nat = Some (bar_of 1 (sample 1))) by reflexivity.
  exact (conj H0 (conj H1 (conj H2 (chart_bars_disjoint _ _ _ _ _ H0 H1 H2)))).
Defined.

(** C30: each bar stands on the baseline with the sample's height and
    its day label is centred on it. *)
Theorem chart_bar_shape (data : list chart_item) (i : nat) (b : rect * label) :
  svg_bars (renderBarChart data) !! i = Some b ->
  exists item, data !! i = Some item /\
    rect_height (fst b) = height item /\
    rect_y (fst b) + rect_height (fst b) = svg_height (renderBarChart data) /\
    2 * label_x (snd b) = 2 * rect_x (fst b) + rect_width (fst b) /\
    label_text (snd b) = day item.
Proof.
  intros Hb. apply bar_lookup in Hb as (item & Hi & -> & _).
  exists item. simpl. repeat split; [done | lia..].
Qed.

Lemma chart_bar_shape_witness :
  svg_bars (renderBarChart chartData) !! 5%nat = Some (bar_of 5 (sample 5)) /\
  exists item, chartData !! 5%nat = Some item /\
    rect_height (fst (bar_of 5 (sample 5))) = height item /\
    rect_y (fst (bar_of 5 (sample 5))) + rect_height (fst (bar_of 5 (sample 5))) = svg_height (renderBarChart chartData) /\
    2 * label_x (snd (bar_of 5 (sample 5))) = 2 * rect_x (fst (bar_of 5 (sample 5))) + rect_width (fst (bar_of 5 (sample 5))) /\
    label_text (snd (bar_of 5 (sample 5))) = day item.
Proof.
  assert (H : svg_bars (renderBarChart chartData) !! 5%nat = Some (bar_of 5 (sample 5))) by reflexivity.
  exact (conj H (chart_bar_shape _ _ _ H)).
Defined.
