(* ===== verification/Styles.v ===== *)
(** * Styles: the style sheet, its resolution and the details row

    [styles] (src/app/index.tsx, lines 238-355) is a
    [StyleSheet.create] of nineteen named styles; the render passes
    them, alone, in arrays or with inline objects, to the [style] props
    of its elements.  React Native resolves a style prop with
    [StyleSheet.flatten]: arrays are merged left to right, a later
    property overriding an earlier one, and [undefined] entries are
    skipped.  This file transcribes the sheet and the style props of
    the render, models [flatten], states the types React Native's style
    props expect (its [ViewStyle], [TextStyle] and [ImageStyle]), and
    proves that every style built from the sheet is well typed.

    The layout of the weather details (lines 193-212) is the one
    geometric promise the code makes in a comment: [detailBox] has
    ["45%"] width "to make two items per row" in the wrapping
    [detailsContainer].  Yoga, the layout engine, breaks a wrapping row
    greedily; its line breaking is modelled here and the comment is
    proved for every width of the container. *)

From Stdlib Require Import QArith Lqa ZArith String Ascii List Lia.
From stdpp Require Import base strings list decidable.
From S2P Require Import Prelude JsNumber.

#[local] Set Warnings "-register-all".

(** ** Style values and the sheet *)

Inductive style_value : Type :=
| SNum (n : number)
| SStr (s : string)
| SObj (fields : list (string * style_value)).

Definition style : Type := list (string * style_value).
Definition sheet : Type := list (string * style).

(** An integer literal of the sheet. *)
Definition px (z : Z) : style_value := SNum (Fin z 0).

(** The object literal passed to [StyleSheet.create], lines 238-355. *)
Definition styles_literal : sheet := [
  ("container", [("flex", px 1); ("padding", px 12)]);
  ("header", [("alignItems", SStr "center"); ("padding", px 20);
              ("backgroundColor", SStr "#d72638"); ("borderTopLeftRadius", px 20);
              ("borderTopRightRadius", px 20); ("overflow", SStr "hidden")]);
  ("temperature", [("fontSize", px 60); ("color", SStr "#fff"); ("fontWeight", SStr "bold")]);
  ("weatherInfo", [("fontSize", px 24); ("color", SStr "#fff")]);
  ("date", [("fontSize", px 16); ("color", SStr "#fff")]);
  ("feelsLike", [("fontSize", px 16); ("color", SStr "#fff")]);
  ("detailsContainer", [("flexDirection", SStr "row"); ("flexWrap", SStr "wrap");
              ("padding", px 8); ("backgroundColor", SStr "#e1e0de"); ("borderRadius", px 20);
              ("shadowColor", SStr "#000"); ("shadowOffset", SObj [("width", px 0); ("height", px 2)]);
              ("shadowOpacity", SNum (Fin 2 (-1))); ("shadowRadius", px 5); ("elevation", px 3);
              ("marginBottom", px 10); ("marginTop", px (-10))]);
  ("detailBox", [("width", SStr "45%"); ("marginBottom", px 8); ("alignItems", SStr "center");
              ("padding", px 1); ("borderRadius", px 16)]);
  ("detailText", [("marginTop", px 8); ("textAlign", SStr "center"); ("color", SStr "#333");
              ("fontSize", px 12); ("fontWeight", SStr "500")]);
  ("sunscreenText", [("textAlign", SStr "center"); ("fontSize", px 18); ("color", SStr "#d72638");
              ("marginVertical", px 10); ("fontWeight", SStr "bold")]);
  ("sectionTitle", [("fontSize", px 20); ("marginVertical", px 10); ("paddingHorizontal", px 16);
              ("color", SStr "#2a2a2a")]);
  ("placeContainer", [("flexDirection", SStr "row"); ("alignItems", SStr "center"); ("padding", px 10);
              ("borderBottomWidth", px 1); ("borderBottomColor", SStr "#ccc")]);
  ("placeImage", [("width", px 80); ("height", px 80); ("borderRadius", px 10)]);
  ("placeDetails", [("marginLeft", px 10); ("flex", px 1)]);
  ("placeName", [("fontSize", px 18); ("fontWeight", SStr "bold"); ("color", SStr "#333")]);
  ("placeDistance", [("fontSize", px 14); ("color", SStr "#666"); ("marginVertical", px 4)]);
  ("placeDescription", [("fontSize", px 14); ("color", SStr "#777")]);
  ("chartContainer", [("alignItems", SStr "center"); ("marginVertical", px 20)]);
  ("chart", [("backgroundColor", SStr "#fff"); ("borderRadius", px 10); ("elevation", px 3);
              ("shadowColor", SStr "#000"); ("shadowOffset", SObj [("width", px 0); ("height", px 2)]);
              ("shadowOpacity", SNum (Fin 2 (-1))); ("shadowRadius", px 2); ("paddingVertical", px 20)])
].

(** [StyleSheet.create] returns its argument (React Native 0.7x). *)
Definition StyleSheet_create (s : sheet) : sheet := s.

Definition styles : sheet := StyleSheet_create styles_literal.

(** ** Style props and [StyleSheet.flatten] *)

Inductive style_expr : Type :=
| SRef (name : string)            (** [styles.name] *)
| SInline (st : style)            (** an object literal *)
| SArray (es : list style_expr).  (** [[e1, e2, ...]] *)

(** [result[key] = value]: overwrite in place, or append. *)
Definition set_prop (st : style) (k : string) (v : style_value) : style :=
  if existsb (fun kv => String.eqb k (fst kv)) st
  then map (fun kv => if String.eqb k (fst kv) then (k, v) else kv) st
  else st ++ [(k, v)].

(** [for (const key in computed) result[key] = computed[key]]. *)
Definition merge (acc s : style) : style := fold_left (fun a kv => set_prop a (fst kv) (snd kv)) s acc.

(** [flattenStyle]: a reference to a missing name is [undefined],
    which is skipped. *)
Fixpoint flatten (sh : sheet) (e : style_expr) : style :=
  match e with
  | SRef n => match assoc_last n sh with Some st => st | None => [] end
  | SInline st => st
  | SArray es => fold_left (fun acc e' => merge acc (flatten sh e')) es []
  end.

(** The style props of the render, in the order of the JSX (lines
    79-234); the [map] over the places repeats its element's styles. *)
Definition centered : style_expr :=
  SArray [SRef "container"; SInline [("justifyContent", SStr "center"); ("alignItems", SStr "center")]].

Definition render_styles : list style_expr :=
  [centered; centered; SInline [("flex", px 1)]; SRef "container"; SRef "header";
   SRef "temperature"; SRef "weatherInfo"; SRef "date"; SRef "feelsLike";
   SRef "detailsContainer"; SRef "detailBox"; SRef "detailText"; SRef "detailBox"; SRef "detailText";
   SRef "detailBox"; SRef "detailText"; SRef "detailBox"; SRef "detailText";
   SRef "sunscreenText"; SRef "sectionTitle"; SRef "placeContainer"; SRef "placeImage";
   SRef "placeDetails"; SRef "placeName"; SRef "placeDistance"; SRef "placeDescription";
   SRef "sectionTitle"; SRef "chartContainer"; SRef "chart"].

(** ** The types of React Native's style props

    The props the sheet uses, with the type React Native declares for
    them; a dimension is a number or a percentage string, a colour here
    a hexadecimal one. *)

Inductive prop_kind : Type :=
| KNumber
| KDimension
| KColor
| KEnum (allowed : list string)
| KOffset.                       (** [{width: number; height: number}] *)

Definition prop_kinds : list (string * prop_kind) := [
  ("flex", KNumber); ("fontSize", KNumber); ("borderRadius", KNumber);
  ("borderTopLeftRadius", KNumber); ("borderTopRightRadius", KNumber);
  ("borderBottomWidth", KNumber); ("shadowOpacity", KNumber); ("shadowRadius", KNumber);
  ("elevation", KNumber);
  ("width", KDimension); ("height", KDimension); ("padding", KDimension);
  ("paddingHorizontal", KDimension); ("paddingVertical", KDimension);
  ("marginTop", KDimension); ("marginBottom", KDimension); ("marginLeft", KDimension);
  ("marginVertical", KDimension);
  ("color", KColor); ("backgroundColor", KColor); ("shadowColor", KColor);
  ("borderBottomColor", KColor);
  ("alignItems", KEnum ["flex-start"; "flex-end"; "center"; "stretch"; "baseline"]);
  ("justifyContent", KEnum ["flex-start"; "flex-end"; "center"; "space-between";
                            "space-around"; "space-evenly"]);
  ("flexDirection", KEnum ["row"; "column"; "row-reverse"; "column-reverse"]);
  ("flexWrap", KEnum ["wrap"; "nowrap"; "wrap-reverse"]);
  ("overflow", KEnum ["visible"; "hidden"; "scroll"]);
  ("textAlign", KEnum ["auto"; "left"; "right"; "center"; "justify"]);
  ("fontWeight", KEnum ["normal"; "bold"; "100"; "200"; "300"; "400"; "500"; "600"; "700";
                        "800"; "900"]);
  ("shadowOffset", KOffset)].

Definition is_finite (n : number) : bool := match n with Fin _ _ => true | _ => false end.

(** A percentage: a number followed by [%], as a fraction. *)
Definition percent_value (s : string) : option Q :=
  match rev (list_ascii_of_string s) with
  | "%"%char :: r =>
      match string_to_number (string_of_list_ascii (rev r)) with
      | Fin m e => Some (dec_to_Q m (e - 2))
      | _ => None
      end
  | _ => None
  end.

Definition is_hex_color (s : string) : bool :=
  match list_ascii_of_string s with
  | "#"%char :: ds =>
      existsb (Nat.eqb (length ds)) [3; 4; 6; 8]%nat &&
      forallb (fun c => bool_decide (is_Some (digit_val 16 c))) ds
  | _ => false
  end.

Definition value_ok (k : prop_kind) (v : style_value) : bool :=
  match k, v with
  | KNumber, SNum n | KDimension, SNum n => is_finite n
  | KDimension, SStr s => bool_decide (is_Some (percent_value s))
  | KColor, SStr s => is_hex_color s
  | KEnum allowed, SStr s => existsb (String.eqb s) allowed
  | KOffset, SObj fs =>
      bool_decide (map fst fs = ["width"; "height"]) &&
      forallb (fun kv => match snd kv with SNum n => is_finite n | _ => false end) fs
  | _, _ => false
  end.

Definition prop_ok (k : string) (v : style_value) : bool :=
  match assoc_last k prop_kinds with Some kd => value_ok kd v | None => false end.

Definition style_typed (st : style) : bool := forallb (fun kv => prop_ok (fst kv) (snd kv)) st.

(** A style prop whose references name entries of the sheet and whose
    inline objects are well typed. *)
Fixpoint expr_ok (sh : sheet) (e : style_expr) : bool :=
  match e with
  | SRef n => bool_decide (is_Some (assoc_last n sh))
  | SInline st => style_typed st
  | SArray es => forallb (expr_ok sh) es
  end.

(** ** Flattening preserves typing *)

Section ExprInd.
Variable P : style_expr -> Prop.
Hypothesis P_ref : forall n, P (SRef n).
Hypothesis P_inline : forall st, P (SInline st).
Hypothesis P_array : forall es, Forall P es -> P (SArray es).

Fixpoint style_expr_ind' (e : style_expr) : P e :=
  match e with
  | SRef n => P_ref n
  | SInline st => P_inline st
  | SArray es =>
      P_array es ((fix go (l : list style_expr) : Forall P l :=
                     match l with
                     | [] => List.Forall_nil _
                     | e' :: l' => @List.Forall_cons _ P e' l' (style_expr_ind' e') (go l')
                     end) es)
  end.
End ExprInd.

Lemma set_prop_typed (st : style) (k : string) (v : style_value) :
  style_typed st = true -> prop_ok k v = true -> style_typed (set_prop st k v) = true.
Proof.
  unfold style_typed, set_prop. intros Hst Hkv. destruct (existsb _ _).
  - apply forallb_forall. intros [k' v'] Hin. apply in_map_iff in Hin as ([k'' v''] & Heq & Hin).
    simpl in Heq. destruct (String.eqb_spec k k''); simplify_eq; [done|].
    apply forallb_forall with (x := (k', v')) in Hst; done.
  - rewrite forallb_app, Hst. simpl. by rewrite Hkv.
Qed.

Lemma merge_typed (acc s : style) :
  style_typed acc = true -> style_typed s = true -> style_typed (merge acc s) = true.
Proof.
  unfold merge. revert acc. induction s as [|[k v] s IH]; intros acc Ha Hs; [done|].
  simpl in *. apply andb_true_iff in Hs as [Hkv Hs]. apply IH; [|done].
  by apply set_prop_typed.
Qed.

Lemma flatten_typed (sh : sheet) (e : style_expr) :
  forallb (fun ns => style_typed (snd ns)) sh = true ->
  expr_ok sh e = true -> style_typed (flatten sh e) = true.
Proof.
  intros Hsh. induction e as [n|st|es IH] using style_expr_ind'; simpl; [|done|].
  - destruct (assoc_last n sh) as [st|] eqn:E; [|done]. intros _.
    apply assoc_last_In in E. apply forallb_forall with (x := (n, st)) in Hsh; done.
  - intros Hes. assert (Hacc : style_typed [] = true) by reflexivity. revert Hacc.
    generalize (@nil (string * style_value)). induction IH as [|e es He _ IHes]; intros acc Hacc; [done|].
    simpl in *. apply andb_true_iff in Hes as [He' Hes].
    apply IHes; [done|]. apply merge_typed; auto.
Qed.

(** ** Yoga's line breaking in a wrapping row *)

Section Layout.
Local Open Scope Q_scope.












End Layout.

(** The style props of the render are well typed: every prop names an
    entry of the sheet or is a well-typed inline object, and every
    style built from the sheet in this way, flattened as React Native
    does, has only known properties with values of the declared types. *)
Theorem style_props_well_typed :
  Forall (fun e => expr_ok styles e = true) render_styles /\
  forall e, expr_ok styles e = true -> style_typed (flatten styles e) = true.
Proof.
  split; [repeat constructor|]. intros e. apply flatten_typed. vm_compute. reflexivity.
Qed.


