(* ===== verification/Render.v ===== *)
(** * Render: the body of [WeatherPage]

    One render of the component (src/app/index.tsx, lines 14-236) reads
    the two state cells ([weatherData], [loading]) and returns one of
    three trees: the loading indicator (lines 77-89), the failure
    message (lines 91-102) or the weather presentation (lines 104-235).
    The third branch destructures the payload, picks the background
    image, computes the advisory, and renders every payload field as a
    [Text] child.  Any of these steps may throw on a payload that does
    not have the shape of the [WeatherData] interface, and a throw
    during render is a crash of the screen, not the failure branch.
    [WeatherPage] returns the rendered screen or the throw. *)

From Stdlib Require Import QArith ZArith String Ascii List Btauto.
From stdpp Require Import base strings list decidable.
From S2P Require Import Prelude JsNumber JsValue Advisory Images Chart.

(** ** State cells (lines 31-32) *)

Record hooks : Type := { weatherData : value; loading : bool }.

Definition initial_hooks : hooks := {| weatherData := Null; loading := true |}.

(** ** Static data: [recommendedPlaces] (lines 34-59) *)

Record place : Type := { place_name : string; distance : string; description : string; place_image : string }.

Definition recommendedPlaces : list place :=
  [ {| place_name := "Kathmandu"; distance := "15 KM";
       description := "City full of temples and monkeys"; place_image := "@/assets/images/kathmandu.jpg" |};
    {| place_name := "Chitwan"; distance := "50 KM";
       description := "Meet the wildlife"; place_image := "@/assets/images/kathmandu.jpg" |};
    {| place_name := "Pokhara"; distance := "90 KM";
       description := "Tourist's hub"; place_image := "@/assets/images/kathmandu.jpg" |};
    {| place_name := "Dhangadhi"; distance := "185 KM";
       description := "Beauty of Far-West"; place_image := "@/assets/images/kathmandu.jpg" |} ].

(** ** React children

    A child of a [Text] renders as text: a string as itself, a number as
    [String(n)], an array as its elements in order; [null], [undefined],
    booleans and functions render nothing.  A plain object throws
    ("Objects are not valid as a React child"). *)

Definition invalid_child : string := "Error: Objects are not valid as a React child".

Fixpoint concat_texts (cs : list (completion string)) : completion string :=
  match cs with
  | [] => Normal ""
  | c :: rest => (let? a := c in let? b := concat_texts rest in Normal (a ++ b)%string)%js
  end.

Fixpoint render_child (v : value) : completion string :=
  match v with
  | Undefined | Null | Bool _ | Intrinsic _ => Normal ""
  | Num n => Normal (num_to_string n)
  | Str s => Normal s
  | Arr es => concat_texts (map render_child es)
  | Obj _ => Throw invalid_child
  end.

(** The text of a [Text] element with the given children. *)
Definition text_node (children : list value) : completion string :=
  concat_texts (map render_child children).

(** U+00B0 DEGREE SIGN, one UTF-16 code unit. *)
Definition degC : string := String (ascii_of_nat 176) "C".

(** ** Screens *)

Record weather_view : Type := {
  header_image : image_ref;
  temperature_text : string;
  condition_text : string;
  city_text : string;
  feels_like_text : string;
  detail_texts : list string;
  advisory_text : string;
  places : list place;
  chart : svg
}.

Inductive screen : Type :=
| LoadingView (caption : string)
| FailureView (message : string)
| WeatherView (w : weather_view).

Definition loading_caption : string := "Loading Weather Data...".
Definition failure_message : string := "Failed to load weather data. Please try again later.".

(** The presentation branch, lines 104-235, from the payload [data]. *)
Definition render_weather (data : value) : completion screen :=
  (let? weather := get_prop data "weather" in
   let? weather := require_object_coercible weather in
   let? temperature := get_prop weather "temperature" in
   let? feels_like := get_prop weather "feels_like" in
   let? condition := get_prop weather "condition" in
   let? precipitation_probability := get_prop weather "precipitation_probability" in
   let? wind_speed := get_prop weather "wind_speed" in
   let? atm_pressure := get_prop weather "atm_pressure" in
   let? humidity := get_prop weather "humidity" in
   let? risk_factor := get_prop weather "risk_factor" in
   let? location := get_prop data "location" in
   let? location := require_object_coercible location in
   let? city := get_prop location "city" in
   let? backgroundImage := backgroundImage condition in
   let? sunscreen := sunscreenRecommendation risk_factor in
   let? t_temp := text_node [temperature; Str degC] in
   let? t_cond := text_node [condition] in
   let? t_city := text_node [city] in
   let? t_feels := text_node [Str "Feels Like "; feels_like; Str degC] in
   let? t_prec := text_node [precipitation_probability; Str "% Precipitation"] in
   let? t_wind := text_node [wind_speed; Str " km/hr Wind"] in
   let? t_atm := text_node [atm_pressure; Str " mm Atm Pressure"] in
   let? t_hum := text_node [humidity; Str "% Humidity"] in
   Normal (WeatherView {|
     header_image := backgroundImage;
     temperature_text := t_temp;
     condition_text := t_cond;
     city_text := t_city;
     feels_like_text := t_feels;
     detail_texts := [t_prec; t_wind; t_atm; t_hum];
     advisory_text := sunscreen;
     places := recommendedPlaces;
     chart := renderBarChart chartData |}))%js.

(** One render of [WeatherPage], lines 77-235. *)
Definition WeatherPage (h : hooks) : completion screen :=
  if loading h then Normal (LoadingView loading_caption)
  else if negb (truthy (weatherData h)) then Normal (FailureView failure_message)
  else render_weather (weatherData h).

(** ** Well-formed payloads (spec sections 3 and 6) *)

(** A [WeatherSnapshot] of the specification: the fields of the
    [WeatherData] interface with their declared types. *)
Record snapshot : Type := {
  s_temperature : number;
  s_feels_like : number;
  s_condition : string;
  s_precipitation_probability : number;
  s_wind_speed : number;
  s_atm_pressure : number;
  s_humidity : number;
  s_risk_factor : number;
  s_city : string
}.

(** The JSON body of spec section 6 for a snapshot. *)
Definition payload_of_snapshot (s : snapshot) : value :=
  Obj [("weather", Obj [("temperature", Num (s_temperature s));
                        ("feels_like", Num (s_feels_like s));
                        ("condition", Str (s_condition s));
                        ("precipitation_probability", Num (s_precipitation_probability s));
                        ("wind_speed", Num (s_wind_speed s));
                        ("atm_pressure", Num (s_atm_pressure s));
                        ("humidity", Num (s_humidity s));
                        ("risk_factor", Num (s_risk_factor s))]);
       ("location", Obj [("city", Str (s_city s))])].

(** What the presentation branch shows for a snapshot: every field and
    the advisory as the specification requires (spec section 4.1,
    Rendering, item 3), the image the specification selects for every
    condition that does not name a member of [Object.prototype], and
    for such a name the built-in the lookup reaches, where the code
    departs from the specification ([Images.background_proto_member]). *)
Definition presents (s : snapshot) (w : weather_view) : Prop :=
  temperature_text w = (num_to_string (s_temperature s) ++ degC)%string /\
  condition_text w = s_condition s /\
  city_text w = s_city s /\
  feels_like_text w = ("Feels Like " ++ num_to_string (s_feels_like s) ++ degC)%string /\
  detail_texts w = [(num_to_string (s_precipitation_probability s) ++ "% Precipitation")%string;
                    (num_to_string (s_wind_speed s) ++ " km/hr Wind")%string;
                    (num_to_string (s_atm_pressure s) ++ " mm Atm Pressure")%string;
                    (num_to_string (s_humidity s) ++ "% Humidity")%string] /\
  (exists t, advisory_spec (s_risk_factor s) t /\ advisory_text w = tier_message t) /\
  (~ In (s_condition s) object_proto -> image_spec (s_condition s) (header_image w)) /\
  (In (s_condition s) object_proto -> header_image w = Builtin ("Object.prototype." ++ s_condition s)) /\
  places w = recommendedPlaces /\
  chart w = renderBarChart chartData.

(** The presentation branch either throws or renders the weather
    presentation. *)
Lemma render_weather_view (d : value) :
  on_normal (fun s => exists w, s = WeatherView w) (render_weather d).
Proof. unfold render_weather. on_normal_chain. eauto. Qed.

(** Once [loading] is false the loading indicator is gone. *)
Lemma WeatherPage_settled (h : hooks) :
  loading h = false -> WeatherPage h <> Normal (LoadingView loading_caption).
Proof.
  unfold WeatherPage. intros ->. destruct (truthy _); simpl; [|discriminate].
  pose proof (render_weather_view (weatherData h)) as Hv.
  destruct (render_weather _); simpl in Hv; [destruct Hv as [w ->]|]; discriminate.
Qed.

Lemma render_weather_snapshot (s : snapshot) :
  exists t, advisory_spec (s_risk_factor s) t /\
  render_weather (payload_of_snapshot s) =
  Normal (WeatherView {|
    header_image := match image_lookup (s_condition s) with Some img => img | None => default_image end;
    temperature_text := (num_to_string (s_temperature s) ++ degC)%string;
    condition_text := s_condition s;
    city_text := s_city s;
    feels_like_text := ("Feels Like " ++ num_to_string (s_feels_like s) ++ degC)%string;
    detail_texts := [(num_to_string (s_precipitation_probability s) ++ "% Precipitation")%string;
                     (num_to_string (s_wind_speed s) ++ " km/hr Wind")%string;
                     (num_to_string (s_atm_pressure s) ++ " mm Atm Pressure")%string;
                     (num_to_string (s_humidity s) ++ "% Humidity")%string];
    advisory_text := tier_message t;
    places := recommendedPlaces;
    chart := renderBarChart chartData |}).
Proof.
  destruct (sunscreen_num_spec (s_risk_factor s)) as (t & Ht & Hspec).
  exists t. split; [exact Hspec|].
  unfold render_weather. cbn -[backgroundImage sunscreenRecommendation num_to_string degC].
  rewrite backgroundImage_str, Ht. cbn -[num_to_string degC].
  by autorewrite with weather_rw.
Qed.

(** The presentation branch on a snapshot's body shows what the
    specification requires. *)
Lemma render_weather_presents (s : snapshot) :
  exists w, render_weather (payload_of_snapshot s) = Normal (WeatherView w) /\ presents s w.
Proof.
  destruct (render_weather_snapshot s) as (t & Hspec & Hr).
  eexists. split; [exact Hr|].
  repeat split; try reflexivity.
  - by exists t.
  - intros Hp. by apply image_lookup_spec.
  - apply image_lookup_proto_member.
Qed.

(** C8: a payload of the documented shape renders the weather
    presentation, showing every field verbatim, the advisory of the
    specified tier, the static places and the static chart; its image
    is the one the specification selects when the condition does not
    name a member of [Object.prototype], and the built-in member
    otherwise.  It never throws. *)
Theorem render_snapshot (s : snapshot) :
  exists w, WeatherPage {| weatherData := payload_of_snapshot s; loading := false |} = Normal (WeatherView w) /\
            presents s w.
Proof. apply render_weather_presents. Qed.

(** ** Payloads of another shape *)

(** The keys the presentation branch reads from [weather]. *)
Definition weather_keys : list string :=
  ["temperature"; "feels_like"; "condition"; "precipitation_probability";
   "wind_speed"; "atm_pressure"; "humidity"; "risk_factor"].

Lemma render_no_weather (fs : list (string * value)) :
  assoc_last "weather" fs = None ->
  exists m, WeatherPage {| weatherData := Obj fs; loading := false |} = Throw m.
Proof.
  intros Hw. unfold WeatherPage, render_weather. cbn [loading weatherData truthy negb].
  rewrite (get_prop_absent fs "weather" Hw); [|vm_compute; intuition discriminate].
  simpl. eauto.
Qed.

(** C17: a JSON object without a [weather] member (an error body such as
    [{"error": "..."}], or [{}]) is stored as the snapshot and then
    crashes the render with a TypeError; the specification requires the
    failure message for a malformed response. *)
Theorem render_missing_weather_throws (fs : list (string * value)) :
  assoc_last "weather" fs = None ->
  exists m, WeatherPage {| weatherData := Obj fs; loading := false |} = Throw m.
Proof. apply render_no_weather. Qed.

Lemma render_missing_weather_throws_witness :
  assoc_last "weather" [("error", Str "Internal Server Error")] = None /\
  exists m, WeatherPage {| weatherData := Obj [("error", Str "Internal Server Error")]; loading := false |} = Throw m.
Proof.
  assert (H : assoc_last "weather" [("error", Str "Internal Server Error")] = None) by reflexivity.
  exact (conj H (render_missing_weather_throws _ H)).
Defined.

(** C18: objects that lack every field are rendered, not rejected: the
    screen shows the presentation with empty fields, bare units, the
    default image and the Low advisory, where the specification allows
    no partial rendering of incomplete data. *)
Theorem render_empty_fields (wf lf : list (string * value)) :
  Forall (fun k => assoc_last k wf = None) weather_keys ->
  assoc_last "city" lf = None ->
  WeatherPage {| weatherData := Obj [("weather", Obj wf); ("location", Obj lf)]; loading := false |} =
  Normal (WeatherView {|
    header_image := default_image;
    temperature_text := degC;
    condition_text := "";
    city_text := "";
    feels_like_text := ("Feels Like " ++ degC)%string;
    detail_texts := ["% Precipitation"; " km/hr Wind"; " mm Atm Pressure"; "% Humidity"];
    advisory_text := msg_low;
    places := recommendedPlaces;
    chart := renderBarChart chartData |}).
Proof.
  intros Hw Hc. unfold weather_keys in Hw. repeat rewrite Forall_cons_iff in Hw.
  destruct Hw as (H1 & H2 & H3 & H4 & H5 & H6 & H7 & H8 & _).
  unfold WeatherPage, render_weather. cbn [loading weatherData truthy negb get_prop assoc_last].
  cbn -[get_prop degC].
  rewrite (get_prop_absent _ _ H1), (get_prop_absent _ _ H2), (get_prop_absent _ _ H3),
    (get_prop_absent _ _ H4), (get_prop_absent _ _ H5), (get_prop_absent _ _ H6),
    (get_prop_absent _ _ H7), (get_prop_absent _ _ H8), (get_prop_absent _ _ Hc)
    by (vm_compute; intuition discriminate).
  cbn -[degC]. by autorewrite with weather_rw.
Qed.

Lemma render_empty_fields_witness :
  Forall (fun k => assoc_last (A := value) k [] = None) weather_keys /\
  assoc_last (A := value) "city" [] = None /\
  WeatherPage {| weatherData := Obj [("weather", Obj []); ("location", Obj [])]; loading := false |} =
  Normal (WeatherView {|
    header_image := default_image;
    temperature_text := degC;
    condition_text := "";
    city_text := "";
    feels_like_text := ("Feels Like " ++ degC)%string;
    detail_texts := ["% Precipitation"; " km/hr Wind"; " mm Atm Pressure"; "% Humidity"];
    advisory_text := msg_low;
    places := recommendedPlaces;
    chart := renderBarChart chartData |}).
Proof.
  assert (H1 : Forall (fun k => assoc_last (A := value) k [] = None) weather_keys) by (repeat constructor).
  assert (H2 : assoc_last (A := value) "city" [] = None) by reflexivity.
  exact (conj H1 (conj H2 (render_empty_fields _ _ H1 H2))).
Defined.

(** ** When the render throws *)

(** The values React renders inside a [Text]: no plain object, at any
    depth of arrays. *)
Fixpoint renderable (v : value) : bool :=
  match v with
  | Obj _ => false
  | Arr es => forallb renderable es
  | _ => true
  end.

Lemma concat_texts_normal (cs : list (completion string)) :
  is_normal (concat_texts cs) = forallb is_normal cs.
Proof.
  induction cs as [|c cs IH]; [reflexivity|].
  destruct c; simpl; [|reflexivity]. rewrite <- IH. by destruct (concat_texts cs).
Qed.

Lemma render_child_normal (v : value) : is_normal (render_child v) = renderable v.
Proof.
  induction v using value_ind'; try reflexivity.
  simpl. rewrite concat_texts_normal.
  induction H as [|e es He _ IH]; simpl; [reflexivity|]. by rewrite He, IH.
Qed.

Lemma text_node_normal (vs : list value) : is_normal (text_node vs) = forallb renderable vs.
Proof.
  unfold text_node. rewrite concat_texts_normal.
  induction vs as [|v vs IH]; simpl; [reflexivity|]. by rewrite render_child_normal, IH.
Qed.

(** The fields the presentation prints into [Text] nodes. *)
Definition printed_keys : list string :=
  ["temperature"; "feels_like"; "condition"; "precipitation_probability";
   "wind_speed"; "atm_pressure"; "humidity"].

(** The condition under which the presentation branch renders: both
    [weather] and [location] can be destructured, the condition and the
    risk convert to primitives, and every printed field is a valid
    React child. *)
Definition render_ok (d : value) : bool :=
  let w := field d "weather" in
  let l := field d "location" in
  coercible w && coercible l &&
  convertible (field w "condition") && convertible (field w "risk_factor") &&
  forallb renderable (map (field w) printed_keys) && renderable (field l "city").

(** C22: on a truthy payload the render succeeds exactly when
    [render_ok] holds; every other payload crashes the screen with a
    TypeError or React's invalid-child error, where the specification
    requires the failure message.  In particular a risk factor that is
    an object with an own [toString] member throws at line 129. *)
Theorem render_throws_iff (d : value) :
  truthy d = true ->
  is_normal (WeatherPage {| weatherData := d; loading := false |}) = render_ok d.
Proof.
  intros Ht. unfold WeatherPage. cbn [loading weatherData]. rewrite Ht. cbn [negb].
  assert (Hd : coercible d = true) by (destruct d; simpl in *; congruence).
  unfold render_weather, render_ok.
  rewrite (get_prop_coercible d "weather" Hd). cbn [cbind].
  destruct (coercible (field d "weather")) eqn:Hw;
    [|by destruct (field d "weather")].
  rewrite (require_object_coercible_ok _ Hw). cbn [cbind].
  rewrite !(get_prop_coercible (field d "weather") _ Hw). cbn [cbind].
  rewrite (get_prop_coercible d "location" Hd). cbn [cbind].
  destruct (coercible (field d "location")) eqn:Hl;
    [|by destruct (field d "location")].
  rewrite (require_object_coercible_ok _ Hl). cbn [cbind].
  rewrite (get_prop_coercible (field d "location") _ Hl). cbn [cbind].
  etransitivity; [normal_chain|].
  rewrite backgroundImage_normal, sunscreen_normal, !text_node_normal. simpl.
  rewrite ?andb_true_r. btauto.
Qed.

Lemma render_throws_iff_witness :
  truthy (Obj [("weather", Obj [("risk_factor", Obj [("toString", Num (Fin 1 0))])]);
               ("location", Obj [])]) = true /\
  is_normal (WeatherPage {| weatherData :=
    Obj [("weather", Obj [("risk_factor", Obj [("toString", Num (Fin 1 0))])]);
         ("location", Obj [])]; loading := false |}) =
  render_ok (Obj [("weather", Obj [("risk_factor", Obj [("toString", Num (Fin 1 0))])]);
                  ("location", Obj [])]).
Proof.
  assert (H : truthy (Obj [("weather", Obj [("risk_factor", Obj [("toString", Num (Fin 1 0))])]);
                           ("location", Obj [])]) = true) by reflexivity.
  exact (conj H (render_throws_iff _ H)).
Defined.
