(* ===== verification/Lifecycle.v ===== *)
(** * Lifecycle: mounting, the fetch effect and the state updates

    [useEffect(..., [])] (src/app/index.tsx, lines 61-75) runs once after
    the first commit and starts the async function [fetchWeatherData].
    The function suspends at its two [await]s (lines 64 and 65); each
    resumption runs to the next [await] or to the end, calling
    [setWeatherData(data)] (line 66), [console.error] (line 68) and, in
    [finally], [setLoading(false)] (line 70).  The environment decides
    which promise settles and how, and when the screen unmounts.

    The model is a deterministic machine driven by environment events:
    the program point of the async function ([task]), the committed
    state cells ([Render.hooks]), the mount flag, the console and the
    number of requests issued.  How React turns the state updates of one
    resumption into commits is an interface, [Scheduler]: a renderer
    commits the states after an increasing sequence of prefixes of the
    updates, the last holding all of them ([prefix_schedule]).  React
    18's automatic batching commits them together; the legacy renderer
    commits after each update.  A state update after unmount is
    dropped, as React does. *)

From Stdlib Require Import String List Lia Sorted.
From stdpp Require Import base strings list decidable.
From S2P Require Import Prelude JsNumber JsValue Advisory Images Chart Render.

(** ** State updates and the scheduler interface *)

Inductive update : Type :=
| SetWeatherData (v : value)
| SetLoading (b : bool).

Definition apply_update (h : hooks) (u : update) : hooks :=
  match u with
  | SetWeatherData v => {| weatherData := v; loading := loading h |}
  | SetLoading b => {| weatherData := weatherData h; loading := b |}
  end.

Definition apply_updates (h : hooks) (us : list update) : hooks := fold_left apply_update us h.

(** The prefix lengths a renderer may commit for [k] updates: strictly
    increasing, between 1 and [k], and ending with [k] when there is an
    update. *)
Definition prefix_schedule (k : nat) (ns : list nat) : Prop :=
  StronglySorted lt ns /\ Forall (fun n => 0 < n <= k) ns /\ (0 < k -> exists ns', ns = ns' ++ [k]).

(** What the renderer promises the component: the states it commits
    (and renders) for the updates of one resumption are the states
    after an increasing sequence of prefixes of the updates, the last
    one holding all of them. *)
Class Scheduler : Type := {
  commits : hooks -> list update -> list hooks;
  commits_prefixes : forall h us, exists ns,
      prefix_schedule (length us) ns /\ commits h us = map (fun n => apply_updates h (take n us)) ns
}.

(** Nothing is committed without an update. *)
Lemma commits_nil `{Scheduler} (h : hooks) : commits h [] = [].
Proof.
  destruct (commits_prefixes h []) as (ns & (_ & Hf & _) & ->).
  destruct ns as [|n ns]; [done|]. inversion Hf. simpl in *. lia.
Qed.

(** ** The async function *)

Inductive task : Type :=
| NotStarted      (** the effect has not run *)
| AwaitingFetch   (** suspended at [await fetch(...)], line 64 *)
| AwaitingJson    (** suspended at [await response.json()], line 65 *)
| Finished.       (** returned, after [finally] *)

#[export] Instance task_eq_dec : EqDecision task.
Proof. solve_decision. Defined.

Inductive event : Type :=
| EffectRuns                 (** React runs the mount effect *)
| FetchResolves              (** [fetch] fulfils with a response *)
| FetchRejects (err : string)
| JsonResolves (data : value) (** [response.json()] fulfils with the parsed body *)
| JsonRejects (err : string)  (** the body is not JSON, or reading it fails *)
| Unmount.

Definition error_log (err : string) : string := ("Failed to fetch weather data: " ++ err)%string.

(** One resumption of [fetchWeatherData] (lines 62-72): the next
    program point, the state updates in program order, and the console
    output.  [None]: the event does not resume the function here. *)
Definition resume (t : task) (ev : event) : option (task * list update * list string) :=
  match t, ev with
  | AwaitingFetch, FetchResolves => Some (AwaitingJson, [], [])
  | AwaitingFetch, FetchRejects e => Some (Finished, [SetLoading false], [error_log e])
  | AwaitingJson, JsonResolves d => Some (Finished, [SetWeatherData d; SetLoading false], [])
  | AwaitingJson, JsonRejects e => Some (Finished, [SetLoading false], [error_log e])
  | _, _ => None
  end.

Record page : Type := {
  hooks_of : hooks;
  task_of : task;
  mounted : bool;
  console : list string;
  requests : nat      (** calls of [fetch] issued *)
}.

Definition initial_page : page :=
  {| hooks_of := initial_hooks; task_of := NotStarted; mounted := true; console := []; requests := 0 |}.

Section Machine.
Context `{Scheduler}.

(** One event: the next page and the states committed meanwhile. *)
Definition step (p : page) (ev : event) : option (page * list hooks) :=
  match ev with
  | Unmount =>
      if mounted p then
        Some ({| hooks_of := hooks_of p; task_of := task_of p; mounted := false;
                 console := console p; requests := requests p |}, [])
      else None
  | EffectRuns =>
      if mounted p && bool_decide (task_of p = NotStarted) then
        Some ({| hooks_of := hooks_of p; task_of := AwaitingFetch; mounted := true;
                 console := console p; requests := S (requests p) |}, [])
      else None
  | _ =>
      match resume (task_of p) ev with
      | Some (t', us, logs) =>
          let us' := if mounted p then us else [] in
          Some ({| hooks_of := apply_updates (hooks_of p) us'; task_of := t';
                   mounted := mounted p; console := console p ++ logs;
                   requests := requests p |},
                commits (hooks_of p) us')
      | None => None
      end
  end.

(** A sequence of environment events from a page; an event that is not
    enabled changes nothing.  Returns the final page and every state
    committed on the way. *)
Fixpoint run (p : page) (evs : list event) : page * list hooks :=
  match evs with
  | [] => (p, [])
  | ev :: evs' =>
      match step p ev with
      | Some (p', hs) => let '(p'', hs') := run p' evs' in (p'', hs ++ hs')
      | None => run p evs'
      end
  end.

(** The pages the machine reaches, as a step relation. *)
Inductive reachable : page -> Prop :=
| reach_init : reachable initial_page
| reach_step p ev p' hs : reachable p -> step p ev = Some (p', hs) -> reachable p'.

(** The states some render observes: the first render and every commit. *)
Inductive observed : hooks -> Prop :=
| obs_init : observed initial_hooks
| obs_commit p ev p' hs h : reachable p -> step p ev = Some (p', hs) -> In h hs -> observed h.
End Machine.

#[export] Hint Constructors reachable observed : weather.

(** ** The two renderers *)

(** React 18: the updates of one resumption are batched into one commit. *)
Definition batch_commits (h : hooks) (us : list update) : list hooks :=
  match us with [] => [] | _ => [apply_updates h us] end.

Lemma batch_commits_prefixes (h : hooks) (us : list update) :
  exists ns, prefix_schedule (length us) ns /\
    batch_commits h us = map (fun n => apply_updates h (take n us)) ns.
Proof.
  destruct us as [|u us].
  - exists []. repeat split; [constructor | constructor | simpl; lia].
  - exists [length (u :: us)]. repeat split.
    + repeat constructor.
    + constructor; [simpl; lia | constructor].
    + by exists [].
    + simpl. by rewrite take_ge.
Qed.

#[export] Instance batched : Scheduler := {|
  commits := batch_commits;
  commits_prefixes := batch_commits_prefixes
|}.

(** The legacy renderer outside an event handler: every [setState]
    renders synchronously. *)
Fixpoint prefix_states (h : hooks) (us : list update) : list hooks :=
  match us with
  | [] => []
  | u :: us' => apply_update h u :: prefix_states (apply_update h u) us'
  end.

Lemma seq_prefix_schedule (k : nat) : prefix_schedule k (seq 1 k).
Proof.
  assert (Hs : forall a n, StronglySorted lt (seq a n)).
  { intros a n. revert a. induction n as [|n IH]; intros a; simpl; constructor; [apply IH|].
    apply Forall_forall. intros x Hx. apply in_seq in Hx. lia. }
  repeat split; [apply Hs| |].
  - apply Forall_forall. intros x Hx. apply in_seq in Hx. lia.
  - intros Hk. destruct k as [|k]; [lia|]. exists (seq 1 k). by rewrite seq_S.
Qed.

Lemma prefix_states_prefixes (h : hooks) (us : list update) :
  exists ns, prefix_schedule (length us) ns /\
    prefix_states h us = map (fun n => apply_updates h (take n us)) ns.
Proof.
  exists (seq 1 (length us)). split; [apply seq_prefix_schedule|].
  revert h. induction us as [|u us IH]; intros h; [done|].
  cbn [prefix_states length seq map]. rewrite IH, <- (seq_shift (length us) 1), map_map. reflexivity.
Qed.

Definition unbatched : Scheduler := {|
  commits := prefix_states;
  commits_prefixes := prefix_states_prefixes
|}.

(** ** Invariants of the machine, for every scheduler *)

Section Invariants.
Context `{Sch : Scheduler}.

(** The invariant: before the function finishes the state cells hold
    their initial values; once it finished on a mounted screen,
    [loading] is false; one request exactly once the effect ran. *)
Definition page_inv (p : page) : Prop :=
  (task_of p <> Finished -> hooks_of p = initial_hooks) /\
  (task_of p = Finished -> mounted p = true -> loading (hooks_of p) = false) /\
  requests p = (if bool_decide (task_of p = NotStarted) then 0 else 1)%nat.

Lemma initial_inv : page_inv initial_page.
Proof. repeat split; done. Qed.

Lemma step_inv (p p' : page) (ev : event) (hs : list hooks) :
  page_inv p -> step p ev = Some (p', hs) -> page_inv p'.
Proof.
  destruct p as [h t m c r]. intros (Hpre & Hpost & Hreq) Hs; simpl in *.
  destruct ev, t, m; simpl in Hs; simplify_eq/=;
    repeat split; simpl; intros; try congruence; auto.
Qed.

Lemma reachable_inv (p : page) : reachable p -> page_inv p.
Proof. induction 1; [apply initial_inv | eapply step_inv; eauto]. Qed.
End Invariants.

Section Properties.
Context `{Sch : Scheduler}.

Lemma run_reachable (p : page) (evs : list event) :
  reachable p -> reachable (fst (run p evs)).
Proof.
  revert p. induction evs as [|ev evs IH]; intros p Hp; simpl; [exact Hp|].
  destruct (step p ev) as [[p' hs]|] eqn:E; [|by apply IH].
  destruct (run p' evs) as [p'' hs'] eqn:E'. simpl.
  change p'' with (fst (p'', hs')). rewrite <- E'. apply IH. eauto with weather.
Qed.

(** C24: [fetch] is called at most once per mounted screen, whatever
    the environment does: the effect with [[]] dependencies runs once. *)
Theorem fetch_issued_at_most_once (p : page) : reachable p -> (requests p <= 1)%nat.
Proof.
  intros Hr. destruct (reachable_inv p Hr) as (_ & _ & ->). destruct (bool_decide _); lia.
Qed.

(** C25: once [fetchWeatherData] has returned on a mounted screen,
    [loading] is false, whatever the outcome (the [finally] clause). *)
Theorem loading_false_when_finished (p : page) :
  reachable p -> task_of p = Finished -> mounted p = true -> loading (hooks_of p) = false.
Proof. intros Hr. apply (reachable_inv p Hr). Qed.

End Properties.

Lemma fetch_issued_at_most_once_witness :
  reachable (fst (run initial_page [EffectRuns; FetchResolves])) /\
  (requests (fst (run initial_page [EffectRuns; FetchResolves])) <= 1)%nat.
Proof.
  assert (H : reachable (fst (run initial_page [EffectRuns; FetchResolves])))
    by (apply run_reachable, reach_init).
  exact (conj H (fetch_issued_at_most_once _ H)).
Defined.

Lemma loading_false_when_finished_witness :
  reachable (fst (run initial_page [EffectRuns; FetchRejects "offline"])) /\
  task_of (fst (run initial_page [EffectRuns; FetchRejects "offline"])) = Finished /\
  mounted (fst (run initial_page [EffectRuns; FetchRejects "offline"])) = true /\
  loading (hooks_of (fst (run initial_page [EffectRuns; FetchRejects "offline"]))) = false.
Proof.
  assert (H1 : reachable (fst (run initial_page [EffectRuns; FetchRejects "offline"])))
    by (apply run_reachable, reach_init).
  assert (H2 : task_of (fst (run initial_page [EffectRuns; FetchRejects "offline"])) = Finished)
    by reflexivity.
  assert (H3 : mounted (fst (run initial_page [EffectRuns; FetchRejects "offline"])) = true)
    by reflexivity.
  exact (conj H1 (conj H2 (conj H3 (loading_false_when_finished _ H1 H2 H3)))).
Defined.

(** ** What the renders observe *)

Lemma batched_commits_loaded (p p' : page) (ev : event) (hs : list hooks) :
  @step batched p ev = Some (p', hs) -> Forall (fun h => loading h = false) hs.
Proof.
  destruct p as [h t m c r]. intros Hs.
  destruct ev, t, m; simpl in Hs; simplify_eq/=; repeat constructor.
Qed.

(** C2: with React 18's batching, no render ever sees [loading] true
    together with a stored payload: the observable states are exactly
    the specification's three combinations. *)
Theorem observed_exclusive_batched (h : hooks) :
  @observed batched h -> loading h = true -> weatherData h = Null.
Proof.
  intros Ho Hl. destruct Ho as [|p ev p' hs h _ Hs Hin]; [reflexivity|].
  apply batched_commits_loaded in Hs. rewrite Forall_forall in Hs.
  rewrite (Hs h Hin) in Hl. discriminate.
Qed.

Lemma observed_exclusive_batched_witness :
  @observed batched initial_hooks /\ loading initial_hooks = true /\ weatherData initial_hooks = Null.
Proof.
  assert (H1 : @observed batched initial_hooks) by constructor.
  assert (H2 : loading initial_hooks = true) by reflexivity.
  exact (conj H1 (conj H2 (observed_exclusive_batched _ H1 H2))).
Defined.

(** C27: with the legacy renderer, which commits each [setState] of the
    resumption separately, a render observes [loading] true with the
    payload stored (the specification's excluded combination); that
    render still shows the loading indicator, since [loading] is tested
    first. *)
Theorem unbatched_intermediate_render :
  exists h, @observed unbatched h /\ loading h = true /\ weatherData h <> Null /\
            WeatherPage h = Normal (LoadingView loading_caption).
Proof.
  set (p := fst (@run unbatched initial_page [EffectRuns; FetchResolves])).
  assert (Hr : @reachable unbatched p) by (apply run_reachable, reach_init).
  exists {| weatherData := Obj []; loading := true |}.
  split; [|repeat split; [discriminate]].
  eapply (obs_commit p (JsonResolves (Obj []))); [exact Hr | reflexivity | left; reflexivity].
Qed.

(** ** Termination *)

Definition task_rank (t : task) : nat :=
  match t with NotStarted => 3 | AwaitingFetch => 2 | AwaitingJson => 1 | Finished => 0 end.

Definition measure (p : page) : nat := task_rank (task_of p) + (if mounted p then 1 else 0).

Section Termination.
Context `{Sch : Scheduler}.

Inductive steps : nat -> page -> page -> Prop :=
| steps_refl p : steps 0 p p
| steps_cons n p ev p' hs p'' : step p ev = Some (p', hs) -> steps n p' p'' -> steps (S n) p p''.

Lemma step_measure (p p' : page) (ev : event) (hs : list hooks) :
  step p ev = Some (p', hs) -> (measure p' < measure p)%nat.
Proof.
  destruct p as [h t m c r]. intros Hs.
  destruct ev, t, m; simpl in Hs; simplify_eq/=; unfold measure; simpl; lia.
Qed.

Lemma steps_measure (n : nat) (p p' : page) : steps n p p' -> (n + measure p' <= measure p)%nat.
Proof. induction 1 as [|n p ev p' hs p'' Hs _ IH]; [lia|]. apply step_measure in Hs. lia. Qed.

(** C26: every execution of the lifecycle is finite: from the first
    render, at most four events change anything (the effect, the two
    resumptions, the unmount). *)
Theorem lifecycle_terminates (n : nat) (p : page) : steps n initial_page p -> (n <= 4)%nat.
Proof. intros Hs. apply steps_measure in Hs. change (measure initial_page) with 4%nat in Hs. lia. Qed.
End Termination.

Lemma lifecycle_terminates_witness :
  @steps batched 4 initial_page (fst (@run batched initial_page [EffectRuns; FetchResolves; JsonResolves Null; Unmount])) /\ (4 <= 4)%nat.
Proof.
  assert (H : @steps batched 4 initial_page (fst (@run batched initial_page [EffectRuns; FetchResolves; JsonResolves Null; Unmount]))).
  { eapply (steps_cons _ _ EffectRuns); [reflexivity|].
    eapply (steps_cons _ _ FetchResolves); [reflexivity|].
    eapply (steps_cons _ _ (JsonResolves Null)); [reflexivity|].
    eapply (steps_cons _ _ Unmount); [reflexivity|].
    apply steps_refl. }
  exact (conj H (lifecycle_terminates _ _ H)).
Defined.

(** ** Outcomes of the request *)

Section Outcomes.
Context `{Sch : Scheduler}.

(** C6: when the request and the body succeed, the state becomes the
    parsed body with [loading] false, nothing is logged, one request
    was issued, and the screen is the payload's presentation; a falsy
    body ([null], [false], [0], [""]) shows the failure message. *)
Theorem fetch_success_settles (d : value) :
  hooks_of (fst (run initial_page [EffectRuns; FetchResolves; JsonResolves d])) =
    {| weatherData := d; loading := false |} /\
  console (fst (run initial_page [EffectRuns; FetchResolves; JsonResolves d])) = [] /\
  requests (fst (run initial_page [EffectRuns; FetchResolves; JsonResolves d])) = 1%nat /\
  WeatherPage (hooks_of (fst (run initial_page [EffectRuns; FetchResolves; JsonResolves d]))) =
    if truthy d then render_weather d else Normal (FailureView failure_message).
Proof.
  simpl. repeat split. unfold WeatherPage. simpl. by destruct (truthy d).
Qed.

(** The state a failed request leaves. *)
Definition failed_with (e : string) (p : page) : Prop :=
  hooks_of p = {| weatherData := Null; loading := false |} /\
  console p = [error_log e] /\
  WeatherPage (hooks_of p) = Normal (FailureView failure_message).

(** C5: a rejected request and a body that is not JSON end in the
    same state and the same failure message; the error is logged to
    the console, never shown. *)
Theorem fetch_failures_uniform (e : string) :
  failed_with e (fst (run initial_page [EffectRuns; FetchRejects e])) /\
  failed_with e (fst (run initial_page [EffectRuns; FetchResolves; JsonRejects e])).
Proof. repeat split. Qed.
End Outcomes.
