(* ===== verification/Liveness.v ===== *)
(** * Liveness: the loading indicator goes away

    The safety theorems of [Lifecycle] say what holds once
    [fetchWeatherData] has returned; this file proves that it does
    return.  The environment is demonic: while the function is
    suspended, any enabled event may come next (either outcome of each
    promise, the unmount), and all of them are considered.  The only
    assumption is progress: a suspended function is eventually resumed
    (every promise settles), and a mounted component's mount effect
    runs (React flushes pending passive effects before it commits
    anything else, so the effect runs before an unmount).

    The statement uses the [eventually] combinator of omnisemantics
    (coqutil's [Semantics.OmniSmallstepCombinators]): from a state, a
    predicate holds now, or the environment can move and every move
    leads to a state from which it eventually holds. *)

From Stdlib Require Import String List Lia Arith.
From stdpp Require Import base strings list decidable.
From S2P Require Import Prelude JsNumber JsValue Render Lifecycle.

(** ** The combinator *)

Section Eventually.
Context {State : Type} (env_step : State -> (State -> Prop) -> Prop).

Inductive eventually (P : State -> Prop) (s : State) : Prop :=
| eventually_done : P s -> eventually P s
| eventually_step (midset : State -> Prop) :
    env_step s midset -> (forall mid, midset mid -> eventually P mid) -> eventually P s.
End Eventually.

(** ** The environment of the component *)

Section Environment.
Context `{Sch : Scheduler}.

(** The moves of the environment from [p]: any enabled event, except
    that a component whose effect has not run moves by running it. *)
Definition env_next (p q : page) : Prop :=
  exists ev hs, step p ev = Some (q, hs) /\ (task_of p = NotStarted -> ev = EffectRuns).

(** A suspended function is resumed: some move is enabled, and every
    move leads into [post]. *)
Definition env_step (p : page) (post : page -> Prop) : Prop :=
  task_of p <> Finished /\ (exists q, env_next p q) /\ (forall q, env_next p q -> post q).

(** The function has returned and, on a mounted screen, the loading
    indicator is gone. *)
Definition settled (p : page) : Prop :=
  task_of p = Finished /\
  (mounted p = true -> WeatherPage (hooks_of p) <> Normal (LoadingView loading_caption)).

Lemma env_next_started (p q : page) : env_next p q -> task_of q <> NotStarted.
Proof.
  intros (ev & hs & Hs & Hev). destruct p as [h t m c r]; simpl in *.
  destruct t; [specialize (Hev eq_refl); subst ev; destruct m|destruct ev, m..];
    simpl in Hs; simplify_eq/=; done.
Qed.

(** A pending function can always be resumed. *)
Lemma env_next_enabled (p : page) :
  task_of p <> Finished -> (task_of p = NotStarted -> mounted p = true) -> exists q, env_next p q.
Proof.
  destruct p as [h t m c r]; simpl. intros Hf Hns.
  destruct t; [|eexists _, FetchResolves, _ |eexists _, (JsonRejects ""), _|done];
    try (split; [reflexivity | discriminate]).
  rewrite (Hns eq_refl). eexists _, EffectRuns, _. split; [reflexivity | done].
Qed.

Lemma reachable_settled (p : page) : reachable p -> task_of p = Finished -> settled p.
Proof.
  intros Hr Hf. split; [exact Hf|]. intros Hm.
  apply WeatherPage_settled. by apply (reachable_inv p Hr).
Qed.
End Environment.

(** C7: liveness.  From every reachable state of the component in
    which the mount effect can still run, whatever the environment does
    (the outcome of each promise, an unmount at any point), as long as
    pending promises settle, [fetchWeatherData] returns and a mounted
    screen stops showing the loading indicator: the [finally] clause
    runs on every path and nothing else keeps the function suspended. *)
Theorem loading_eventually_ends `{Sch : Scheduler} (p : page) :
  reachable p -> (task_of p = NotStarted -> mounted p = true) ->
  eventually env_step settled p.
Proof.
  remember (measure p) as k eqn:Hk. revert p Hk.
  induction k as [k IH] using lt_wf_ind. intros p -> Hr Hns.
  destruct (decide (task_of p = Finished)) as [Hf|Hf];
    [by apply eventually_done, reachable_settled|].
  apply (eventually_step _ _ _ (env_next p)); [split; [|split]; auto using env_next_enabled|].
  intros q Hq. pose proof (env_next_started p q Hq) as Hq'.
  destruct Hq as (ev & hs & Hs & _).
  apply (IH (measure q)); [exact (step_measure p q ev hs Hs) | reflexivity | eauto with weather | done].
Qed.

Lemma loading_eventually_ends_witness :
  @reachable batched initial_page /\ (task_of initial_page = NotStarted -> mounted initial_page = true) /\
  eventually (@env_step batched) (@settled) initial_page.
Proof.
  assert (H1 : @reachable batched initial_page) by constructor.
  assert (H2 : task_of initial_page = NotStarted -> mounted initial_page = true) by reflexivity.
  exact (conj H1 (conj H2 (loading_eventually_ends initial_page H1 H2))).
Defined.
