(* ===== verification/Refinement.v ===== *)
(** * Refinement: the component against the specification's contract

    The specification (section 4.1) describes WeatherView as a machine
    with three observable states: loading, failed, and showing a
    snapshot, with one transition out of loading, labelled by the
    outcome of the request: a failure leads to the failure state, a
    body of the documented shape to the presentation of its snapshot.
    This file states that machine ([astep]) and the environment the
    specification assumes ([env_trace]: the effect runs, [fetch]
    settles, then the reading of the body settles, anything may follow),
    relates the machine to the pages of [Lifecycle] ([abs_rel]) and
    proves that every run of the component in that environment ends in
    the state the machine takes for the run's outcome, with the screen
    that state prescribes.  It then follows the screens a run shows, in
    order: under every [Scheduler] and every order of events, each
    commit renders the screen of an abstract state, and these states
    form a path of the machine, so the intermediate state of the legacy
    renderer is harmless.  [Render.render_missing_weather_throws] shows
    that the hypothesis on the payloads cannot be dropped. *)

From Stdlib Require Import String List Lia Relations Sorted.
From stdpp Require Import base strings list decidable.
From S2P Require Import Prelude JsNumber JsValue Advisory Images Chart Render Lifecycle.

(** ** The abstract machine *)

Inductive aview : Type :=
| ALoading
| AFailed
| AShown (s : snapshot).

(** The outcome of the request, the label of the one transition out of
    loading: a failure ([fetch] or reading the body rejects), or the
    parsed body. *)
Inductive outcome : Type :=
| OFailed
| OData (d : value).

(** Loading goes to the failure state on a failure and to the
    presentation of a snapshot on its body (spec section 4.1). *)
Inductive astep : aview -> outcome -> aview -> Prop :=
| astep_fail : astep ALoading OFailed AFailed
| astep_show s : astep ALoading (OData (payload_of_snapshot s)) (AShown s).

Definition astar : aview -> aview -> Prop := clos_refl_trans aview (fun a b => exists o, astep a o b).

(** The state the machine is in after the outcome of the request, if
    there is one yet. *)
Definition after_outcome (o : option outcome) (a : aview) : Prop :=
  match o with
  | None => a = ALoading
  | Some o => astep ALoading o a
  end.

(** ** The environment's side of the contract

    The specification's environment (sections 3 and 6): the screen is
    mounted, its effect runs, [fetch] settles, and when it fulfils the
    reading of the body settles.  The outcome is the first rejection or
    the parsed body; whatever happens afterwards (an unmount, stray
    settlements) is arbitrary. *)
Inductive env_trace : list event -> option outcome -> Prop :=
| env_idle : env_trace [] None
| env_effect : env_trace [EffectRuns] None
| env_responded : env_trace [EffectRuns; FetchResolves] None
| env_fetch_rejects e rest : env_trace (EffectRuns :: FetchRejects e :: rest) (Some OFailed)
| env_json_rejects e rest :
    env_trace (EffectRuns :: FetchResolves :: JsonRejects e :: rest) (Some OFailed)
| env_json_resolves d rest :
    env_trace (EffectRuns :: FetchResolves :: JsonResolves d :: rest) (Some (OData d)).

(** The screen the specification prescribes for an abstract state. *)
Definition screen_spec (a : aview) (c : completion screen) : Prop :=
  match a with
  | ALoading => c = Normal (LoadingView loading_caption)
  | AFailed => c = Normal (FailureView failure_message)
  | AShown s => exists w, c = Normal (WeatherView w) /\ presents s w
  end.

(** ** The abstraction relation *)

Definition abs_rel (p : page) (a : aview) : Prop :=
  match a with
  | ALoading => hooks_of p = initial_hooks
  | AFailed => hooks_of p = {| weatherData := Null; loading := false |}
  | AShown s => hooks_of p = {| weatherData := payload_of_snapshot s; loading := false |}
  end.

(** The endpoint keeps to the documented body (spec section 6). *)
Definition wf_event (ev : event) : Prop :=
  match ev with
  | JsonResolves d => exists s, d = payload_of_snapshot s
  | _ => True
  end.

(** ** Final states *)

Section FinalStates.
Context `{Sch : Scheduler}.

(** A page whose function has not returned is abstracted by loading. *)
Lemma abs_rel_finished (p : page) (a : aview) :
  reachable p -> abs_rel p a -> task_of p <> Finished -> a = ALoading.
Proof.
  intros Hr Ha Ht. destruct (reachable_inv p Hr) as (Hpre & _ & _).
  specialize (Hpre Ht). destruct a; simpl in Ha; rewrite Hpre in Ha; try done.
Qed.

(** A run of [pre ++ evs] runs [evs] from the page [pre] leads to. *)
Lemma run_app_fst (p : page) (pre evs : list event) :
  fst (run p (pre ++ evs)) = fst (run (fst (run p pre)) evs).
Proof.
  revert p. induction pre as [|ev pre IH]; intros p; simpl; [done|].
  destruct (step p ev) as [[p' hs]|]; [|apply IH].
  specialize (IH p'). destruct (run p' (pre ++ evs)), (run p' pre). exact IH.
Qed.

(** Once [fetchWeatherData] has returned, no event changes the state. *)
Lemma run_finished_hooks (p : page) (evs : list event) :
  task_of p = Finished -> hooks_of (fst (run p evs)) = hooks_of p.
Proof.
  revert p. induction evs as [|ev evs IH]; intros [h t m c r] Ht; simpl in Ht; subst t; [done|].
  change (ev :: evs) with ([ev] ++ evs). rewrite run_app_fst.
  destruct ev, m; simpl; rewrite ?IH; done.
Qed.

(** The events after the return of [fetchWeatherData] leave its state. *)
Lemma run_after_finished (pre evs : list event) :
  task_of (fst (run initial_page pre)) = Finished ->
  hooks_of (fst (run initial_page (pre ++ evs))) = hooks_of (fst (run initial_page pre)).
Proof. intros H. by rewrite run_app_fst, run_finished_hooks. Qed.

Lemma render_abs (p : page) (a : aview) : abs_rel p a -> screen_spec a (WeatherPage (hooks_of p)).
Proof.
  destruct a as [| |s]; simpl; intros ->; try reflexivity.
  apply render_weather_presents.
Qed.

(** C1: as long as the endpoint sends bodies of the documented shape,
    every run of the component in the specification's environment ends
    in the state the abstract machine takes for the outcome of the
    request (loading while there is none, the failure state after a
    rejection of [fetch] or of the body, the presentation of the
    snapshot the body holds), whatever happens after the outcome, and
    the screen rendered there is the one the abstract state
    prescribes. *)
Theorem component_refines_spec (evs : list event) (o : option outcome) :
  env_trace evs o -> Forall wf_event evs ->
  exists a, after_outcome o a /\ abs_rel (fst (run initial_page evs)) a /\
            screen_spec a (WeatherPage (hooks_of (fst (run initial_page evs)))).
Proof.
  intros Henv Hwf.
  enough (Hex : exists a, after_outcome o a /\ abs_rel (fst (run initial_page evs)) a).
  { destruct Hex as (a & Ho & Ha). exists a. split; [done|]. split; [done|]. by apply render_abs. }
  destruct Henv; [by exists ALoading..| | |].
  - exists AFailed. split; [constructor|].
    change (EffectRuns :: FetchRejects e :: rest) with ([EffectRuns; FetchRejects e] ++ rest).
    cbn [abs_rel]; rewrite run_after_finished; simpl; rewrite ?commits_nil; done.
  - exists AFailed. split; [constructor|].
    change (EffectRuns :: FetchResolves :: JsonRejects e :: rest)
      with ([EffectRuns; FetchResolves; JsonRejects e] ++ rest).
    cbn [abs_rel]; rewrite run_after_finished; simpl; rewrite ?commits_nil; done.
  - apply Forall_cons_iff in Hwf as [_ Hwf]. apply Forall_cons_iff in Hwf as [_ Hwf].
    apply Forall_cons_iff in Hwf as [[s ->] _]. exists (AShown s). split; [constructor|].
    change (EffectRuns :: FetchResolves :: JsonResolves (payload_of_snapshot s) :: rest)
      with ([EffectRuns; FetchResolves; JsonResolves (payload_of_snapshot s)] ++ rest).
    cbn [abs_rel]; rewrite run_after_finished; simpl; rewrite ?commits_nil; done.
Qed.
End FinalStates.

(** ** The screens of a run *)

(** A path of the abstract machine from [a] through the states [l],
    each reached from the previous one (possibly by stuttering). *)
Fixpoint path (a : aview) (l : list aview) : Prop :=
  match l with
  | [] => True
  | b :: l' => astar a b /\ path b l'
  end.

Lemma path_app (a b : aview) (l1 l2 : list aview) :
  path a (l1 ++ [b]) -> path b l2 -> path a (l1 ++ l2).
Proof.
  revert a. induction l1 as [|c l1 IH]; intros a; simpl.
  - intros [Hab _]. destruct l2 as [|d l2]; simpl; [done|].
    intros [Hbd Hl2]. split; [eapply rt_trans; eauto | done].
  - intros [Hac Hl1] Hl2. split; [done|]. by apply (IH c).
Qed.

Lemma path_app_l (a : aview) (l1 l2 : list aview) : path a (l1 ++ l2) -> path a l1.
Proof. revert a. induction l1 as [|c l1 IH]; intros a; simpl; [done|]. intros [? ?]. split; [done|]. by apply IH. Qed.

Lemma Forall2_map_same {A C D : Type} (R : C -> D -> Prop) (f : A -> C) (g : A -> D) (l : list A) :
  Forall (fun x => R (f x) (g x)) l -> Forall2 R (map f l) (map g l).
Proof. induction 1; constructor; auto. Qed.

(** A sorted schedule of commits is a path when the abstract state of a
    prefix grows with its length. *)
Lemma path_schedule (f : nat -> aview) (a a' : aview) (ns : list nat) :
  StronglySorted lt ns ->
  (forall n, In n ns -> astar a (f n) /\ astar (f n) a') -> astar a a' ->
  (forall n m, In n ns -> In m ns -> (n < m)%nat -> astar (f n) (f m)) ->
  path a (map f ns ++ [a']).
Proof.
  revert a. induction ns as [|n ns IH]; intros a Hs Hin Haa Hmono; simpl; [done|].
  apply StronglySorted_inv in Hs as [Hs Hlt]. rewrite Forall_forall in Hlt.
  split; [apply Hin; by left|].
  apply IH; [done | | apply Hin; by left | intros; apply Hmono; auto with datatypes].
  intros m Hm. split; [apply Hmono; auto with datatypes | apply Hin; by right].
Qed.

Section Screens.
Context `{Sch : Scheduler}.

(** The commits of the updates [us] of one resumption from the first
    state follow the abstract machine from [ALoading] to [a'] when each
    prefix is rendered as the screen of an abstract state [f n] that
    grows with [n]. *)
Lemma commits_screens (us : list update) (f : nat -> aview) (a' : aview) :
  (forall n, (0 < n <= length us)%nat ->
     astar ALoading (f n) /\ astar (f n) a' /\
     screen_spec (f n) (WeatherPage (apply_updates initial_hooks (take n us)))) ->
  (forall n m, (0 < n < m)%nat -> (m <= length us)%nat -> astar (f n) (f m)) ->
  astar ALoading a' ->
  exists l, Forall2 screen_spec l (map WeatherPage (commits initial_hooks us)) /\
            path ALoading (l ++ [a']).
Proof.
  intros Hf Hmono Ha. destruct (commits_prefixes initial_hooks us) as (ns & (Hs & Hb & _) & ->).
  rewrite Forall_forall in Hb. exists (map f ns). split.
  - rewrite map_map. apply Forall2_map_same, Forall_forall. intros n Hn. apply Hf, Hb, Hn.
  - apply path_schedule; [done | | done |].
    + intros n Hn. destruct (Hf n (Hb n Hn)) as (? & ? & _). done.
    + intros n m Hn Hm Hnm. apply Hmono; [pose proof (Hb n Hn) | pose proof (Hb m Hm)]; lia.
Qed.

Lemma astar_loading (a : aview) : astar ALoading a.
Proof. destruct a; [apply rt_refl | apply rt_step; eexists; constructor..]. Qed.

(** A failed settlement: [setLoading(false)] alone. *)
Lemma failure_screens :
  exists l, Forall2 screen_spec l (map WeatherPage (commits initial_hooks [SetLoading false])) /\
            path ALoading (l ++ [AFailed]).
Proof.
  apply (commits_screens _ (fun _ => AFailed)); [|intros; apply rt_refl | apply astar_loading].
  intros n Hn. simpl in Hn. replace n with 1%nat by lia.
  repeat split; [apply astar_loading | apply rt_refl].
Qed.

(** A successful settlement: [setWeatherData(data)], then
    [setLoading(false)]; the first prefix still shows the loading
    indicator. *)
Lemma success_screens (s : snapshot) :
  exists l, Forall2 screen_spec l (map WeatherPage
              (commits initial_hooks [SetWeatherData (payload_of_snapshot s); SetLoading false])) /\
            path ALoading (l ++ [AShown s]).
Proof.
  apply (commits_screens _ (fun n => if (n <=? 1)%nat then ALoading else AShown s));
    [|intros n m Hnm Hm; simpl in Hm; destruct (Nat.leb_spec n 1), (Nat.leb_spec m 1); try lia; apply astar_loading
     | apply astar_loading].
  intros n Hn. simpl in Hn. destruct (Nat.leb_spec n 1).
  - replace n with 1%nat by lia. repeat split; apply astar_loading.
  - replace n with 2%nat by lia. repeat split; [apply astar_loading | apply rt_refl |].
    apply (render_abs {| hooks_of := {| weatherData := payload_of_snapshot s; loading := false |};
                         task_of := Finished; mounted := true; console := []; requests := 1 |}).
    reflexivity.
Qed.

(** One step: the commits it renders and its final state follow the
    abstract machine from the state of the page before it. *)
Lemma step_screens (p p' : page) (a : aview) (ev : event) (hs : list hooks) :
  reachable p -> abs_rel p a -> wf_event ev -> step p ev = Some (p', hs) ->
  exists l a', abs_rel p' a' /\ Forall2 screen_spec l (map WeatherPage hs) /\ path a (l ++ [a']).
Proof.
  intros Hr Ha Hwf Hs.
  destruct (decide (task_of p = Finished)) as [Hf|Hf].
  - exists [], a. destruct p as [h t m c r]; simpl in *; subst t.
    destruct ev, m; simpl in Hs; simplify_eq/=; repeat split; try done; apply rt_refl.
  - pose proof (abs_rel_finished p a Hr Ha Hf) as ->. simpl in Ha.
    destruct p as [h t m c r]; simpl in *; subst h.
    destruct ev, t, m; simpl in Hs; simplify_eq/=; rewrite ?commits_nil;
      try (exists [], ALoading; repeat split; [constructor | apply rt_refl]).
    + destruct failure_screens as (l & ? & ?). by exists l, AFailed.
    + destruct Hwf as [s ->]. destruct (success_screens s) as (l & ? & ?). by exists l, (AShown s).
    + destruct failure_screens as (l & ? & ?). by exists l, AFailed.
Qed.

Lemma run_screens (p : page) (a : aview) (evs : list event) :
  reachable p -> abs_rel p a -> Forall wf_event evs ->
  exists l a', abs_rel (fst (run p evs)) a' /\
    Forall2 screen_spec l (map WeatherPage (snd (run p evs))) /\ path a (l ++ [a']).
Proof.
  revert p a. induction evs as [|ev evs IH]; intros p a Hr Ha Hwf; simpl.
  - exists [], a. repeat split; [done | constructor | apply rt_refl].
  - apply Forall_cons_iff in Hwf as [Hev Hwf].
    destruct (step p ev) as [[p' hs]|] eqn:Hs; [|by apply IH].
    destruct (step_screens p p' a ev hs Hr Ha Hev Hs) as (l1 & a1 & Ha1 & Hf1 & Hp1).
    destruct (IH p' a1 (reach_step p ev p' hs Hr Hs) Ha1 Hwf) as (l2 & a2 & Ha2 & Hf2 & Hp2).
    destruct (run p' evs) as [p'' hs'] eqn:E. simpl in *.
    exists (l1 ++ l2), a2. split; [done|]. split.
    + rewrite map_app. by apply Forall2_app.
    + rewrite <- app_assoc. by apply path_app with a1.
Qed.

(** C3: whatever renderer commits the state updates (React 18's
    batching or the legacy renderer that renders after each
    [setState]), as long as the endpoint sends bodies of the documented
    shape, the sequence of screens a run shows (the first render and
    every commit, in order) is a path of the specification's machine:
    the loading indicator, then at most one change to the failure
    message or to the presentation of the snapshot.  The legacy
    renderer's intermediate state ([loading] with a stored payload)
    shows the loading indicator, so no render shows anything the
    specification excludes. *)
Theorem screens_follow_spec (evs : list event) :
  Forall wf_event evs ->
  exists l, Forall2 screen_spec l (map WeatherPage (initial_hooks :: snd (run initial_page evs))) /\
            path ALoading l.
Proof.
  intros Hwf. destruct (run_screens initial_page ALoading evs reach_init eq_refl Hwf) as (l & a & _ & Hf & Hp).
  exists (ALoading :: l). split; [constructor; [reflexivity | done]|].
  split; [apply rt_refl|]. by apply path_app_l with [a].
Qed.
End Screens.

Definition sample_snapshot : snapshot :=
  {| s_temperature := Fin 21 0; s_feels_like := Fin 195 (-1); s_condition := "Sunny";
     s_precipitation_probability := Fin 10 0; s_wind_speed := Fin 12 0;
     s_atm_pressure := Fin 760 0; s_humidity := Fin 40 0; s_risk_factor := Fin 5 0;
     s_city := "Kathmandu" |}.

Definition sample_events : list event :=
  [EffectRuns; FetchResolves; JsonResolves (payload_of_snapshot sample_snapshot); Unmount].

Lemma component_refines_spec_witness :
  env_trace sample_events (Some (OData (payload_of_snapshot sample_snapshot))) /\
  Forall wf_event sample_events /\
  exists a, after_outcome (Some (OData (payload_of_snapshot sample_snapshot))) a /\
    abs_rel (fst (@run batched initial_page sample_events)) a /\
    screen_spec a (WeatherPage (hooks_of (fst (@run batched initial_page sample_events)))).
Proof.
  assert (H1 : env_trace sample_events (Some (OData (payload_of_snapshot sample_snapshot))))
    by constructor.
  assert (H2 : Forall wf_event sample_events) by (repeat constructor; by exists sample_snapshot).
  exact (conj H1 (conj H2 (@component_refines_spec batched _ _ H1 H2))).
Defined.

Lemma screens_follow_spec_witness :
  Forall wf_event [EffectRuns; FetchResolves; JsonResolves (payload_of_snapshot sample_snapshot)] /\
  exists l, Forall2 screen_spec l (map WeatherPage (initial_hooks ::
      snd (@run unbatched initial_page [EffectRuns; FetchResolves; JsonResolves (payload_of_snapshot sample_snapshot)]))) /\
    path ALoading l.
Proof.
  assert (H : Forall wf_event [EffectRuns; FetchResolves; JsonResolves (payload_of_snapshot sample_snapshot)]).
  { repeat constructor. by exists sample_snapshot. }
  exact (conj H (@screens_follow_spec unbatched _ H)).
Defined.
