(* ===== verification/DataSource.v ===== *)
(** * DataSource: the weather endpoint, [fetch] and [response.json()]

    [fetchWeatherData] (src/app/index.tsx, lines 62 to 72) awaits
    [fetch(...)] and then [response.json()]; it reads neither
    [response.ok] nor [response.status].  This file models what reaches
    the component from the endpoint: a response ([Json.response]) is a
    status and a body, [response.json()] is [JSON.parse] of the body
    ([Json.response_json]), and each outcome of the request is the
    sequence of [Lifecycle] events the two awaits produce.  The
    endpoint is modelled from the specification: a response whose body
    is [JSON.stringify] of a snapshot payload.

    The theorems follow a request from the network to the screen: the
    endpoint's snapshot is shown as the specification requires, a body
    that is not JSON gives the failure screen, and a JSON body without
    [weather] (an error body, whatever the status) crashes the render. *)

From Stdlib Require Import QArith ZArith String Ascii List Lia.
From stdpp Require Import base strings list decidable.
From S2P Require Import Prelude JsNumber NumberCanon JsValue Json Advisory Render Lifecycle.

(** ** Outcomes of the request *)

(** How [await fetch(...)] (line 64) settles. *)
Inductive fetch_outcome : Type :=
| Responded (r : response)
| NetworkError (err : string).

(** The settlement of [response.json()]: fulfilled with the parsed body
    or rejected with the parse error. *)
Definition json_event (r : response) : event :=
  match response_json r with Normal d => JsonResolves d | Throw e => JsonRejects e end.

(** The events the two awaits of [fetchWeatherData] produce. *)
Definition outcome_events (o : fetch_outcome) : list event :=
  match o with
  | Responded r => [FetchResolves; json_event r]
  | NetworkError e => [FetchRejects e]
  end.

Section Load.
Context `{Sch : Scheduler}.

(** The page after the mount effect and the settlement of the request. *)
Definition load (o : fetch_outcome) : page := fst (run initial_page (EffectRuns :: outcome_events o)).
End Load.

(** ** Snapshots the endpoint can send *)

Definition is_fin (x : number) : bool := match x with Fin _ _ => true | _ => false end.

(** The numbers of a snapshot are finite: [JSON.stringify] writes
    [null] for the others. *)
Definition snapshot_finite (s : snapshot) : bool :=
  is_fin (s_temperature s) && is_fin (s_feels_like s) && is_fin (s_precipitation_probability s) &&
  is_fin (s_wind_speed s) && is_fin (s_atm_pressure s) && is_fin (s_humidity s) && is_fin (s_risk_factor s).

(** Two snapshots with the same strings and numbers of the same value. *)
Definition snapshot_eq (s s' : snapshot) : Prop :=
  num_eq (s_temperature s) (s_temperature s') /\ num_eq (s_feels_like s) (s_feels_like s') /\
  s_condition s = s_condition s' /\
  num_eq (s_precipitation_probability s) (s_precipitation_probability s') /\
  num_eq (s_wind_speed s) (s_wind_speed s') /\ num_eq (s_atm_pressure s) (s_atm_pressure s') /\
  num_eq (s_humidity s) (s_humidity s') /\ num_eq (s_risk_factor s) (s_risk_factor s') /\
  s_city s = s_city s'.

(** ** The payload read back *)

Lemma payload_wf (s : snapshot) : snapshot_finite s = true -> json_wf (payload_of_snapshot s) = true.
Proof.
  unfold snapshot_finite. intros H. repeat apply andb_prop in H as [H ?].
  unfold json_wf, payload_of_snapshot. cbn [is_json keys_distinct forallb snd].
  repeat match goal with
  | Hx : is_fin ?x = true |- _ => destruct x; try discriminate Hx; clear Hx
  end.
  reflexivity.
Qed.

(** Inversion of [json_eq] on a value of known shape. *)
Ltac invert_json_eq :=
  repeat match goal with
  | H : Forall2 _ (_ :: _) _ |- _ => inversion H; subst; clear H
  | H : Forall2 _ [] _ |- _ => inversion H; subst; clear H
  | p : (string * value)%type |- _ => destruct p
  | H : _ /\ _ |- _ => destruct H
  | H : fst (_, _) = fst (_, _) |- _ => cbn [fst] in H; subst
  | H : json_eq (snd (_, _)) _ |- _ => cbn [snd] in H
  | H : json_eq _ (snd (_, _)) |- _ => cbn [snd] in H
  | H : json_eq (Obj _) _ |- _ => inversion H; subst; clear H
  | H : json_eq (Str _) _ |- _ => inversion H; subst; clear H
  | H : json_eq (Num _) _ |- _ => inversion H; subst; clear H
  end.

Lemma payload_json_eq (s : snapshot) (v : value) :
  json_eq (payload_of_snapshot s) v -> exists s', v = payload_of_snapshot s' /\ snapshot_eq s s'.
Proof.
  unfold payload_of_snapshot. intros H. invert_json_eq.
  eexists (Build_snapshot _ _ _ _ _ _ _ _ _). split; [reflexivity|].
  unfold snapshot_eq; cbn. by repeat split.
Qed.

(** Presentation depends on the values of the numbers only. *)
Lemma presents_snapshot_eq (s s' : snapshot) (w : weather_view) :
  snapshot_eq s s' -> presents s' w -> presents s w.
Proof.
  intros (H1 & H2 & H3 & H4 & H5 & H6 & H7 & H8 & H9).
  unfold presents. rewrite !(num_to_string_num_eq _ _ H1), (num_to_string_num_eq _ _ H2),
    (num_to_string_num_eq _ _ H4), (num_to_string_num_eq _ _ H5), (num_to_string_num_eq _ _ H6),
    (num_to_string_num_eq _ _ H7), H3, H9.
  intros (? & ? & ? & ? & ? & (t & Ht & ?) & ?). repeat (split; [done|]).
  split; [|done]. exists t. split; [|done]. by apply (advisory_spec_num_eq _ _ _ (symmetry H8)).
Qed.

(** A JSON object whose keys are those of [fs] has no [weather] member
    when [fs] has none. *)
Lemma json_eq_obj_keys (fs : list (string * value)) (v : value) :
  json_eq (Obj fs) v -> exists fs', v = Obj fs' /\ map fst fs' = map fst fs.
Proof.
  intros H. inversion H as [| | | | |? fs' Hall]; subst; clear H. exists fs'. split; [done|].
  induction Hall as [|kv kv' l l' [Hk _] _ IH]; simpl; [done|]. rewrite Hk, IH. done.
Qed.

Section Outcomes.
Context `{Sch : Scheduler}.

Lemma load_parsed (r : response) (d : value) :
  response_json r = Normal d ->
  hooks_of (load (Responded r)) = {| weatherData := d; loading := false |} /\ console (load (Responded r)) = [].
Proof. intros Hj. unfold load. simpl. unfold json_event. rewrite Hj. by split. Qed.

Lemma load_rejected (r : response) (e : string) :
  response_json r = Throw e -> failed_with e (load (Responded r)).
Proof. intros Hj. unfold load. simpl. unfold json_event. rewrite Hj. by repeat split. Qed.
End Outcomes.

(** ** From the endpoint to the screen *)

Section EndToEnd.
Context `{Sch : Scheduler}.

(** C4: functional correctness of the whole request.  When the
    endpoint answers with [JSON.stringify] of a snapshot with finite
    numbers, whatever the status, the mount effect, [fetch] and
    [response.json()] leave a settled page with nothing logged, whose
    render is the presentation branch showing that snapshot as
    [presents] describes: every field and the advisory as the
    specification requires, and the specified image unless the
    condition names a member of [Object.prototype], where the built-in
    member is shown instead. *)
Theorem endpoint_snapshot_presented (s : snapshot) (st : Z) (text : string) :
  snapshot_finite s = true -> JSON_stringify (payload_of_snapshot s) = Some text ->
  loading (hooks_of (load (Responded {| status := st; body := text |}))) = false /\
  console (load (Responded {| status := st; body := text |})) = [] /\
  exists w, WeatherPage (hooks_of (load (Responded {| status := st; body := text |}))) = Normal (WeatherView w) /\
            presents s w.
Proof.
  intros Hfin Htext.
  destruct (parse_stringified _ _ (payload_wf s Hfin) Htext) as (v & Hv & Heq).
  destruct (payload_json_eq s v Heq) as (s' & -> & Hss').
  destruct (load_parsed {| status := st; body := text |} _ Hv) as [Hh Hc]. rewrite Hh, Hc.
  split; [done|]. split; [done|].
  destruct (render_weather_presents s') as (w & Hw & Hp). exists w. split; [exact Hw|].
  exact (presents_snapshot_eq s s' w Hss' Hp).
Qed.

(** C13: error.  A body that cannot start a JSON text (an HTML error
    page of a proxy, a plain-text message), whatever the status, makes
    [response.json()] reject with the SyntaxError: the page logs it and
    shows the failure message, with no weather data. *)
Theorem non_json_body_fails (st : Z) (c : ascii) (rest : string) :
  json_ws c = false -> value_start c = false ->
  failed_with syntax_error (load (Responded {| status := st; body := String c rest |})).
Proof. intros Hws Hst. apply load_rejected. exact (JSON_parse_bad_start c rest Hws Hst). Qed.

(** C12: the unchecked status.  A JSON body without a [weather]
    member, such as the error object an endpoint sends with status 500,
    is taken as weather data because [response.ok] is never read: the
    page settles and its render throws a TypeError. *)
Theorem error_status_body_crashes (st : Z) (fs : list (string * value)) (text : string) :
  json_wf (Obj fs) = true -> assoc_last "weather" fs = None -> JSON_stringify (Obj fs) = Some text ->
  exists m, WeatherPage (hooks_of (load (Responded {| status := st; body := text |}))) = Throw m.
Proof.
  intros Hwf Hw Htext.
  destruct (parse_stringified _ _ Hwf Htext) as (v & Hv & Heq).
  destruct (json_eq_obj_keys fs v Heq) as (fs' & -> & Hkeys).
  destruct (load_parsed {| status := st; body := text |} _ Hv) as [Hh _]. rewrite Hh.
  apply render_no_weather. apply assoc_last_None. rewrite Hkeys. by apply assoc_last_None.
Qed.
End EndToEnd.

(** ** Witnesses *)

Definition sunny_snapshot : snapshot :=
  {| s_temperature := Fin 24 0; s_feels_like := Fin 265 (-1); s_condition := "Sunny";
     s_precipitation_probability := Fin 10 0; s_wind_speed := Fin 12 0; s_atm_pressure := Fin 1013 0;
     s_humidity := Fin 40 0; s_risk_factor := Fin 5 0; s_city := "Kathmandu" |}.

Definition sunny_text : string :=
  Eval vm_compute in match JSON_stringify (payload_of_snapshot sunny_snapshot) with Some t => t | None => EmptyString end.

Lemma endpoint_snapshot_presented_witness :
  snapshot_finite sunny_snapshot = true /\
  JSON_stringify (payload_of_snapshot sunny_snapshot) = Some sunny_text /\
  loading (hooks_of (@load batched (Responded {| status := 200; body := sunny_text |}))) = false.
Proof.
  assert (H1 : snapshot_finite sunny_snapshot = true) by reflexivity.
  assert (H2 : JSON_stringify (payload_of_snapshot sunny_snapshot) = Some sunny_text) by (vm_compute; reflexivity).
  exact (conj H1 (conj H2 (proj1 (@endpoint_snapshot_presented batched sunny_snapshot 200 sunny_text H1 H2)))).
Defined.

Lemma non_json_body_fails_witness :
  json_ws "<" = false /\ value_start "<" = false /\
  failed_with syntax_error (@load batched (Responded {| status := 502; body := String "<" "html>Bad Gateway</html>" |})).
Proof.
  assert (H1 : json_ws "<" = false) by reflexivity.
  assert (H2 : value_start "<" = false) by reflexivity.
  exact (conj H1 (conj H2 (@non_json_body_fails batched 502 "<" "html>Bad Gateway</html>" H1 H2))).
Defined.

Definition error_body : list (string * value) := [("error", Str "Internal Server Error")].

Definition error_text : string :=
  Eval vm_compute in match JSON_stringify (Obj error_body) with Some t => t | None => EmptyString end.

Lemma error_status_body_crashes_witness :
  json_wf (Obj error_body) = true /\ assoc_last "weather" error_body = None /\
  JSON_stringify (Obj error_body) = Some error_text /\
  exists m, WeatherPage (hooks_of (@load batched (Responded {| status := 500; body := error_text |}))) = Throw m.
Proof.
  assert (H1 : json_wf (Obj error_body) = true) by reflexivity.
  assert (H2 : assoc_last "weather" error_body = None) by reflexivity.
  assert (H3 : JSON_stringify (Obj error_body) = Some error_text) by (vm_compute; reflexivity).
  exact (conj H1 (conj H2 (conj H3 (@error_status_body_crashes batched 500 error_body error_text H1 H2 H3)))).
Defined.
